(** * cc-profiles: profile lifecycle, shared-configuration links, launcher file

    A shallow embedding of the TypeScript sources
    [utils/validation.ts], [utils/paths.ts], [utils/fs.ts],
    [core/symlinks.ts], [core/profile.ts], [core/shell.ts] and
    [core/claude.ts], of the prompts, colours and messages of [ui/] and
    of the commands [create], [remove] and [list], with the properties
    of the specification settled against them and further properties
    of the code.

    Conventions of the embedding.
    - A JavaScript string is a [string]; one [ascii] stands for one UTF-16
      code unit, so the strings covered are those whose code units are
      below 256.  A file holds its decoded text.
    - The file system is a finite map from paths to nodes.  A path is the
      list of its components below the home directory, which is the root
      of the modelled tree.
    - Functions that touch the file system are written in a state and
      exception monad over that map.
    - A command runs in a second monad that also records what the
      terminal shows; the answers of the user, the colours and the
      child processes are fields of a class. *)

From Stdlib Require Import Ascii String DecimalString.
From stdpp Require Import gmap strings list fin_maps sorting.

Set Warnings "-register-all".

Open Scope string_scope.
Open Scope list_scope.

(** ** JavaScript strings *)

Module JsString.

Definition code (c : ascii) : nat := nat_of_ascii c.

Definition between (lo hi : nat) (c : ascii) : bool :=
  (lo <=? code c)%nat && (code c <=? hi)%nat.

(** The double quote, kept out of string literals. *)
Definition dquote : string := String (ascii_of_nat 34) EmptyString.

Fixpoint all_chars (p : ascii -> bool) (s : string) : bool :=
  match s with
  | EmptyString => true
  | String c rest => p c && all_chars p rest
  end.

Fixpoint map_chars (f : ascii -> ascii) (s : string) : string :=
  match s with
  | EmptyString => EmptyString
  | String c rest => String (f c) (map_chars f rest)
  end.

(** [String.prototype.toLowerCase] on code units below 256: the letters
    A-Z, and the Latin-1 capitals U+00C0..U+00DE except U+00D7, move up
    by 32; every other code unit is kept. *)
Definition lower_char (c : ascii) : ascii :=
  if between 65 90 c then ascii_of_nat (code c + 32)
  else if between 192 222 c && negb (code c =? 215)%nat
       then ascii_of_nat (code c + 32)
       else c.

Definition toLowerCase (s : string) : string := map_chars lower_char s.

(** [Array.prototype.includes] on an array of strings. *)
Definition includes (l : list string) (x : string) : bool :=
  existsb (String.eqb x) l.

(** [String.prototype.includes] *)
Fixpoint contains (needle hay : string) : bool :=
  String.prefix needle hay
  || match hay with
     | EmptyString => false
     | String _ rest => contains needle rest
     end.

(** White space and line terminators among the code units below 256:
    tab, line feed, vertical tab, form feed, carriage return, space and
    the no-break space. *)
Definition is_space (c : ascii) : bool :=
  between 9 13 c || (code c =? 32)%nat || (code c =? 160)%nat.

(** [String.prototype.trimEnd] *)
Fixpoint trimEnd (s : string) : string :=
  match s with
  | EmptyString => EmptyString
  | String c rest =>
      match trimEnd rest with
      | EmptyString => if is_space c then EmptyString else String c EmptyString
      | kept => String c kept
      end
  end.

Definition nl : string := String (ascii_of_nat 10) EmptyString.

(** [lines.join(sep)] *)
Definition join_with (sep : string) (parts : list string) : string :=
  String.concat sep parts.

(** Decimal rendering of a number inside a template literal. *)
Definition of_nat (n : nat) : string :=
  NilEmpty.string_of_uint (Nat.to_uint n).

End JsString.

(** ** utils/validation.ts *)

Module Validation.
Import JsString.

Definition MAX_PROFILE_NAME_LENGTH : nat := 32.

Definition is_lower (c : ascii) : bool := between 97 122 c.
Definition is_digit (c : ascii) : bool := between 48 57 c.
Definition is_name_char (c : ascii) : bool :=
  is_lower c || is_digit c || (code c =? 45)%nat.

(** [/^[a-z][a-z0-9-]*$/.test]: without the [m] flag the anchors are the
    two ends of the string. *)
Definition PROFILE_NAME_PATTERN (s : string) : bool :=
  match s with
  | EmptyString => false
  | String c rest => is_lower c && all_chars is_name_char rest
  end.

(** [/^[a-z]/.test] *)
Definition starts_lower (s : string) : bool :=
  match s with
  | EmptyString => false
  | String c _ => is_lower c
  end.

Definition RESERVED_NAMES : list string :=
  ["claude"; "default"; "main"; "primary"].

(** [!name || name.length === 0] on a string. *)
Definition is_blank (name : string) : bool :=
  match name with EmptyString => true | _ => false end
  || (String.length name =? 0)%nat.

Definition isValidProfileName (name : string) : bool :=
  if is_blank name then false
  else if (MAX_PROFILE_NAME_LENGTH <? String.length name)%nat then false
  else if negb (PROFILE_NAME_PATTERN name) then false
  else if includes RESERVED_NAMES (toLowerCase name) then false
  else true.

Definition getProfileNameError (name : string) : option string :=
  if is_blank name then Some "Profile name is required"
  else if (MAX_PROFILE_NAME_LENGTH <? String.length name)%nat then
    Some ("Name must be " +:+ of_nat MAX_PROFILE_NAME_LENGTH
            +:+ " characters or less")
  else if negb (starts_lower name) then
    Some "Name must start with a lowercase letter"
  else if negb (PROFILE_NAME_PATTERN name) then
    Some "Use only lowercase letters, numbers, and hyphens"
  else if includes RESERVED_NAMES (toLowerCase name) then
    Some (dquote +:+ name +:+ dquote +:+ " is a reserved name")
  else None.

(** *** The rules as the specification words them *)

Inductive rule := RuleEmpty | RuleTooLong | RulePattern | RuleReserved.

(** The fixed order of the rules. *)
Definition rule_order : list rule :=
  [RuleEmpty; RuleTooLong; RulePattern; RuleReserved].

(** "non-empty; length at most 32; starts with a lowercase ASCII letter,
    followed by lowercase letters, digits and hyphens only; not a
    case-insensitive match against the reserved words". *)
Definition violates (r : rule) (name : string) : bool :=
  match r with
  | RuleEmpty => (String.length name =? 0)%nat
  | RuleTooLong => (32 <? String.length name)%nat
  | RulePattern =>
      negb match name with
           | EmptyString => false
           | String c rest => is_lower c && all_chars is_name_char rest
           end
  | RuleReserved =>
      existsb (fun w => String.eqb (toLowerCase name) (toLowerCase w))
              RESERVED_NAMES
  end.

Definition first_violated (name : string) : option rule :=
  List.find (fun r => violates r name) rule_order.

(** The messages that report each rule. *)
Definition reports (r : rule) (name msg : string) : Prop :=
  match r with
  | RuleEmpty => msg = "Profile name is required"
  | RuleTooLong => msg = "Name must be 32 characters or less"
  | RulePattern =>
      msg = "Name must start with a lowercase letter"
      \/ msg = "Use only lowercase letters, numbers, and hyphens"
  | RuleReserved => msg = dquote +:+ name +:+ dquote +:+ " is a reserved name"
  end.

End Validation.

(** ** Paths: node:path [join] and utils/paths.ts *)

Module Path.

(** A path is the list of its components below the home directory; the
    empty list is the home directory itself. *)
Abbreviation path := (list string).

(** The segments of a string between its slashes. *)
Fixpoint segments (s : string) : list string :=
  match s with
  | EmptyString => [EmptyString]
  | String c rest =>
      if (JsString.code c =? 47)%nat then EmptyString :: segments rest
      else match segments rest with
           | [] => [String c EmptyString]
           | seg :: more => String c seg :: more
           end
  end.

(** One step of [path.normalize]: empty and "." segments vanish, ".."
    drops the last component.  Paths are not followed above the home
    directory: ".." at the root of the tree stays there. *)
Definition push (acc : path) (seg : string) : path :=
  if String.eqb seg "" || String.eqb seg "." then acc
  else if String.eqb seg ".." then removelast acc
  else acc ++ [seg].

(** [join(base, s)] for a normalised [base]: the joined string is
    normalised, so its segments are resolved lexically. *)
Definition join (base : path) (s : string) : path :=
  fold_left push (segments s) base.

End Path.

(** ** The file system *)

Module Fs.
Import Path.

Inductive node :=
| File (content : string)
| Dir
| Link (target : path).

Global Instance node_eq_dec : EqDecision node.
Proof. solve_decision. Defined.

Inductive errno := ENOENT | EEXIST | ENOTDIR | EISDIR | ELOOP | EPERM.

(** What the functions throw.  The sources throw [Error] objects that
    differ by their message; the constructors follow the kinds of the
    specification and carry what the message carries. *)
Inductive error :=
| InvalidName                                       (* 'Invalid profile name. ...' *)
| AlreadyExists (name : string)                     (* 'Profile "name" already exists.' *)
| BaseNotConfigured                                 (* 'Claude Code is not configured. ...' *)
| MissingRequiredSharedResource (source : path)     (* 'Required file not found: source' *)
| NotFound (name : string)                          (* 'Profile "name" does not exist.' *)
| TypeError                                         (* thrown by the runtime *)
| IOError (e : errno).                              (* thrown by node:fs *)

Inductive result (A : Type) :=
| Ok (a : A)
| Throw (e : error).
Arguments Ok {A} a.
Arguments Throw {A} e.

(** The state is the tree below the home directory. *)
Definition M (A : Type) : Type := gmap path node -> result A * gmap path node.

Definition ret {A} (a : A) : M A := fun s => (Ok a, s).
Definition throw {A} (e : error) : M A := fun s => (Throw e, s).
Definition bind {A B} (m : M A) (k : A -> M B) : M B :=
  fun s => match m s with
           | (Ok a, s') => k a s'
           | (Throw e, s') => (Throw e, s')
           end.
(** [try { m } catch { h }] *)
Definition try_catch {A} (m : M A) (h : M A) : M A :=
  fun s => match m s with
           | (Ok a, s') => (Ok a, s')
           | (Throw _, s') => h s'
           end.

Declare Scope fs_scope.
Delimit Scope fs_scope with fs.
Notation "x <- m ;; k" := (bind m (fun x => k))
  (at level 100, m at next level, right associativity) : fs_scope.
Notation "m ;; k" := (bind m (fun _ => k))
  (at level 100, right associativity) : fs_scope.
Open Scope fs_scope.

(** The home directory is a directory; every other node is an entry of
    the map. *)
Definition node_at (s : gmap path node) (p : path) : option node :=
  match p with
  | [] => Some Dir
  | _ => s !! p
  end.

(** The kernel follows at most 40 symbolic links in one resolution. *)
Definition MAXSYMLINKS : nat := 40.

(** Resolve the components [rest] from the directory [cur], following
    every link met; [fuel] is the number of links that may still be
    followed.  A link holds an absolute target. *)
Fixpoint walk (fuel : nat) (s : gmap path node) {struct fuel}
  : path -> path -> option path :=
  fix go (cur rest : path) {struct rest} : option path :=
    match rest with
    | [] => Some cur
    | c :: rest' =>
        match s !! (cur ++ [c]) with
        | None => None
        | Some Dir => go (cur ++ [c]) rest'
        | Some (File _) =>
            match rest' with
            | [] => Some (cur ++ [c])
            | _ => None
            end
        | Some (Link t) =>
            match fuel with
            | O => None
            | S fuel' => walk fuel' s [] (t ++ rest')
            end
        end
    end.

(** Where [p] leads when every link is followed. *)
Definition realpath (s : gmap path node) (p : path) : option path :=
  walk MAXSYMLINKS s [] p.

(** The entry [p] names: its directory is resolved, its last component
    is not followed. *)
Definition locate (s : gmap path node) (p : path) : option path :=
  match p with
  | [] => Some []
  | _ =>
      match realpath s (removelast p) with
      | Some d =>
          match node_at s d with
          | Some Dir => Some (d ++ [List.last p ""])
          | _ => None
          end
      | None => None
      end
  end.

(** [existsSync]: true when the path resolves, false on any error. *)
Definition exists_ (s : gmap path node) (p : path) : bool :=
  match realpath s p with Some _ => true | None => false end.

Definition existsSync (p : path) : M bool :=
  fun s => (Ok (exists_ s p), s).

(** The node [lstat] sees at [p]. *)
Definition lstat (s : gmap path node) (p : path) : option node :=
  locate s p ≫= node_at s.

(** [lstatSync(p)] and [stat.isSymbolicLink()] *)
Definition lstatSync (p : path) : M node :=
  fun s => match lstat s p with
           | Some n => (Ok n, s)
           | None => (Throw (IOError ENOENT), s)
           end.

Definition isSymbolicLink (n : node) : bool :=
  match n with Link _ => true | _ => false end.

(** [fs.stat(p)] follows links. *)
Definition stat (p : path) : M node :=
  fun s => match realpath s p ≫= node_at s with
           | Some n => (Ok n, s)
           | None => (Throw (IOError ENOENT), s)
           end.

(** The tree without the entry [k] and everything below it. *)
Definition prune (k : path) (s : gmap path node) : gmap path node :=
  filter (fun kv => ¬ (k `prefix_of` kv.1)) s.

(** [fs.rm(p, { recursive: true, force: true })]: the entry itself is
    removed, a link is not followed; nothing happens when there is no
    such entry. *)
Definition rm_rf (p : path) : M unit :=
  fun s => match locate s p with
           | Some k => (Ok tt, prune k s)
           | None => (Ok tt, s)
           end.

(** [fs.rm(p)] without options refuses a directory. *)
Definition rm (p : path) : M unit :=
  fun s => match locate s p with
           | Some k =>
               match node_at s k with
               | Some Dir => (Throw (IOError EISDIR), s)
               | Some _ => (Ok tt, delete k s)
               | None => (Throw (IOError ENOENT), s)
               end
           | None => (Throw (IOError ENOENT), s)
           end.

(** [fs.unlink(p)] *)
Definition unlink (p : path) : M unit :=
  fun s => match locate s p with
           | Some k =>
               match node_at s k with
               | Some Dir => (Throw (IOError EPERM), s)
               | Some _ => (Ok tt, delete k s)
               | None => (Throw (IOError ENOENT), s)
               end
           | None => (Throw (IOError ENOENT), s)
           end.

(** [fs.symlink(source, target)]: a new entry at [target] holding
    [source]; refused when an entry is there already, even a link that
    leads nowhere. *)
Definition symlink (source target : path) : M unit :=
  fun s => match locate s target with
           | Some k =>
               match node_at s k with
               | Some _ => (Throw (IOError EEXIST), s)
               | None => (Ok tt, <[k := Link source]> s)
               end
           | None => (Throw (IOError ENOENT), s)
           end.

(** [fs.mkdir(p, { recursive: true })]: every missing directory on the
    way is created; a link on the way is followed. *)
Fixpoint mkdir_from (s : gmap path node) (cur rest : path)
  : result unit * gmap path node :=
  match rest with
  | [] => (Ok tt, s)
  | c :: rest' =>
      match s !! (cur ++ [c]) with
      | None => mkdir_from (<[cur ++ [c] := Dir]> s) (cur ++ [c]) rest'
      | Some Dir => mkdir_from s (cur ++ [c]) rest'
      | Some (File _) =>
          (Throw (IOError match rest' with [] => EEXIST | _ => ENOTDIR end), s)
      | Some (Link _) =>
          match realpath s (cur ++ [c]) with
          | Some d =>
              match node_at s d with
              | Some Dir => mkdir_from s d rest'
              | _ => (Throw (IOError match rest' with [] => EEXIST | _ => ENOTDIR end), s)
              end
          | None => (Throw (IOError ENOENT), s)
          end
      end
  end.

Definition mkdir_p (p : path) : M unit := fun s => mkdir_from s [] p.

(** [fs.readFile(p, 'utf-8')] *)
Definition readFile (p : path) : M string :=
  fun s => match realpath s p ≫= node_at s with
           | Some (File c) => (Ok c, s)
           | Some _ => (Throw (IOError EISDIR), s)
           | None => (Throw (IOError ENOENT), s)
           end.

(** The entry a write to [p] lands on: links in the last position are
    followed, also when they lead nowhere yet. *)
Fixpoint write_target (fuel : nat) (s : gmap path node) (p : path)
  : option path :=
  match locate s p with
  | Some k =>
      match node_at s k with
      | Some (Link t) =>
          match fuel with
          | O => None
          | S fuel' => write_target fuel' s t
          end
      | Some Dir => None
      | _ => Some k
      end
  | None => None
  end.

(** [fs.writeFile(p, content)] replaces the whole content. *)
Definition writeFile (p : path) (content : string) : M unit :=
  fun s => match write_target MAXSYMLINKS s p with
           | Some k => (Ok tt, <[k := File content]> s)
           | None => (Throw (IOError ENOENT), s)
           end.

End Fs.

(** ** types/index.ts *)

Module Types.

Inductive kind := file | directory.

Module SharedItem.
Record t := mk { name : string; type : kind; required : bool }.
End SharedItem.

Module SymlinkTarget.
Record t := mk {
  source : Path.path;
  target : Path.path;
  type : kind;
  required : bool }.
End SymlinkTarget.

(** One element of the array [getSymlinkStatus] returns. *)
Module LinkStatus.
Record t := mk {
  name : string;
  exists_ : bool;
  isSymlink : bool;
  targetExists : bool }.
End LinkStatus.

(** A [Date] object: a time value in milliseconds, or the invalid date
    whose [getTime()] is NaN. *)
Inductive Date := Time (ms : Z) | InvalidDate.

Module Profile.
Record t := mk {
  name : string;
  path : Path.path;
  configPath : Path.path;
  credentialsPath : Path.path;
  isAuthenticated : bool;
  createdAt : Date }.
End Profile.

End Types.

(** ** utils/paths.ts *)

Module Paths.
Import Path Types.

Definition HOME : path := [].

Module CLAUDE_PATHS.
Definition mainConfig : path := join HOME ".claude".
Definition mainCredentials : path := join HOME ".claude.json".
Definition sharedItems : list SharedItem.t :=
  [ SharedItem.mk "settings.json" file true;
    SharedItem.mk "stats-cache.json" file false;
    SharedItem.mk "CLAUDE.md" file false;
    SharedItem.mk "agents" directory false;
    SharedItem.mk "commands" directory false;
    SharedItem.mk "plugins" directory false;
    SharedItem.mk "skills" directory false ].
Definition profilesConfig : path := join HOME ".cc-profiles.json".
End CLAUDE_PATHS.

Definition getProfilePath (name : string) : path :=
  join HOME (".claude-" +:+ name).

Definition getProfileCredentialsPath (name : string) : path :=
  join HOME (".claude-" +:+ name +:+ ".json").

End Paths.

(** ** core/symlinks.ts *)

Module Symlinks.
Import Path Fs Types Paths.

(** The body of the [for] loop of [createSymlinks], from the items still
    to visit and the descriptors pushed so far. *)
Fixpoint createSymlinks_loop (profilePath : path)
    (items : list SharedItem.t) (created : list SymlinkTarget.t)
  : M (list SymlinkTarget.t) :=
  match items with
  | [] => ret created
  | item :: rest =>
      let source := join CLAUDE_PATHS.mainConfig (SharedItem.name item) in
      let target := join profilePath (SharedItem.name item) in
      sourceExists <- existsSync source;;
      if negb sourceExists then
        if SharedItem.required item
        then throw (MissingRequiredSharedResource source)
        else createSymlinks_loop profilePath rest created
      else
        targetExists <- existsSync target;;
        skip <- (if targetExists then
                   st <- lstatSync target;;
                   if negb (isSymbolicLink st)
                   then (rm_rf target;; ret false)
                   else ret true
                 else ret false);;
        if (skip : bool) then createSymlinks_loop profilePath rest created
        else
          symlink source target;;
          createSymlinks_loop profilePath rest
            (created ++ [SymlinkTarget.mk source target
                           (SharedItem.type item)
                           (SharedItem.required item)])
  end.

Definition createSymlinks (profileName : string)
  : M (list SymlinkTarget.t) :=
  createSymlinks_loop (getProfilePath profileName)
    CLAUDE_PATHS.sharedItems [].

Fixpoint removeSymlinks_loop (profilePath : path)
    (items : list SharedItem.t) : M unit :=
  match items with
  | [] => ret tt
  | item :: rest =>
      let target := join profilePath (SharedItem.name item) in
      targetExists <- existsSync target;;
      (if targetExists then
         st <- lstatSync target;;
         if isSymbolicLink st then unlink target else ret tt
       else ret tt);;
      removeSymlinks_loop profilePath rest
  end.

Definition removeSymlinks (profileName : string) : M unit :=
  removeSymlinks_loop (getProfilePath profileName)
    CLAUDE_PATHS.sharedItems.

Fixpoint verifySymlinks_loop (profilePath : path)
    (items : list SharedItem.t) : M bool :=
  match items with
  | [] => ret true
  | item :: rest =>
      if negb (SharedItem.required item)
      then verifySymlinks_loop profilePath rest
      else
        let target := join profilePath (SharedItem.name item) in
        targetExists <- existsSync target;;
        if negb targetExists then ret false
        else
          st <- lstatSync target;;
          if negb (isSymbolicLink st) then ret false
          else
            resolves <- try_catch (stat target;; ret true) (ret false);;
            if negb resolves then ret false
            else verifySymlinks_loop profilePath rest
  end.

Definition verifySymlinks (profileName : string) : M bool :=
  verifySymlinks_loop (getProfilePath profileName)
    CLAUDE_PATHS.sharedItems.

Fixpoint getSymlinkStatus_loop (profilePath : path)
    (items : list SharedItem.t) (status : list LinkStatus.t)
  : M (list LinkStatus.t) :=
  match items with
  | [] => ret status
  | item :: rest =>
      let target := join profilePath (SharedItem.name item) in
      exists_ <- existsSync target;;
      flags <- (if (exists_ : bool) then
                  st <- lstatSync target;;
                  let isSymlinkFlag := isSymbolicLink st in
                  if isSymlinkFlag then
                    targetExists <-
                      try_catch (stat target;; ret true) (ret false);;
                    ret (isSymlinkFlag, targetExists)
                  else ret (isSymlinkFlag, false)
                else ret (false, false));;
      getSymlinkStatus_loop profilePath rest
        (status ++ [LinkStatus.mk (SharedItem.name item) exists_
                      (fst flags) (snd flags)])
  end.

Definition getSymlinkStatus (profileName : string)
  : M (list LinkStatus.t) :=
  getSymlinkStatus_loop (getProfilePath profileName)
    CLAUDE_PATHS.sharedItems [].

End Symlinks.

(** ** JSON values and the built-ins of the runtime *)

Module Json.

(** A parsed JSON text.  An object is the list of its own properties in
    enumeration order; a number keeps its literal. *)
Inductive value :=
| JNull
| JBool (b : bool)
| JNumber (literal : string)
| JString (s : string)
| JArray (items : list value)
| JObject (props : list (string * value)).

(** A number literal denotes zero when its mantissa has no digit from
    1 to 9. *)
Fixpoint mantissa_zero (lit : string) : bool :=
  match lit with
  | EmptyString => true
  | String c rest =>
      if (JsString.code c =? 101)%nat || (JsString.code c =? 69)%nat
      then true
      else negb (JsString.between 49 57 c) && mantissa_zero rest
  end.

(** [ToBoolean] *)
Definition truthy (v : value) : bool :=
  match v with
  | JNull => false
  | JBool b => b
  | JNumber lit => negb (mantissa_zero lit)
  | JString s => negb (String.eqb s "")
  | JArray _ | JObject _ => true
  end.

Fixpoint assoc (k : string) (props : list (string * value)) : option value :=
  match props with
  | [] => None
  | (k', v) :: rest => if String.eqb k k' then Some v else assoc k rest
  end.

(** [v.k] for a value that is neither null nor undefined: [None] is
    undefined.  Only objects carry the properties read here. *)
Definition get_prop (v : value) (k : string) : option value :=
  match v with
  | JObject props => assoc k props
  | _ => None
  end.

(** Assignment of a property whose name is not an array index: an
    existing property keeps its place, a new one comes last. *)
Fixpoint assoc_set (k : string) (v : value) (props : list (string * value))
  : list (string * value) :=
  match props with
  | [] => [(k, v)]
  | (k', v') :: rest =>
      if String.eqb k k' then (k, v) :: rest
      else (k', v') :: assoc_set k v rest
  end.

Fixpoint assoc_delete (k : string) (props : list (string * value))
  : list (string * value) :=
  match props with
  | [] => []
  | (k', v') :: rest =>
      if String.eqb k k' then assoc_delete k rest
      else (k', v') :: assoc_delete k rest
  end.

End Json.

Module Runtime.
Import Types.

(** What the JavaScript runtime and the process supply: the JSON and
    Date built-ins, the clock and the environment.  One operation is
    taken to run within one reading of the clock. *)
Class t := {
  (** [JSON.parse(text)]; [None] when it throws. *)
  JSON_parse : string -> option Json.value;
  (** [JSON.stringify(value, null, 2)] *)
  JSON_stringify : Json.value -> string;
  (** [new Date(x)] for a JSON value [x], or for undefined. *)
  Date_new : option Json.value -> Date;
  (** [date.toISOString()] of the valid date with this time value. *)
  Date_toISOString : Z -> string;
  (** The time value of [new Date()]. *)
  Date_now : Z;
  (** [process.env.SHELL], when set. *)
  env_SHELL : option string }.

End Runtime.

(** ** utils/fs.ts: [readJson] and [writeJson] *)

Module FsUtils.
Import Path Fs Json Runtime.

Section WithRuntime.
Context `{Runtime.t}.

(** The value, or null when reading or parsing throws. *)
Definition readJson (p : path) : M value :=
  try_catch
    (content <- readFile p;;
     match JSON_parse content with
     | Some v => ret v
     | None => throw TypeError
     end)
    (ret JNull).

Definition writeJson (p : path) (data : value) : M unit :=
  writeFile p (JSON_stringify data).

End WithRuntime.

End FsUtils.

(** ** core/profile.ts *)

Module ProfileOps.
Import Path Fs Json Runtime Types Paths FsUtils Symlinks Validation.

(** [profiles.sort(compare)]: the comparator's number decides; NaN
    counts as zero.  For a comparator that is a consistent order every
    stable sort returns this list. *)
Fixpoint sort_insert {A} (compare : A -> A -> option Z) (x : A) (l : list A)
  : list A :=
  match l with
  | [] => [x]
  | y :: rest =>
      if (default 0 (compare x y) <=? 0)%Z then x :: y :: rest
      else y :: sort_insert compare x rest
  end.

Definition sort {A} (compare : A -> A -> option Z) (l : list A) : list A :=
  foldr (sort_insert compare) [] l.

(** [date.getTime()]; [None] is NaN. *)
Definition getTime (d : Date) : option Z :=
  match d with Time ms => Some ms | InvalidDate => None end.

(** [(a, b) => b.createdAt.getTime() - a.createdAt.getTime()] *)
Definition newest_first (a b : Profile.t) : option Z :=
  match getTime (Profile.createdAt b), getTime (Profile.createdAt a) with
  | Some tb, Some ta => Some (tb - ta)%Z
  | _, _ => None
  end.

Section WithRuntime.
Context `{Runtime.t}.

Definition emptyConfig : value :=
  JObject [("profiles", JObject []); ("version", JString "1.0.0")].

Definition loadProfilesConfig : M value :=
  config <- readJson CLAUDE_PATHS.profilesConfig;;
  ret (if truthy config then config else emptyConfig).

(** [config.profiles[name] = { name, createdAt, shellAlias }].  The
    runtime throws a TypeError when [config.profiles] is undefined or
    null, and, in a module, when it is another primitive; a property
    set on an array under a name that is no index is not serialised. *)
Definition saveProfileMetadata (name : string) : M unit :=
  config <- loadProfilesConfig;;
  let metadata :=
    JObject [("name", JString name);
             ("createdAt", JString (Date_toISOString Date_now));
             ("shellAlias", JString name)] in
  match config, get_prop config "profiles" with
  | JObject props, Some (JObject profiles) =>
      writeJson CLAUDE_PATHS.profilesConfig
        (JObject (assoc_set "profiles"
                    (JObject (assoc_set name metadata profiles)) props))
  | JObject props, Some (JArray _) =>
      writeJson CLAUDE_PATHS.profilesConfig config
  | _, _ => throw TypeError
  end.

(** [delete config.profiles[name]].  The runtime throws a TypeError
    when [config.profiles] is undefined or null; for an array or
    another primitive only names that are no index are covered, and
    deleting them changes nothing. *)
Definition removeProfileMetadata (name : string) : M unit :=
  config <- loadProfilesConfig;;
  match config, get_prop config "profiles" with
  | JObject props, Some (JObject profiles) =>
      writeJson CLAUDE_PATHS.profilesConfig
        (JObject (assoc_set "profiles"
                    (JObject (assoc_delete name profiles)) props))
  | _, None | _, Some JNull => throw TypeError
  | _, Some _ => writeJson CLAUDE_PATHS.profilesConfig config
  end.

Definition createProfile (name : string) : M Profile.t :=
  let profilePath := getProfilePath name in
  let credentialsPath := getProfileCredentialsPath name in
  if negb (isValidProfileName name) then throw InvalidName
  else
    profileThere <- existsSync profilePath;;
    if (profileThere : bool) then throw (AlreadyExists name)
    else
      mainThere <- existsSync CLAUDE_PATHS.mainConfig;;
      if negb mainThere then throw BaseNotConfigured
      else
        mkdir_p profilePath;;
        createSymlinks name;;
        saveProfileMetadata name;;
        isAuthenticated <- existsSync credentialsPath;;
        ret (Profile.mk name profilePath profilePath credentialsPath
               isAuthenticated (Time Date_now)).

(** [Object.entries(x)] for what [config.profiles] may hold: a
    TypeError for undefined and null, the properties of an object,
    the indexed elements of an array, nothing for the other
    primitives but a string, whose code units are its entries. *)
Definition entries (x : option value) : option (list (string * value)) :=
  match x with
  | None | Some JNull => None
  | Some (JObject props) => Some props
  | Some (JArray items) =>
      Some (imap (fun i v => (JsString.of_nat i, v)) items)
  | Some (JString str) =>
      Some (imap (fun i c => (JsString.of_nat i, JString (String c EmptyString)))
              (list_ascii_of_string str))
  | Some _ => Some []
  end.

(** The body of the [for] loop of [listProfiles]. *)
Fixpoint listProfiles_loop (es : list (string * value))
    (profiles : list Profile.t) : M (list Profile.t) :=
  match es with
  | [] => ret profiles
  | (name, metadata) :: rest =>
      let profilePath := getProfilePath name in
      let credentialsPath := getProfileCredentialsPath name in
      there <- existsSync profilePath;;
      if (there : bool) then
        isAuthenticated <- existsSync credentialsPath;;
        match metadata with
        | JNull => throw TypeError
        | _ =>
            listProfiles_loop rest
              (profiles ++
                 [Profile.mk name profilePath profilePath credentialsPath
                    isAuthenticated
                    (Date_new (get_prop metadata "createdAt"))])
        end
      else listProfiles_loop rest profiles
  end.

Definition listProfiles : M (list Profile.t) :=
  config <- loadProfilesConfig;;
  match entries (get_prop config "profiles") with
  | None => throw TypeError
  | Some es =>
      profiles <- listProfiles_loop es [];;
      ret (sort newest_first profiles)
  end.

Definition getProfile (name : string) : M (option Profile.t) :=
  profiles <- listProfiles;;
  ret (List.find (fun p => String.eqb (Profile.name p) name) profiles).

Definition removeProfile (name : string) : M unit :=
  let profilePath := getProfilePath name in
  let credentialsPath := getProfileCredentialsPath name in
  there <- existsSync profilePath;;
  if negb there then throw (NotFound name)
  else
    removeSymlinks name;;
    rm_rf profilePath;;
    credentialsThere <- existsSync credentialsPath;;
    (if (credentialsThere : bool) then rm credentialsPath else ret tt);;
    removeProfileMetadata name.

Definition profileExists (name : string) : M bool :=
  existsSync (getProfilePath name).

Definition getProfileNames : M (list string) :=
  profiles <- listProfiles;;
  ret (map Profile.name profiles).

End WithRuntime.

End ProfileOps.

(** ** A reference runtime

    The statements below hold for every runtime.  The examples run on
    this one: JSON texts over code units below 256, dates in the format
    [toISOString] writes, years 0000 to 9999. *)

Module Reference.
Import Json Types.

Definition chr (n : nat) : ascii := ascii_of_nat n.
Definition str1 (n : nat) : string := String (chr n) EmptyString.
Definition nl : string := str1 10.

(** *** JSON.stringify(value, null, 2) *)

Definition hex_digit (n : nat) : ascii :=
  if (n <? 10)%nat then chr (48 + n) else chr (87 + n).

Definition escape_char (c : ascii) : string :=
  let n := JsString.code c in
  if (n =? 34)%nat then "\" +:+ str1 34
  else if (n =? 92)%nat then "\\"
  else if (n =? 8)%nat then "\b"
  else if (n =? 12)%nat then "\f"
  else if (n =? 10)%nat then "\n"
  else if (n =? 13)%nat then "\r"
  else if (n =? 9)%nat then "\t"
  else if (n <? 32)%nat then
    "\u00" +:+ String (hex_digit (n / 16)) (String (hex_digit (n mod 16)) EmptyString)
  else String c EmptyString.

Fixpoint escape (s : string) : string :=
  match s with
  | EmptyString => EmptyString
  | String c rest => escape_char c +:+ escape rest
  end.

Definition quote (s : string) : string := str1 34 +:+ escape s +:+ str1 34.

Fixpoint stringify_at (indent : string) (v : value) : string :=
  let inner := indent +:+ "  " in
  match v with
  | JNull => "null"
  | JBool true => "true"
  | JBool false => "false"
  | JNumber lit => lit
  | JString s => quote s
  | JArray [] => "[]"
  | JArray items =>
      "[" +:+ nl
      +:+ String.concat ("," +:+ nl)
            (map (fun x => inner +:+ stringify_at inner x) items)
      +:+ nl +:+ indent +:+ "]"
  | JObject [] => "{}"
  | JObject props =>
      "{" +:+ nl
      +:+ String.concat ("," +:+ nl)
            (map (fun kv => inner +:+ quote (fst kv) +:+ ": "
                              +:+ stringify_at inner (snd kv)) props)
      +:+ nl +:+ indent +:+ "}"
  end.

Definition stringify (v : value) : string := stringify_at "" v.

(** *** JSON.parse *)

Definition is_ws (c : ascii) : bool :=
  let n := JsString.code c in
  (n =? 32)%nat || (n =? 9)%nat || (n =? 10)%nat || (n =? 13)%nat.

Fixpoint skip_ws (l : list ascii) : list ascii :=
  match l with
  | c :: rest => if is_ws c then skip_ws rest else l
  | [] => []
  end.

Definition hex_value (c : ascii) : option nat :=
  let n := JsString.code c in
  if JsString.between 48 57 c then Some (n - 48)
  else if JsString.between 97 102 c then Some (n - 87)
  else if JsString.between 65 70 c then Some (n - 55)
  else None.

(** The characters of a string literal after its opening quote. *)
Fixpoint parse_chars (l : list ascii) : option (string * list ascii) :=
  match l with
  | [] => None
  | c :: rest =>
      let n := JsString.code c in
      if (n =? 34)%nat then Some (EmptyString, rest)
      else if (n <? 32)%nat then None
      else if (n =? 92)%nat then
        match rest with
        | e :: rest' =>
            let m := JsString.code e in
            let simple (k : nat) :=
              match parse_chars rest' with
              | Some (s, r) => Some (String (chr k) s, r)
              | None => None
              end in
            if (m =? 34)%nat then simple 34
            else if (m =? 92)%nat then simple 92
            else if (m =? 47)%nat then simple 47
            else if (m =? 98)%nat then simple 8
            else if (m =? 102)%nat then simple 12
            else if (m =? 110)%nat then simple 10
            else if (m =? 114)%nat then simple 13
            else if (m =? 116)%nat then simple 9
            else if (m =? 117)%nat then
              match rest' with
              | h1 :: h2 :: h3 :: h4 :: rest'' =>
                  match hex_value h1, hex_value h2, hex_value h3, hex_value h4 with
                  | Some 0, Some 0, Some a, Some b =>
                      match parse_chars rest'' with
                      | Some (s, r) => Some (String (chr (16 * a + b)) s, r)
                      | None => None
                      end
                  | _, _, _, _ => None
                  end
              | _ => None
              end
            else None
        | [] => None
        end
      else
        match parse_chars rest with
        | Some (s, r) => Some (String c s, r)
        | None => None
        end
  end.

Fixpoint take_digits (l : list ascii) : string * list ascii :=
  match l with
  | c :: rest =>
      if JsString.between 48 57 c
      then let (ds, r) := take_digits rest in (String c ds, r)
      else (EmptyString, l)
  | [] => (EmptyString, [])
  end.

(** A number literal: [-? int frac? exp?]. *)
Definition parse_number (l : list ascii) : option (string * list ascii) :=
  let (sign, l1) :=
    match l with
    | c :: rest => if (JsString.code c =? 45)%nat then ("-", rest) else ("", l)
    | [] => ("", l)
    end in
  let (int, l2) := take_digits l1 in
  if String.eqb int "" then None
  else if (1 <? String.length int)%nat && String.prefix "0" int then None
  else
    let frac :=
      match l2 with
      | c :: rest =>
          if (JsString.code c =? 46)%nat then
            let (ds, r) := take_digits rest in
            if String.eqb ds "" then None else Some ("." +:+ ds, r)
          else Some ("", l2)
      | [] => Some ("", l2)
      end in
    match frac with
    | None => None
    | Some (fr, l3) =>
        let exp :=
          match l3 with
          | c :: rest =>
              if (JsString.code c =? 101)%nat || (JsString.code c =? 69)%nat then
                let (sg, rest') :=
                  match rest with
                  | d :: r =>
                      if (JsString.code d =? 43)%nat || (JsString.code d =? 45)%nat
                      then (String d EmptyString, r) else ("", rest)
                  | [] => ("", rest)
                  end in
                let (ds, r) := take_digits rest' in
                if String.eqb ds "" then None
                else Some (String c EmptyString +:+ sg +:+ ds, r)
              else Some ("", l3)
          | [] => Some ("", l3)
          end in
        match exp with
        | None => None
        | Some (ex, l4) => Some (sign +:+ int +:+ fr +:+ ex, l4)
        end
    end.

Fixpoint strip (word rest : list ascii) : option (list ascii) :=
  match word, rest with
  | [], _ => Some rest
  | w :: word', c :: rest' =>
      if Ascii.eqb w c then strip word' rest' else None
  | _ :: _, [] => None
  end.

(** A value at the head of the text, the text being free of leading
    white space; [fuel] bounds the nesting and the number of members. *)
Fixpoint parse_value (fuel : nat) (l : list ascii)
  : option (value * list ascii) :=
  match fuel with
  | O => None
  | S fuel' =>
      let members :=
        fix members (n : nat) (acc : list (string * value)) (l : list ascii)
          : option (value * list ascii) :=
          match n with
          | O => None
          | S n' =>
              match l with
              | q :: rest =>
                  if (JsString.code q =? 34)%nat then
                    match parse_chars rest with
                    | Some (k, r1) =>
                        match skip_ws r1 with
                        | colon :: r2 =>
                            if (JsString.code colon =? 58)%nat then
                              match parse_value fuel' (skip_ws r2) with
                              | Some (v, r3) =>
                                  let acc' := assoc_set k v acc in
                                  match skip_ws r3 with
                                  | sep :: r4 =>
                                      if (JsString.code sep =? 44)%nat
                                      then members n' acc' (skip_ws r4)
                                      else if (JsString.code sep =? 125)%nat
                                      then Some (JObject acc', r4)
                                      else None
                                  | [] => None
                                  end
                              | None => None
                              end
                            else None
                        | [] => None
                        end
                    | None => None
                    end
                  else None
              | [] => None
              end
          end in
      let elements :=
        fix elements (n : nat) (acc : list value) (l : list ascii)
          : option (value * list ascii) :=
          match n with
          | O => None
          | S n' =>
              match parse_value fuel' l with
              | Some (v, r1) =>
                  match skip_ws r1 with
                  | sep :: r2 =>
                      if (JsString.code sep =? 44)%nat
                      then elements n' (acc ++ [v]) (skip_ws r2)
                      else if (JsString.code sep =? 93)%nat
                      then Some (JArray (acc ++ [v]), r2)
                      else None
                  | [] => None
                  end
              | None => None
              end
          end in
      match l with
      | [] => None
      | c :: rest =>
          let n := JsString.code c in
          if (n =? 123)%nat then
            match skip_ws rest with
            | c' :: rest' =>
                if (JsString.code c' =? 125)%nat then Some (JObject [], rest')
                else members (length l) [] (c' :: rest')
            | [] => None
            end
          else if (n =? 91)%nat then
            match skip_ws rest with
            | c' :: rest' =>
                if (JsString.code c' =? 93)%nat then Some (JArray [], rest')
                else elements (length l) [] (c' :: rest')
            | [] => None
            end
          else if (n =? 34)%nat then
            match parse_chars rest with
            | Some (s, r) => Some (JString s, r)
            | None => None
            end
          else if (n =? 116)%nat then
            option_map (fun r => (JBool true, r))
              (strip (list_ascii_of_string "true") l)
          else if (n =? 102)%nat then
            option_map (fun r => (JBool false, r))
              (strip (list_ascii_of_string "false") l)
          else if (n =? 110)%nat then
            option_map (fun r => (JNull, r))
              (strip (list_ascii_of_string "null") l)
          else
            match parse_number l with
            | Some (lit, r) => Some (JNumber lit, r)
            | None => None
            end
      end
  end.

Definition parse (text : string) : option value :=
  let l := skip_ws (list_ascii_of_string text) in
  match parse_value (S (length l)) l with
  | Some (v, rest) =>
      match skip_ws rest with
      | [] => Some v
      | _ => None
      end
  | None => None
  end.

(** *** Dates *)

Definition digits (width : nat) (n : Z) : string :=
  let d := JsString.of_nat (Z.to_nat n) in
  String.concat "" (replicate (width - String.length d) "0") +:+ d.

(** The civil date of a day number counted from 1970-01-01. *)
Definition civil_from_days (z0 : Z) : Z * Z * Z :=
  let z := (z0 + 719468)%Z in
  let era := (z / 146097)%Z in
  let doe := (z - era * 146097)%Z in
  let yoe := ((doe - doe / 1460 + doe / 36524 - doe / 146096) / 365)%Z in
  let doy := (doe - (365 * yoe + yoe / 4 - yoe / 100))%Z in
  let mp := ((5 * doy + 2) / 153)%Z in
  let d := (doy - (153 * mp + 2) / 5 + 1)%Z in
  let m := (if (mp <? 10)%Z then mp + 3 else mp - 9)%Z in
  let y := (yoe + era * 400 + (if (m <=? 2)%Z then 1 else 0))%Z in
  (y, m, d).

Definition days_from_civil (y0 m d : Z) : Z :=
  let y := (if (m <=? 2)%Z then y0 - 1 else y0)%Z in
  let era := (y / 400)%Z in
  let yoe := (y - era * 400)%Z in
  let doy := ((153 * (if (m >? 2)%Z then m - 3 else m + 9) + 2) / 5 + d - 1)%Z in
  let doe := (yoe * 365 + yoe / 4 - yoe / 100 + doy)%Z in
  (era * 146097 + doe - 719468)%Z.

Definition toISOString (ms : Z) : string :=
  let day := (ms / 86400000)%Z in
  let t := (ms mod 86400000)%Z in
  let '(y, m, d) := civil_from_days day in
  digits 4 y +:+ "-" +:+ digits 2 m +:+ "-" +:+ digits 2 d +:+ "T"
  +:+ digits 2 (t / 3600000) +:+ ":" +:+ digits 2 (t / 60000 mod 60)
  +:+ ":" +:+ digits 2 (t / 1000 mod 60) +:+ "." +:+ digits 3 (t mod 1000)
  +:+ "Z".

Fixpoint number (acc : Z) (l : list ascii) : option Z :=
  match l with
  | [] => Some acc
  | c :: rest =>
      if JsString.between 48 57 c
      then number (10 * acc + Z.of_nat (JsString.code c - 48)) rest
      else None
  end.

(** The time value of a text in the format above; a field out of its
    range makes the date invalid. *)
Definition parse_iso (text : string) : option Z :=
  match list_ascii_of_string text with
  | [y1; y2; y3; y4; s1; m1; m2; s2; d1; d2; sT; h1; h2; s3; i1; i2; s4;
     c1; c2; s5; f1; f2; f3; sZ] =>
      if String.eqb (string_of_list_ascii [s1; s2; sT; s3; s4; s5; sZ]) "--T::.Z"
      then
        y ← number 0 [y1; y2; y3; y4];
        m ← number 0 [m1; m2];
        d ← number 0 [d1; d2];
        h ← number 0 [h1; h2];
        i ← number 0 [i1; i2];
        c ← number 0 [c1; c2];
        f ← number 0 [f1; f2; f3];
        if ((1 <=? m) && (m <=? 12) && (1 <=? d) && (h <=? 23)
            && (i <=? 59) && (c <=? 59))%Z
           && bool_decide (civil_from_days (days_from_civil y m d) = (y, m, d))
        then Some (days_from_civil y m d * 86400000 + h * 3600000
                   + i * 60000 + c * 1000 + f)%Z
        else None
      else None
  | _ => None
  end.

(** [new Date(x)]: the text of a string is parsed, null counts as 0 and
    a boolean as 0 or 1, undefined gives the invalid date.  Numbers,
    arrays and objects are not covered and are taken as invalid. *)
Definition date_new (x : option value) : Date :=
  match x with
  | Some (JString text) =>
      match parse_iso text with
      | Some ms => Time ms
      | None => InvalidDate
      end
  | Some JNull => Time 0
  | Some (JBool b) => Time (if b then 1 else 0)
  | _ => InvalidDate
  end.

(** The runtime of the examples: the clock reads
    2024-05-06T07:08:09.010Z. *)
Definition runtime (shell : option string) : Runtime.t :=
  {| Runtime.JSON_parse := parse;
     Runtime.JSON_stringify := stringify;
     Runtime.Date_new := date_new;
     Runtime.Date_toISOString := toISOString;
     Runtime.Date_now := 1714979289010;
     Runtime.env_SHELL := shell |}.

End Reference.

(** ** core/shell.ts *)

Module Shell.
Import JsString Path Fs Json Runtime Types Paths.

Inductive shell_type := zsh | bash | fish | unknown.

Module ShellConfig.
Record t := mk { type : shell_type; rcFile : path; aliasFormat : string }.
End ShellConfig.

(** What [setupShellIntegration] returns. *)
Module SetupResult.
Record t := mk { success : bool; rcFile : path }.
End SetupResult.

Definition ALIASES_FILE : path := join HOME ".cc-profiles-aliases.sh".

Definition INTEGRATION_MARKER : string := "# cc-profiles shell integration".

Definition is_fish (ty : shell_type) : bool :=
  match ty with fish => true | _ => false end.

(** The two templates of the launcher file.  A template literal is
    written as the list of its lines. *)
Definition text (ls : list string) : string := join_with nl ls.

Definition fish_header (generated : string) : string :=
  text [ "# Auto-generated by cc-profiles - DO NOT EDIT MANUALLY";
         "# This file is regenerated when profiles are created/removed";
         "# Generated: " +:+ generated;
         "";
         "" ].

Definition fish_function (name : string) : string :=
  text [ "function " +:+ name;
         "    set -x CLAUDE_CONFIG_DIR " +:+ dquote +:+ "$HOME/.claude-"
           +:+ name +:+ dquote;
         "    command claude $argv";
         "end" ].

Definition echo_line (name : string) : string :=
  "    echo " +:+ dquote +:+ "  " +:+ name +:+ dquote.

Definition fish_listFunction (profileNames : list string) : string :=
  text [ "";
         "function cc-list";
         "    echo " +:+ dquote +:+ "Available Claude Code profiles:" +:+ dquote;
         join_with nl (map echo_line profileNames);
         "    echo " +:+ dquote +:+ dquote;
         "    echo " +:+ dquote
           +:+ "Run any profile name as a command to start Claude with that profile."
           +:+ dquote;
         "end" ].

Definition sh_header (generated : string) : string :=
  text [ "#!/bin/bash";
         "# Auto-generated by cc-profiles - DO NOT EDIT MANUALLY";
         "# This file is regenerated when profiles are created/removed";
         "# Generated: " +:+ generated;
         "";
         "" ].

Definition sh_function (name : string) : string :=
  text [ name +:+ "() {";
         "    CLAUDE_CONFIG_DIR=" +:+ dquote +:+ "$HOME/.claude-" +:+ name
           +:+ dquote +:+ " command claude " +:+ dquote +:+ "$@" +:+ dquote;
         "}" ].

Definition sh_listFunction (profileNames : list string) : string :=
  text [ "";
         "# List all available profiles";
         "cc-list() {";
         "    echo " +:+ dquote +:+ "Available Claude Code profiles:" +:+ dquote;
         join_with nl (map echo_line profileNames);
         "    echo " +:+ dquote +:+ dquote;
         "    echo " +:+ dquote
           +:+ "Run any profile name as a command to start Claude with that profile."
           +:+ dquote;
         "}" ].

(** [Object.keys(x)] for a truthy value. *)
Definition keys (x : value) : list string :=
  match x with
  | JObject props => map fst props
  | JArray items => imap (fun i _ => of_nat i) items
  | JString str => imap (fun i _ => of_nat i) (list_ascii_of_string str)
  | _ => []
  end.

Section WithRuntime.
Context `{Runtime.t}.

Definition detectShell : M ShellConfig.t :=
  let shell := default "" env_SHELL in
  if contains "zsh" shell then
    ret (ShellConfig.mk zsh (join HOME ".zshrc") "function")
  else if contains "bash" shell then
    let bashProfile := join HOME ".bash_profile" in
    let bashrc := join HOME ".bashrc" in
    there <- existsSync bashProfile;;
    ret (ShellConfig.mk bash (if (there : bool) then bashProfile else bashrc)
           "function")
  else if contains "fish" shell then
    ret (ShellConfig.mk fish (join HOME ".config/fish/config.fish") "function")
  else
    ret (ShellConfig.mk unknown (join HOME ".bashrc") "function").

Definition getAliasesFilePath : M path :=
  shell <- detectShell;;
  if is_fish (ShellConfig.type shell)
  then ret (join HOME ".config/fish/functions/cc-profiles.fish")
  else ret (join HOME ".cc-profiles-aliases.sh").

Definition isShellIntegrated : M bool :=
  shell <- detectShell;;
  if is_fish (ShellConfig.type shell) then ret true
  else
    there <- existsSync (ShellConfig.rcFile shell);;
    if negb there then ret false
    else
      content <- readFile (ShellConfig.rcFile shell);;
      ret (contains INTEGRATION_MARKER content).

Definition setupShellIntegration : M SetupResult.t :=
  shell <- detectShell;;
  if is_fish (ShellConfig.type shell)
  then ret (SetupResult.mk true (ShellConfig.rcFile shell))
  else
    integrated <- isShellIntegrated;;
    if (integrated : bool)
    then ret (SetupResult.mk true (ShellConfig.rcFile shell))
    else
      there <- existsSync (ShellConfig.rcFile shell);;
      content <- (if (there : bool)
                  then readFile (ShellConfig.rcFile shell)
                  else ret "");;
      let integrationLine :=
        INTEGRATION_MARKER +:+ nl
        +:+ "[ -f ~/.cc-profiles-aliases.sh ] && source ~/.cc-profiles-aliases.sh" in
      let newContent :=
        trimEnd content +:+ nl +:+ nl +:+ integrationLine +:+ nl in
      writeFile (ShellConfig.rcFile shell) newContent;;
      ret (SetupResult.mk true (ShellConfig.rcFile shell)).

Definition generateProfileFunction (profileName : string) : M string :=
  shell <- detectShell;;
  if is_fish (ShellConfig.type shell)
  then ret (fish_function profileName)
  else ret (sh_function profileName).

(** The content [regenerateAliasesFile] builds for a list that is not
    empty. *)
Definition aliases_content (ty : shell_type) (profileNames : list string)
  : string :=
  if is_fish ty then
    let header := fish_header (Date_toISOString Date_now) in
    let functions := join_with (nl +:+ nl) (map fish_function profileNames) in
    let listFunction := fish_listFunction profileNames in
    header +:+ functions +:+ nl +:+ listFunction +:+ nl
  else
    let header := sh_header (Date_toISOString Date_now) in
    let functions := join_with (nl +:+ nl) (map sh_function profileNames) in
    let listFunction := sh_listFunction profileNames in
    header +:+ functions +:+ nl +:+ listFunction +:+ nl.

Definition regenerateAliasesFile (profileNames : list string) : M unit :=
  shell <- detectShell;;
  aliasesFile <- getAliasesFilePath;;
  if (length profileNames =? 0)%nat then
    there <- existsSync aliasesFile;;
    if (there : bool) then rm aliasesFile else ret tt
  else
    (if is_fish (ShellConfig.type shell)
     then mkdir_p (join HOME ".config/fish/functions")
     else ret tt);;
    writeFile aliasesFile (aliases_content (ShellConfig.type shell) profileNames).

Definition getProfileNamesFromConfig : M (list string) :=
  try_catch
    (content <- readFile (join HOME ".cc-profiles.json");;
     match JSON_parse content with
     | Some JNull | None => throw TypeError
     | Some config =>
         match get_prop config "profiles" with
         | Some profiles =>
             ret (if truthy profiles then keys profiles else [])
         | None => ret []
         end
     end)
    (ret []).

Definition syncAliases : M unit :=
  profileNames <- getProfileNamesFromConfig;;
  regenerateAliasesFile profileNames.

End WithRuntime.

End Shell.

(** ** Vocabulary of the statements about links *)

Module LinkSpec.
Import Path Fs Types Paths.

(** A segment that [join] appends as it stands: it has no slash and is
    none of "", "." and "..". *)
Definition no_slash (c : ascii) : bool := negb (JsString.code c =? 47)%nat.

Definition simple (x : string) : bool :=
  JsString.all_chars no_slash x
  && negb (String.eqb x "") && negb (String.eqb x ".")
  && negb (String.eqb x "..").

(** The status [getSymlinkStatus] computes for one item. *)
Definition status_of (s : gmap path node) (profilePath : path)
    (item : SharedItem.t) : LinkStatus.t :=
  let target := join profilePath (SharedItem.name item) in
  let isLink := match lstat s target with
                | Some (Link _) => true
                | _ => false
                end in
  LinkStatus.mk (SharedItem.name item)
    (exists_ s target)
    (exists_ s target && isLink)
    (exists_ s target && isLink).

(** The source and the target of an item for the profile directory
    named [d] in the home directory. *)
Definition source_of (item : SharedItem.t) : path :=
  [".claude"; SharedItem.name item].
Definition target_of (d : string) (item : SharedItem.t) : path :=
  [d; SharedItem.name item].

Definition descriptor (d : string) (item : SharedItem.t) : SymlinkTarget.t :=
  SymlinkTarget.mk (source_of item) (target_of d item)
    (SharedItem.type item) (SharedItem.required item).

(** Absent, a file or a directory: not a link. *)
Definition plain (o : option node) : Prop :=
  match o with Some (Link _) => False | _ => True end.

(** The states the statements about [createSymlinks] are made for: the
    shared root and the profile directory [d] are directories of the
    home directory, the shared items are files or directories, and a
    link that already stands at a target leads to its source. *)
Record managed (d : string) (s : gmap path node) : Prop := {
  managed_shared : s !! [".claude"] = Some Dir;
  managed_profile : s !! [d] = Some Dir;
  managed_sources : forall item,
      item ∈ CLAUDE_PATHS.sharedItems -> plain (s !! source_of item);
  managed_targets : forall item t,
      item ∈ CLAUDE_PATHS.sharedItems ->
      s !! target_of d item = Some (Link t) -> t = source_of item }.

(** The item needs a link: its source is there and its target is not a
    link yet. *)
Definition needs_link (d : string) (s : gmap path node)
    (item : SharedItem.t) : bool :=
  match s !! source_of item, s !! target_of d item with
  | Some _, Some (Link _) => false
  | Some _, _ => true
  | None, _ => false
  end.

(** The item is settled: it has no source and is optional, or its
    target is the link to its source. *)
Definition settled (d : string) (s : gmap path node)
    (item : SharedItem.t) : Prop :=
  (s !! source_of item = None /\ SharedItem.required item = false)
  \/ (is_Some (s !! source_of item)
      /\ s !! target_of d item = Some (Link (source_of item))).

(** The state once the link of [item] stands. *)
Definition linked (d : string) (s : gmap path node)
    (item : SharedItem.t) : gmap path node :=
  match s !! target_of d item with
  | Some _ =>
      <[target_of d item := Link (source_of item)]>
        (prune (target_of d item) s)
  | None => <[target_of d item := Link (source_of item)]> s
  end.

End LinkSpec.

(** ** Vocabulary of the statements about the registry *)

Module RegistrySpec.
Import Path Fs Json Runtime Types Paths FsUtils ProfileOps.

Section WithRuntime.
Context `{Runtime.t}.

(** Reading the metadata file fails: the file cannot be read, or its
    text is not JSON. *)
Definition read_fails (s : gmap path node) : Prop :=
  match fst (readFile CLAUDE_PATHS.profilesConfig s) with
  | Ok content => JSON_parse content = None
  | Throw _ => True
  end.

(** The view [listProfiles] builds of one entry of the document. *)
Definition view (s : gmap path node) (entry : string * value) : Profile.t :=
  Profile.mk (fst entry)
    (getProfilePath (fst entry)) (getProfilePath (fst entry))
    (getProfileCredentialsPath (fst entry))
    (exists_ s (getProfileCredentialsPath (fst entry)))
    (Date_new (get_prop (snd entry) "createdAt")).

(** The entries whose private directory is on disk. *)
Definition on_disk (s : gmap path node) (es : list (string * value))
  : list (string * value) :=
  List.filter (fun entry => exists_ s (getProfilePath (fst entry))) es.

(** The entry has a creation time: its metadata is not null and its
    [createdAt] makes a valid date. *)
Definition dated (entry : string * value) : Prop :=
  snd entry <> JNull
  /\ exists ms, Date_new (get_prop (snd entry) "createdAt") = Time ms.

End WithRuntime.

(** The profiles have valid creation dates and each is at least as new
    as every profile after it. *)
Definition newer_or_same (a b : Profile.t) : Prop :=
  exists ta tb,
    Profile.createdAt a = Time ta /\ Profile.createdAt b = Time tb
    /\ (tb <= ta)%Z.

Definition newest_first_order (profiles : list Profile.t) : Prop :=
  StronglySorted newer_or_same profiles.

Definition has_time (p : Profile.t) : Prop :=
  exists t, Profile.createdAt p = Time t.

End RegistrySpec.

(** ** Vocabulary of the statements about the launcher file *)

Module LauncherSpec.
Import JsString Path Fs Runtime Paths Shell.

Section WithRuntime.
Context `{Runtime.t}.

(** The shell family, which the environment alone decides. *)
Definition shell_family : shell_type :=
  let shell := default "" env_SHELL in
  if contains "zsh" shell then zsh
  else if contains "bash" shell then bash
  else if contains "fish" shell then fish
  else unknown.

(** The startup file of the shell. *)
Definition rc_path (s : gmap path node) : path :=
  match shell_family with
  | zsh => [".zshrc"]
  | bash => if exists_ s [".bash_profile"] then [".bash_profile"] else [".bashrc"]
  | fish => [".config"; "fish"; "config.fish"]
  | unknown => [".bashrc"]
  end.

(** The path of the launcher file. *)
Definition aliases_path : path :=
  if is_fish shell_family
  then [".config"; "fish"; "functions"; "cc-profiles.fish"]
  else [".cc-profiles-aliases.sh"].

(** What the startup file holds, the empty text when it is not
    there. *)
Definition previous_content (s : gmap path node) : string :=
  if exists_ s (rc_path s) then
    match fst (readFile (rc_path s) s) with
    | Ok content => content
    | Throw _ => ""
    end
  else "".

End WithRuntime.

(** The launcher file as the specification describes it: a header, one
    invocation block for each identifier, one listing block. *)
Record artifact := {
  header : string;
  invocations : list string;
  listing : string }.

(** The blocks are laid out with a blank line between two of them. *)
Definition layout (a : artifact) : string :=
  header a +:+ join_with (nl +:+ nl) (invocations a) +:+ nl
  +:+ listing a +:+ nl.

Section Rendering.
Context `{Runtime.t}.

(** The invocation block of one identifier and the listing block of
    all, in the syntax of the shell family. *)
Definition invocation_block (name : string) : string :=
  if is_fish shell_family then fish_function name else sh_function name.

Definition listing_block (names : list string) : string :=
  if is_fish shell_family then fish_listFunction names
  else sh_listFunction names.

Definition rendered (names : list string) : artifact :=
  {| header := if is_fish shell_family
               then fish_header (Date_toISOString Date_now)
               else sh_header (Date_toISOString Date_now);
     invocations := map invocation_block names;
     listing := listing_block names |}.

(** The state in which the launcher file is written: for the family
    that loads functions from a directory, that directory is made
    first. *)
Definition prepared (s s0 : gmap path node) : Prop :=
  if is_fish shell_family
  then mkdir_p [".config"; "fish"; "functions"] s = (Ok tt, s0)
  else s0 = s.

End Rendering.

(** The block appended to the startup file. *)
Definition integration_block : string :=
  INTEGRATION_MARKER +:+ nl
  +:+ "[ -f ~/.cc-profiles-aliases.sh ] && source ~/.cc-profiles-aliases.sh"
  +:+ nl.

(** The entry is absent or a regular file. *)
Definition file_or_absent (o : option node) : Prop :=
  match o with
  | None | Some (File _) => True
  | _ => False
  end.

End LauncherSpec.

(** ** States used as examples *)

Module Examples.
Import Path Fs.

(** The reference runtime under zsh. *)
Definition zsh_runtime : Runtime.t := Reference.runtime (Some "/bin/zsh").

Definition broken_link_state : gmap path node :=
  list_to_map
    [ ([".claude"], Dir);
      ([".claude-work"], Dir);
      ([".claude-work"; "settings.json"], Link [".claude"; "settings.json"]) ].

(** A configured shared root and the empty directory of profile
    "work". *)
Definition fresh_profile_state : gmap path node :=
  list_to_map
    [ ([".claude"], Dir);
      ([".claude"; "settings.json"], File "{}");
      ([".claude"; "agents"], Dir);
      ([".claude-work"], Dir) ].

(** The same once the links of "work" stand. *)
Definition linked_profile_state : gmap path node :=
  list_to_map
    [ ([".claude"], Dir);
      ([".claude"; "settings.json"], File "{}");
      ([".claude"; "agents"], Dir);
      ([".claude-work"], Dir);
      ([".claude-work"; "settings.json"], Link [".claude"; "settings.json"]);
      ([".claude-work"; "agents"], Link [".claude"; "agents"]) ].

(** A shared root without settings.json. *)
Definition unconfigured_state : gmap path node :=
  list_to_map [ ([".claude"], Dir); ([".claude"; "CLAUDE.md"], File "notes") ].

(** The same with the directory of profile "work", as a first attempt
    to create it leaves it. *)
Definition orphan_state : gmap path node :=
  list_to_map
    [ ([".claude"], Dir); ([".claude"; "CLAUDE.md"], File "notes");
      ([".claude-work"], Dir) ].

(** A configured shared root, no directory for "work", and a
    credentials file of "work" left behind. *)
Definition leftover_credentials_state : gmap path node :=
  list_to_map
    [ ([".claude"], Dir);
      ([".claude"; "settings.json"], File "{}");
      ([".claude-work.json"], File "{}") ].

(** The document of a registry with the profiles "work" and "gone". *)
Definition two_profiles_document : Json.value :=
  Json.JObject
    [ ("profiles",
       Json.JObject
         [ ("gone",
            Json.JObject [ ("name", Json.JString "gone");
                           ("createdAt", Json.JString "2024-01-02T03:04:05.006Z");
                           ("shellAlias", Json.JString "gone") ]);
           ("work",
            Json.JObject [ ("name", Json.JString "work");
                           ("createdAt", Json.JString "2024-03-04T05:06:07.008Z");
                           ("shellAlias", Json.JString "work") ]) ]);
      ("version", Json.JString "1.0.0") ].

(** Both profiles are registered; the directory of "gone" has been
    deleted by hand. *)
Definition stale_entry_state : gmap path node :=
  list_to_map
    [ ([".claude"], Dir);
      ([".claude"; "settings.json"], File "{}");
      ([".claude-work"], Dir);
      ([".claude-work"; "settings.json"], Link [".claude"; "settings.json"]);
      ([".cc-profiles.json"], File (Reference.stringify two_profiles_document)) ].

(** A configured installation with its credentials and one profile. *)
Definition installed_state : gmap path node :=
  list_to_map
    [ ([".claude"], Dir);
      ([".claude"; "settings.json"], File "{}");
      ([".claude"; "agents"], Dir);
      ([".claude"; "agents"; "planner.md"], File "review");
      ([".claude.json"], File "{}");
      ([".claude-work"], Dir);
      ([".claude-work"; "settings.json"], Link [".claude"; "settings.json"]);
      ([".claude-work"; "agents"], Link [".claude"; "agents"]) ].

(** A shared root whose settings.json is itself a link into a dotfiles
    directory, and a profile directory that is a link to the shared
    root. *)
Definition aliased_state : gmap path node :=
  list_to_map
    [ (["dotfiles"], Dir);
      (["dotfiles"; "settings.json"], File "{}");
      ([".claude"], Dir);
      ([".claude"; "settings.json"], Link ["dotfiles"; "settings.json"]);
      ([".claude-work"], Link [".claude"]) ].

(** [installed_state] after the removal of "/../.claude": what is left
    is the directory of "work" with links that lead nowhere, and a
    metadata file. *)
Definition after_traversal_state : gmap path node :=
  list_to_map
    [ ([".claude-work"], Dir);
      ([".claude-work"; "settings.json"], Link [".claude"; "settings.json"]);
      ([".claude-work"; "agents"], Link [".claude"; "agents"]);
      ([".cc-profiles.json"],
       File (Reference.stringify
               (Json.JObject [ ("profiles", Json.JObject []);
                               ("version", Json.JString "1.0.0") ]))) ].

(** [aliased_state] after the links of "work" were removed. *)
Definition after_aliased_state : gmap path node :=
  list_to_map
    [ (["dotfiles"], Dir);
      (["dotfiles"; "settings.json"], File "{}");
      ([".claude"], Dir);
      ([".claude-work"], Link [".claude"]) ].

(** A launcher file written for "work" and "personal", here under a
    text that stands for it. *)
Definition stale_launcher_state : gmap path node :=
  list_to_map
    [ ([".cc-profiles-aliases.sh"], File "work() { } personal() { } cc-list() { }") ].

(** A startup file that ends with blank lines. *)
Definition zshrc_state : gmap path node :=
  list_to_map
    [ ([".zshrc"], File ("export EDITOR=vi" +:+ JsString.nl +:+ JsString.nl
                           +:+ JsString.nl)) ].

End Examples.

(** ** Sentences of the specification, as worded *)

Module AsWorded.
Import Path Fs Types Paths Symlinks.

(** "Calling createLinks twice in succession produces the same link set
    and does not error the second time; [it] returns descriptors of
    every link actually (re)examined/created." *)
Definition rerun_describes_every_link
    (profileName : string) (s : gmap path node) : Prop :=
  forall r1 s1,
    createSymlinks profileName s = (Ok r1, s1) ->
    exists r2,
      createSymlinks profileName s1 = (Ok r2, s1)
      /\ forall item t,
          item ∈ CLAUDE_PATHS.sharedItems ->
          lstat s1 (join (getProfilePath profileName) (SharedItem.name item))
            = Some (Link t) ->
          exists desc,
            desc ∈ r2
            /\ SymlinkTarget.target desc
               = join (getProfilePath profileName) (SharedItem.name item).

Section WithRuntime.
Context `{Runtime.t}.

(** "If the shared root lacks settings.json, create(id) must fail
    with MissingRequiredSharedResource." *)
Definition create_fails_for_missing_settings
    (name : string) (s : gmap path node) : Prop :=
  exists_ s CLAUDE_PATHS.mainConfig = true ->
  exists_ s (join CLAUDE_PATHS.mainConfig "settings.json") = false ->
  exists source s',
    ProfileOps.createProfile name s
    = (Throw (MissingRequiredSharedResource source), s').

(** "[The] authenticated flag ... will be false for a newly created
    profile." *)
Definition created_profile_is_unauthenticated
    (name : string) (s : gmap path node) : Prop :=
  Validation.isValidProfileName name = true ->
  exists_ s (getProfilePath name) = false ->
  forall p s',
    ProfileOps.createProfile name s = (Ok p, s') ->
    Profile.isAuthenticated p = false.

End WithRuntime.

Section Launcher.
Context `{Runtime.t}.

(** "[setupIntegration] never rewrites existing content, only appends
    a marked block at end-of-file." *)
Definition setup_keeps_previous_content (s : gmap path node) : Prop :=
  forall previous r s',
    readFile (LauncherSpec.rc_path s) s = (Ok previous, s) ->
    Shell.setupShellIntegration s = (Ok r, s') ->
    s' = s
    \/ exists block,
        readFile (LauncherSpec.rc_path s) s' = (Ok (previous +:+ block), s').

End Launcher.

End AsWorded.

(** ** More of the JavaScript strings *)

Module JsText.
Import JsString.

(** [text.split(sep)] for a separator of one code unit: the pieces
    between the separators, the empty ones included. *)
Fixpoint split (sep : nat) (s : string) : list string :=
  match s with
  | EmptyString => [EmptyString]
  | String c rest =>
      if (code c =? sep)%nat then EmptyString :: split sep rest
      else match split sep rest with
           | [] => [String c EmptyString]
           | piece :: more => String c piece :: more
           end
  end.

(** [text.split('\n')] *)
Definition lines (s : string) : list string := split 10 s.

(** [String.prototype.trimStart] *)
Fixpoint trimStart (s : string) : string :=
  match s with
  | EmptyString => EmptyString
  | String c rest => if is_space c then trimStart rest else s
  end.

(** [String.prototype.trim] *)
Definition trim (s : string) : string := trimEnd (trimStart s).

(** The text has no line feed. *)
Definition one_line (n : string) : bool :=
  all_chars (fun c => negb (code c =? 10)%nat) n.

End JsText.

(** ** utils/fs.ts: the path helpers *)

Module FsHelpers.
Import Path Fs.

(** [stat.isDirectory()] *)
Definition Stats_isDirectory (n : node) : bool :=
  match n with Dir => true | _ => false end.

Definition pathExists (p : path) : M bool := existsSync p.

Definition isSymlink (p : path) : M bool :=
  try_catch (st <- lstatSync p;; ret (isSymbolicLink st)) (ret false).

Definition isDirectory (p : path) : M bool :=
  try_catch (st <- lstatSync p;; ret (Stats_isDirectory st)) (ret false).

Definition ensureDir (p : path) : M unit := mkdir_p p.

Definition safeRemove (p : path) : M unit :=
  there <- existsSync p;;
  if (there : bool) then rm_rf p else ret tt.

End FsHelpers.

(** ** More vocabulary of the statements about links *)

Module LinkTests.
Import Path Fs.

(** Whether the entry is a link. *)
Definition is_link (o : option node) : bool :=
  match o with Some (Link _) => true | _ => false end.

(** The entry, if any, is no link. *)
Definition not_link (o : option node) : Prop :=
  forall t, o <> Some (Link t).

End LinkTests.

(** ** core/claude.ts *)


(** ** core/shell.ts: taking the integration out *)

Module ShellRemoval.
Import JsString JsText Path Fs Runtime Paths Shell.

(** The lines [removeShellIntegration] keeps. *)
Definition kept (line : string) : bool :=
  negb (contains INTEGRATION_MARKER line)
  && negb (contains ".cc-profiles-aliases.sh" line).

Section WithRuntime.
Context `{Runtime.t}.

Definition removeShellIntegration : M unit :=
  shell <- detectShell;;
  there <- existsSync (ShellConfig.rcFile shell);;
  (if (there : bool) && negb (is_fish (ShellConfig.type shell)) then
     content <- readFile (ShellConfig.rcFile shell);;
     let filtered := List.filter kept (lines content) in
     writeFile (ShellConfig.rcFile shell) (join_with nl filtered)
   else ret tt);;
  aliasesFile <- getAliasesFilePath;;
  aliasesThere <- existsSync aliasesFile;;
  if (aliasesThere : bool) then rm aliasesFile else ret tt.

Definition getShellRcFile : M path :=
  shell <- detectShell;;
  ret (ShellConfig.rcFile shell).

End WithRuntime.

End ShellRemoval.

(** ** ui/prompts.ts: the check of [promptProfileName] *)

Module Prompts.
Import JsString Validation.

(** The [validate] function handed to the text prompt: the message to
    show, or undefined when the value is accepted. *)
Definition validate (existing : list string) (value : string)
  : option string :=
  match getProfileNameError value with
  | Some error =>
      if negb (String.eqb error "") then Some error
      else if includes existing value
           then Some ("Profile " +:+ dquote +:+ value +:+ dquote
                        +:+ " already exists")
           else None
  | None =>
      if includes existing value
      then Some ("Profile " +:+ dquote +:+ value +:+ dquote
                   +:+ " already exists")
      else None
  end.

End Prompts.

(** ** Vocabulary of the statements about the metadata document *)

Module RegistryDocs.
Import Json Runtime.

Section WithRuntime.
Context `{Runtime.t}.

(** The metadata stored for a name at the present reading of the
    clock. *)
Definition metadata_of (name : string) : value :=
  JObject [("name", JString name);
           ("createdAt", JString (Date_toISOString Date_now));
           ("shellAlias", JString name)].

(** The document that registers [name] in [config], when there is
    one to write. *)
Definition with_profile (config : value) (name : string) : option value :=
  match config, get_prop config "profiles" with
  | JObject props, Some (JObject profiles) =>
      Some (JObject (assoc_set "profiles"
                       (JObject (assoc_set name (metadata_of name) profiles))
                       props))
  | JObject props, Some (JArray _) => Some config
  | _, _ => None
  end.

(** The document [loadProfilesConfig] returns in a state. *)
Definition stored_config (s : gmap Path.path Fs.node) : value :=
  let config :=
    match fst (Fs.readFile Paths.CLAUDE_PATHS.profilesConfig s) with
    | Fs.Ok content => default JNull (JSON_parse content)
    | Fs.Throw _ => JNull
    end in
  if truthy config then config else ProfileOps.emptyConfig.

End WithRuntime.

(** The document without the entry of [name]. *)
Definition without_profile (config : value) (name : string) : option value :=
  match config, get_prop config "profiles" with
  | JObject props, Some (JObject profiles) =>
      Some (JObject (assoc_set "profiles"
                       (JObject (assoc_delete name profiles)) props))
  | _, None | _, Some JNull => None
  | _, Some _ => Some config
  end.

End RegistryDocs.

(** ** More states used as examples *)

Module Scenarios.
Import Path Fs.

(** The profile "work" with a link at settings.json that leads to a
    file that is gone. *)
Definition dangling_settings_state : gmap path node :=
  list_to_map
    [ ([".claude"], Dir);
      ([".claude"; "settings.json"], File "{}");
      ([".claude-work"], Dir);
      ([".claude-work"; "settings.json"], Link ["old"; "settings.json"]) ].

(** A configured shared root and nothing else. *)
Definition configured_state : gmap path node :=
  list_to_map
    [ ([".claude"], Dir);
      ([".claude"; "settings.json"], File "{}") ].

(** The document that registers "work" alone, created when the clock
    of the reference runtime is read. *)
Definition work_document : Json.value :=
  Json.JObject
    [ ("profiles",
       Json.JObject
         [ ("work",
            Json.JObject [ ("name", Json.JString "work");
                           ("createdAt", Json.JString "2024-05-06T07:08:09.010Z");
                           ("shellAlias", Json.JString "work") ]) ]);
      ("version", Json.JString "1.0.0") ].

(** [configured_state] once the profile "work" is created. *)
Definition registered_state : gmap path node :=
  list_to_map
    [ ([".claude"], Dir);
      ([".claude"; "settings.json"], File "{}");
      ([".claude-work"], Dir);
      ([".claude-work"; "settings.json"], Link [".claude"; "settings.json"]);
      ([".cc-profiles.json"], File (Reference.stringify work_document)) ].

(** [registered_state] once the profile "work" is removed. *)
Definition unregistered_state : gmap path node :=
  list_to_map
    [ ([".claude"], Dir);
      ([".claude"; "settings.json"], File "{}");
      ([".cc-profiles.json"],
       File (Reference.stringify
               (Json.JObject [ ("profiles", Json.JObject []);
                               ("version", Json.JString "1.0.0") ]))) ].

(** A startup file of zsh with the integration block, and a launcher
    file. *)
Definition integrated_zsh_state : gmap path node :=
  list_to_map
    [ ([".zshrc"],
       File ("export EDITOR=vi" +:+ JsString.nl +:+ JsString.nl
               +:+ LauncherSpec.integration_block));
      ([".cc-profiles-aliases.sh"], File "work() { }") ].

(** The same once the integration is taken out. *)
Definition cleaned_zsh_state : gmap path node :=
  list_to_map
    [ ([".zshrc"], File ("export EDITOR=vi" +:+ JsString.nl +:+ JsString.nl)) ].

End Scenarios.

(** ** The terminal, the user and child processes *)

Module Terminal.
Import Path Fs.

(** One option of a selection prompt. *)
Module SelectOption.
Record t := mk { value : string; label : string; hint : string }.
End SelectOption.

(** What a command shows, in the order it shows it. *)
Inductive event :=
| log_error (message : string)                    (* p.log.error *)
| log_warn (message : string)                     (* p.log.warn *)
| log_success (message : string)                  (* p.log.success *)
| log_step (message : string)                     (* p.log.step *)
| log_info (message : string)                     (* p.log.info *)
| console_log (message : string)                  (* console.log *)
| cancel (message : string)                       (* p.cancel *)
| note (message title : string)                   (* p.note *)
| spinner_start (message : string)                (* s.start *)
| spinner_stop (message : string)                 (* s.stop *)
| select (message : string) (options : list SelectOption.t)   (* p.select *)
| confirm (message : string) (initialValue : bool)            (* p.confirm *)
| text (message placeholder : string).                        (* p.text *)

(** What the commands take from outside the program: the answers of
    the user, the colours of picocolors, the text of a path and of an
    error, and the child processes.  An answer is [None] when the
    prompt is cancelled. *)
Class t := {
  select_answer : string -> list SelectOption.t -> option string;
  confirm_answer : string -> option bool;
  text_answer : string -> (string -> option string) -> option string;
  cyan : string -> string;
  green : string -> string;
  yellow : string -> string;
  red : string -> string;
  dim : string -> string;
  (** The string of a path below the home directory. *)
  path_string : path -> string;
  (** [error.message] *)
  error_message : error -> string;
  (** [execSync(command, options)]: the output, or an error. *)
  execSync : string -> M string }.

(** How a command ends: with a value, with [process.exit(code)], or
    with an error thrown and not yet caught. *)
Inductive outcome (A : Type) :=
| Value (a : A)
| Exit (code : nat)
| Raise (e : error).
Arguments Value {A} a.
Arguments Exit {A} code.
Arguments Raise {A} e.

(** A command runs from a file system and from what was shown so far. *)
Definition Cmd (A : Type) : Type :=
  gmap path node -> list event -> outcome A * gmap path node * list event.

Definition pure {A} (a : A) : Cmd A := fun s shown => (Value a, s, shown).

Definition andThen {A B} (m : Cmd A) (k : A -> Cmd B) : Cmd B :=
  fun s shown =>
    match m s shown with
    | (Value a, s', shown') => k a s' shown'
    | (Exit code, s', shown') => (Exit code, s', shown')
    | (Raise e, s', shown') => (Raise e, s', shown')
    end.

(** A call of the core: its error is thrown in the command. *)
Definition lift {A} (m : M A) : Cmd A :=
  fun s shown =>
    match m s with
    | (Ok a, s') => (Value a, s', shown)
    | (Throw e, s') => (Raise e, s', shown)
    end.

Definition show (e : event) : Cmd unit :=
  fun s shown => (Value tt, s, shown ++ [e]).

(** [process.exit(code)] *)
Definition process_exit {A} (code : nat) : Cmd A :=
  fun s shown => (Exit code, s, shown).

(** [try { m } catch (error) { h error }] *)
Definition catch {A} (m : Cmd A) (h : error -> Cmd A) : Cmd A :=
  fun s shown =>
    match m s shown with
    | (Raise e, s', shown') => h e s' shown'
    | res => res
    end.

Declare Scope cmd_scope.
Delimit Scope cmd_scope with cmd.
Bind Scope cmd_scope with Cmd.
Notation "x <- m ;; k" := (andThen m (fun x => k))
  (at level 100, m at next level, right associativity) : cmd_scope.
Notation "m ;; k" := (andThen m (fun _ => k))
  (at level 100, right associativity) : cmd_scope.

End Terminal.

(** ** ui/colors.ts, ui/messages.ts, ui/prompts.ts *)

Module Ui.
Import JsString Types Terminal Prompts.
Local Open Scope cmd_scope.

Section WithTerminal.
Context `{Terminal.t}.

Definition formatAuthStatus (isAuthenticated : bool) : string :=
  if isAuthenticated then green "authenticated" else yellow "needs /login".

Definition formatProfileName (name : string) : string := cyan name.

Definition formatPath (p : Path.path) : string := dim (path_string p).

Definition formatSymlinkStatus (isValid : bool) : string :=
  if isValid then green "symlinks ok" else red "symlinks broken".

Definition showError (message : string) : Cmd unit :=
  show (log_error (red message)).

Definition showSuccess (message : string) : Cmd unit :=
  show (log_success (green message)).

Definition showStep (message : string) : Cmd unit :=
  show (log_step message).

Definition showCancel (message : string) : Cmd unit :=
  show (cancel message).

Definition showNoProfiles : Cmd unit :=
  show (log_warn "No profiles found. Create one with: cc-profiles create").

Definition showClaudeNotConfigured : Cmd unit :=
  show (log_error ("Claude Code is not configured." +:+ nl +:+ nl +:+ "Run "
                     +:+ cyan "claude"
                     +:+ " first to set up your main configuration.")).

(** [promptProfileName(existing)]: null when the prompt is cancelled. *)
Definition promptProfileName (existing : list string) : Cmd (option string) :=
  show (text "Profile name (will be used as shell alias):" "work");;
  pure (text_answer "Profile name (will be used as shell alias):"
          (validate existing)).

(** [selectProfile(profiles)]: null when the prompt is cancelled. *)
Definition selectProfile (profiles : list Profile.t) : Cmd (option string) :=
  let options :=
    map (fun profile =>
           SelectOption.mk (Profile.name profile) (Profile.name profile)
             (formatAuthStatus (Profile.isAuthenticated profile))) profiles in
  show (select "Select a profile:" options);;
  pure (select_answer "Select a profile:" options).

Definition confirmRemove_message (profileName : string) : string :=
  "Are you sure you want to remove profile " +:+ dquote +:+ profileName
    +:+ dquote +:+ "?".

(** [confirmRemove(profileName)]: false when the prompt is cancelled. *)
Definition confirmRemove (profileName : string) : Cmd bool :=
  show (confirm (confirmRemove_message profileName) false);;
  pure (default false (confirm_answer (confirmRemove_message profileName))).

End WithTerminal.

End Ui.

(** ** core/claude.ts *)

Module Claude.
Import JsString JsText Path Fs Paths Terminal.

Module ClaudeStatus.
Record t := mk {
  isInstalled : bool;
  isConfigured : bool;
  version : option string;
  configPath : path }.
End ClaudeStatus.

Definition isClaudeConfigured : M bool := existsSync CLAUDE_PATHS.mainConfig.

Section WithTerminal.
Context `{Terminal.t}.

Definition checkClaudeInstallation : M ClaudeStatus.t :=
  found <-
    try_catch
      (output <- execSync "claude --version";; ret (true, Some (trim output)))
      (try_catch
         (output <- execSync "~/.local/bin/claude --version";;
          ret (true, Some (trim output)))
         (try_catch
            (output <- execSync "npx @anthropic-ai/claude-code --version";;
             ret (true, Some (trim output)))
            (ret (false, None))));;
  hasConfigDir <- existsSync CLAUDE_PATHS.mainConfig;;
  hasCredentials <- existsSync CLAUDE_PATHS.mainCredentials;;
  ret (ClaudeStatus.mk (fst found) (hasConfigDir && hasCredentials)
         (snd found) CLAUDE_PATHS.mainConfig).

End WithTerminal.

End Claude.

(** ** commands/create.ts and commands/remove.ts *)

Module Commands.
Import JsString Path Fs Runtime Types Paths Symlinks ProfileOps Shell.
Import Terminal Ui Claude.
Local Open Scope cmd_scope.

(** [!name] for a name that may be undefined or null. *)
Definition missing (name : option string) : bool :=
  match name with
  | None => true
  | Some x => String.eqb x ""
  end.

Section WithOutside.
Context `{Runtime.t} `{Terminal.t}.

(** [runRemove] from the confirmation on, the name being known. *)
Definition runRemove_confirm (name : string) : Cmd unit :=
  confirmed <- confirmRemove name;;
  if negb confirmed then showCancel "Profile removal cancelled."
  else
    show (spinner_start "Removing profile...");;
    catch
      (lift (removeProfile name);;
       show (spinner_stop "Profile removed!");;
       show (spinner_start "Updating shell aliases...");;
       lift syncAliases;;
       show (spinner_stop "Shell aliases updated!");;
       showSuccess ("Profile " +:+ dquote +:+ name +:+ dquote
                      +:+ " has been removed.");;
       shell <- lift detectShell;;
       show (note
               ("The shell alias has been removed from ~/.cc-profiles-aliases.sh"
                  +:+ nl +:+ "Open a new terminal or run 'source "
                  +:+ path_string (ShellConfig.rcFile shell)
                  +:+ "' to apply changes.")
               "Done"))
      (fun e =>
         show (spinner_stop "Failed to remove profile");;
         showError (error_message e);;
         process_exit 1).

Definition runRemove (providedName : option string) : Cmd unit :=
  profiles <- lift listProfiles;;
  if Nat.eqb (length profiles) 0 then showNoProfiles
  else if missing providedName then
    selected <- selectProfile profiles;;
    if missing selected then showCancel "Profile removal cancelled."
    else runRemove_confirm (default "" selected)
  else
    let name := default "" providedName in
    there <- lift (profileExists name);;
    if negb there then
      showError ("Profile " +:+ dquote +:+ name +:+ dquote
                   +:+ " does not exist.");;
      process_exit 1
    else runRemove_confirm name.

(** The loop of [runList] over the profiles. *)
Fixpoint runList_loop (profiles : list Profile.t) : Cmd unit :=
  match profiles with
  | [] => pure tt
  | profile :: rest =>
      symlinksOk <- lift (verifySymlinks (Profile.name profile));;
      show (console_log ("  " +:+ formatProfileName (Profile.name profile)));;
      show (console_log ("    Status: "
                           +:+ formatAuthStatus (Profile.isAuthenticated profile)));;
      show (console_log ("    Config: " +:+ formatSymlinkStatus symlinksOk));;
      show (console_log ("    Path:   " +:+ formatPath (Profile.path profile)));;
      show (console_log "");;
      runList_loop rest
  end.

Definition runList : Cmd unit :=
  profiles <- lift listProfiles;;
  if Nat.eqb (length profiles) 0 then showNoProfiles
  else
    show (console_log "");;
    show (log_info ("Found " +:+ cyan (of_nat (length profiles))
                      +:+ " profile(s):" +:+ nl));;
    runList_loop profiles.

(** The loop of [runCreate] over the shared items: a step is shown for
    each one whose source exists. *)
Fixpoint showSymlinked (items : list SharedItem.t) : Cmd unit :=
  match items with
  | [] => pure tt
  | item :: rest =>
      there <- lift (existsSync (join CLAUDE_PATHS.mainConfig
                                   (SharedItem.name item)));;
      (if (there : bool) then showStep ("Symlinked " +:+ SharedItem.name item)
       else pure tt);;
      showSymlinked rest
  end.

(** [runCreate] from the spinner on, the name being known. *)
Definition runCreate_create (name : string) : Cmd unit :=
  show (spinner_start "Creating profile...");;
  catch
    (lift (createProfile name);;
     show (spinner_stop "Profile created!");;
     showSymlinked CLAUDE_PATHS.sharedItems;;
     show (spinner_start "Updating shell aliases...");;
     lift syncAliases;;
     show (spinner_stop "Shell aliases updated!");;
     integrated <- lift isShellIntegrated;;
     (if negb integrated then
        show (confirm "Shell integration not found. Set it up now?" true);;
        match confirm_answer "Shell integration not found. Set it up now?" with
        | Some true =>
            result <- lift setupShellIntegration;;
            show (log_success ("Added shell integration to "
                                 +:+ path_string (SetupResult.rcFile result)))
        | _ => pure tt
        end
      else pure tt);;
     shell <- lift detectShell;;
     integratedNow <- lift isShellIntegrated;;
     show (note
             ("Profile " +:+ cyan name +:+ " is ready!" +:+ nl +:+ nl
                +:+ "To use it, "
                +:+ (if (integratedNow : bool)
                     then "open a new terminal or run" else "run")
                +:+ ":" +:+ nl
                +:+ "  "
                +:+ green ("source " +:+ path_string (ShellConfig.rcFile shell))
                +:+ nl +:+ nl
                +:+ "Then start Claude with:" +:+ nl
                +:+ "  " +:+ green name +:+ nl +:+ nl
                +:+ "First time? Run " +:+ cyan "/login"
                +:+ " inside Claude to authenticate.")
             "Next Steps"))
    (fun e =>
       show (spinner_stop "Failed to create profile");;
       showError (error_message e);;
       process_exit 1).

Definition runCreate (providedName : option string) : Cmd unit :=
  claude <- lift checkClaudeInstallation;;
  if negb (ClaudeStatus.isConfigured claude) then
    showClaudeNotConfigured;;
    process_exit 1
  else
    existingNames <- lift getProfileNames;;
    if missing providedName then
      prompted <- promptProfileName existingNames;;
      if missing prompted then showCancel "Profile creation cancelled."
      else runCreate_create (default "" prompted)
    else
      let name := default "" providedName in
      if includes existingNames name then
        showError ("Profile " +:+ dquote +:+ name +:+ dquote
                     +:+ " already exists.");;
        process_exit 1
      else runCreate_create name.

End WithOutside.

End Commands.

(** ** What the list command shows *)

Module ListSpec.
Import JsString Path Fs Types Paths Symlinks Terminal Ui LinkTests.

Section WithTerminal.
Context `{Terminal.t}.

(** The entry settings.json of the profile directory is a symbolic link
    that resolves. *)
Definition settings_linked (s : gmap path node) (name : string) : bool :=
  exists_ s (join (getProfilePath name) "settings.json")
  && is_link (lstat s (join (getProfilePath name) "settings.json")).

(** The five lines of one profile. *)
Definition profile_lines (s : gmap path node) (profile : Profile.t)
  : list event :=
  [ console_log ("  " +:+ cyan (Profile.name profile));
    console_log ("    Status: "
                   +:+ (if Profile.isAuthenticated profile
                        then green "authenticated"
                        else yellow "needs /login"));
    console_log ("    Config: "
                   +:+ (if settings_linked s (Profile.name profile)
                        then green "symlinks ok"
                        else red "symlinks broken"));
    console_log ("    Path:   " +:+ dim (path_string (Profile.path profile)));
    console_log "" ].

End WithTerminal.

End ListSpec.

(** ** A terminal for the examples *)

Module Quiet.
Import JsString Path Fs Terminal.

(** A path as it prints when the home directory is /home/user. *)
Definition path_text (p : path) : string :=
  "/home/user/" +:+ join_with "/" p.

(** The messages of the errors the sources throw; for the errors of the
    runtime, their name. *)
Definition message_text (e : error) : string :=
  match e with
  | InvalidName =>
      "Invalid profile name. Use only lowercase letters, numbers, and hyphens (must start with a letter)."
  | AlreadyExists name =>
      "Profile " +:+ dquote +:+ name +:+ dquote +:+ " already exists."
  | BaseNotConfigured =>
      "Claude Code is not configured. Please run " +:+ dquote +:+ "claude"
        +:+ dquote +:+ " first to set up your main configuration."
  | MissingRequiredSharedResource source =>
      "Required file not found: " +:+ path_text source
  | NotFound name =>
      "Profile " +:+ dquote +:+ name +:+ dquote +:+ " does not exist."
  | TypeError => "TypeError"
  | IOError ENOENT => "ENOENT"
  | IOError EEXIST => "EEXIST"
  | IOError ENOTDIR => "ENOTDIR"
  | IOError EISDIR => "EISDIR"
  | IOError ELOOP => "ELOOP"
  | IOError EPERM => "EPERM"
  end.

(** No colours, a user who cancels every prompt, and no claude command
    to run. *)
Definition terminal : Terminal.t :=
  {| select_answer _ _ := None;
     confirm_answer _ := None;
     text_answer _ _ := None;
     cyan x := x;
     green x := x;
     yellow x := x;
     red x := x;
     dim x := x;
     path_string := path_text;
     error_message := message_text;
     execSync _ := throw (IOError ENOENT) |}.

End Quiet.

(** * Properties *)

Module ValidationFacts.
Import JsString Validation.

Lemma is_blank_length name :
  is_blank name = (String.length name =? 0)%nat.
Proof. by destruct name. Qed.

Lemma pattern_starts_lower name :
  PROFILE_NAME_PATTERN name = true -> starts_lower name = true.
Proof.
  destruct name as [|c rest]; simpl; [done|].
  by intros [? _]%andb_prop.
Qed.

Lemma reserved_spec name :
  includes RESERVED_NAMES (toLowerCase name)
  = violates RuleReserved name.
Proof.
  cbn -[String.eqb toLowerCase].
  change (toLowerCase "claude") with "claude".
  change (toLowerCase "default") with "default".
  change (toLowerCase "main") with "main".
  change (toLowerCase "primary") with "primary".
  reflexivity.
Qed.

(** C5. For every string, [getProfileNameError] reports the first rule
    violated in the order empty, too long, pattern, reserved; it returns
    nothing exactly when [isValidProfileName] accepts the string; and
    "Claude" is reported as a pattern violation although its lowercasing
    is a reserved word. *)
Theorem explain_first_violated_rule :
  (forall name : string,
      match getProfileNameError name with
      | Some msg =>
          exists r, first_violated name = Some r /\ reports r name msg
      | None => first_violated name = None
      end)
  /\ (forall name : string,
         getProfileNameError name = None <-> isValidProfileName name = true)
  /\ (getProfileNameError "Claude"
        = Some "Name must start with a lowercase letter"
      /\ first_violated "Claude" = Some RulePattern
      /\ violates RuleReserved "Claude" = true).
Proof.
  split; [|split].
  - intros name. unfold getProfileNameError, first_violated.
    rewrite is_blank_length, reserved_spec.
    cbn [rule_order List.find].
    change (violates RuleEmpty name) with (String.length name =? 0)%nat.
    change (violates RuleTooLong name)
      with (32 <? String.length name)%nat.
    change (MAX_PROFILE_NAME_LENGTH) with 32%nat.
    change (violates RulePattern name)
      with (negb (PROFILE_NAME_PATTERN name)).
    destruct (String.length name =? 0)%nat; [by exists RuleEmpty|].
    destruct (32 <? String.length name)%nat; [by exists RuleTooLong|].
    destruct (starts_lower name) eqn:Hs; cbn [negb].
    + destruct (PROFILE_NAME_PATTERN name); cbn [negb].
      * destruct (violates RuleReserved name); [by exists RuleReserved|done].
      * exists RulePattern. split; [done|by right].
    + destruct (PROFILE_NAME_PATTERN name) eqn:Hp; cbn [negb].
      * apply pattern_starts_lower in Hp. congruence.
      * exists RulePattern. split; [done|by left].
  - intros name. unfold getProfileNameError, isValidProfileName.
    destruct (is_blank name); [done|].
    destruct (_ <? _)%nat; [done|].
    destruct (PROFILE_NAME_PATTERN name) eqn:Hp; cbn [negb].
    + rewrite (pattern_starts_lower _ Hp). cbn [negb].
      by destruct (includes _ _).
    + by destruct (starts_lower name).
  - by vm_compute.
Qed.

End ValidationFacts.

(** ** Path resolution *)

Module FsFacts.
Import Path Fs.

Lemma node_at_snoc s (cur : path) c : node_at s (cur ++ [c]) = s !! (cur ++ [c]).
Proof. by destruct cur. Qed.

Lemma walk_step fuel s (cur : path) c rest :
  walk fuel s cur (c :: rest)
  = match s !! (cur ++ [c]) with
    | None => None
    | Some Dir => walk fuel s (cur ++ [c]) rest
    | Some (File _) =>
        match rest with [] => Some (cur ++ [c]) | _ => None end
    | Some (Link t) =>
        match fuel with
        | O => None
        | S fuel' => walk fuel' s [] (t ++ rest)
        end
    end.
Proof. by destruct fuel. Qed.

Lemma walk_nil fuel s (cur : path) : walk fuel s cur [] = Some cur.
Proof. by destruct fuel. Qed.

(** A resolution ends on a node. *)
Lemma walk_node fuel s : forall (p cur r : path),
    is_Some (node_at s cur) ->
    walk fuel s cur p = Some r ->
    is_Some (node_at s r).
Proof.
  induction fuel as [fuel IHfuel] using lt_wf_ind.
  induction p as [|c p IHp]; intros cur r Hcur Hw.
  - rewrite walk_nil in Hw. by simplify_eq.
  - rewrite walk_step in Hw.
    destruct (s !! (cur ++ [c])) as [[content| |t]|] eqn:Hl; [| | |done].
    + destruct p; [|done]. simplify_eq. rewrite node_at_snoc, Hl. by eexists.
    + apply (IHp (cur ++ [c]) r); [|done]. rewrite node_at_snoc, Hl. by eexists.
    + destruct fuel as [|fuel']; [done|].
      apply (IHfuel fuel' (Nat.lt_succ_diag_r _) (t ++ p) [] r); [by eexists|done].
Qed.

(** A resolution that succeeds on [p ++ [c]] has resolved [p] to a
    directory that holds an entry [c]. *)
Lemma walk_snoc fuel s : forall (p cur : path) c r,
    node_at s cur = Some Dir ->
    walk fuel s cur (p ++ [c]) = Some r ->
    exists d, walk fuel s cur p = Some d
              /\ node_at s d = Some Dir
              /\ is_Some (s !! (d ++ [c])).
Proof.
  induction fuel as [fuel IHfuel] using lt_wf_ind.
  induction p as [|c0 p IHp]; intros cur c r Hcur Hw.
  - exists cur. split; [apply walk_nil|]. split; [done|].
    simpl in Hw. rewrite walk_step in Hw. by destruct (s !! (cur ++ [c])).
  - rewrite <- app_comm_cons, walk_step in Hw. rewrite walk_step.
    destruct (s !! (cur ++ [c0])) as [[content| |t]|] eqn:Hl; [| | |done].
    + by destruct p.
    + apply (IHp _ _ _ (eq_trans (node_at_snoc _ _ _) Hl) Hw).
    + destruct fuel as [|fuel']; [done|].
      rewrite app_assoc in Hw.
      apply (IHfuel fuel' (Nat.lt_succ_diag_r _) (t ++ p) [] c r eq_refl Hw).
Qed.

Lemma removelast_last (p : path) :
  p <> [] -> p = removelast p ++ [List.last p ""].
Proof. intros. by apply app_removelast_last. Qed.

(** What [existsSync] accepts, [lstatSync] can examine. *)
Lemma exists_lstat s p :
  exists_ s p = true -> is_Some (lstat s p).
Proof.
  unfold exists_, lstat, locate, realpath.
  destruct p as [|c p]; [by eexists|].
  destruct (walk _ _ _ (c :: p)) as [r|] eqn:Hw; [intros _|done].
  rewrite (removelast_last (c :: p)) in Hw by done.
  apply walk_snoc in Hw as (d & -> & Hd & Hc); [|done].
  rewrite Hd. simpl. by rewrite node_at_snoc.
Qed.

(** A new entry where there was none leaves every successful
    resolution as it was. *)
Lemma walk_insert_fresh (s : gmap path node) k n :
  s !! k = None ->
  forall fuel (p cur r : path),
    walk fuel s cur p = Some r ->
    walk fuel (<[k := n]> s) cur p = Some r.
Proof.
  intros Hk fuel. induction fuel as [fuel IHfuel] using lt_wf_ind.
  induction p as [|c p IHp]; intros cur r Hw.
  - by rewrite walk_nil in *.
  - rewrite walk_step in *.
    destruct (s !! (cur ++ [c])) as [nd|] eqn:Hl; [|done].
    assert (k <> cur ++ [c]) by congruence.
    rewrite lookup_insert_ne, Hl by done.
    destruct nd as [content| |t]; [done|by apply IHp|].
    destruct fuel as [|fuel']; [done|].
    by apply (IHfuel fuel' (Nat.lt_succ_diag_r _)).
Qed.

(** Below a directory that has no entry [c], the path to [c] does not
    resolve. *)
Lemma realpath_child_absent (s : gmap path node) (p r : path) c :
  realpath s p = Some r ->
  s !! (r ++ [c]) = None ->
  realpath s (p ++ [c]) = None.
Proof.
  unfold realpath. intros Hp Hc.
  destruct (walk MAXSYMLINKS s [] (p ++ [c])) as [r'|] eqn:Hw; [|done].
  apply walk_snoc in Hw as (d & Hd & _ & [nd Hnd]); [|done].
  congruence.
Qed.

(** A resolution that succeeds on a part of the tree succeeds on the
    whole tree, with the same result. *)
Lemma walk_subseteq (s1 s2 : gmap path node) :
  s1 ⊆ s2 ->
  forall fuel (p cur r : path),
    walk fuel s1 cur p = Some r -> walk fuel s2 cur p = Some r.
Proof.
  intros Hsub fuel. induction fuel as [fuel IHfuel] using lt_wf_ind.
  induction p as [|c p IHp]; intros cur r Hw.
  - by rewrite walk_nil in *.
  - rewrite walk_step in *.
    destruct (s1 !! (cur ++ [c])) as [nd|] eqn:Hl; [|done].
    rewrite (lookup_weaken _ _ _ _ Hl Hsub).
    destruct nd as [content| |t]; [done|by apply IHp|].
    destruct fuel as [|fuel']; [done|].
    by apply (IHfuel fuel' (Nat.lt_succ_diag_r _)).
Qed.

(** The content of a regular file plays no part in a resolution. *)
Lemma walk_file_content (s : gmap path node) k x y :
  s !! k = Some (File x) ->
  forall fuel (p cur : path),
    walk fuel (<[k := File y]> s) cur p = walk fuel s cur p.
Proof.
  intros Hk fuel. induction fuel as [fuel IHfuel] using lt_wf_ind.
  induction p as [|c p IHp]; intros cur.
  - by rewrite !walk_nil.
  - rewrite !walk_step.
    destruct (decide (k = cur ++ [c])) as [->|Hne].
    + by rewrite lookup_insert_eq, Hk.
    + rewrite lookup_insert_ne by done.
      destruct (s !! (cur ++ [c])) as [[content| |t]|]; [done|by apply IHp| |done].
      destruct fuel as [|fuel']; [done|].
      by apply (IHfuel fuel' (Nat.lt_succ_diag_r _)).
Qed.

(** A resolution that ends in a directory goes on to a regular file of
    that directory. *)
Lemma walk_snoc_file (s : gmap path node) c x :
  forall fuel (p cur d : path),
    walk fuel s cur p = Some d ->
    s !! (d ++ [c]) = Some (File x) ->
    node_at s d = Some Dir ->
    walk fuel s cur (p ++ [c]) = Some (d ++ [c]).
Proof.
  intros fuel. induction fuel as [fuel IHfuel] using lt_wf_ind.
  induction p as [|c0 p IHp]; intros cur d Hw Hfile Hdir.
  - rewrite walk_nil in Hw. simplify_eq. simpl. by rewrite walk_step, Hfile.
  - rewrite <- app_comm_cons, walk_step. rewrite walk_step in Hw.
    destruct (s !! (cur ++ [c0])) as [[content| |t]|] eqn:Hl; [| | |done].
    + destruct p; [|done]. simplify_eq.
      rewrite node_at_snoc in Hdir. congruence.
    + by apply IHp.
    + destruct fuel as [|fuel']; [done|].
      rewrite app_assoc.
      by apply (IHfuel fuel' (Nat.lt_succ_diag_r _)).
Qed.

(** Once the entry a path names is deleted, the path does not
    resolve. *)
Lemma exists_after_delete (s : gmap path node) (p k : path) :
  p <> [] ->
  locate s p = Some k ->
  exists_ (delete k s) p = false.
Proof.
  intros Hp Hloc. unfold exists_, realpath.
  destruct (walk MAXSYMLINKS (delete k s) [] p) as [r|] eqn:Hw; [|done].
  rewrite (removelast_last p Hp) in Hw.
  apply walk_snoc in Hw as (d & Hd & _ & [nd Hnd]); [|done].
  apply (walk_subseteq _ s) in Hd; [|apply delete_subseteq].
  unfold locate, realpath in Hloc. destruct p as [|c p]; [done|].
  rewrite Hd in Hloc.
  destruct (node_at s d) as [[content| |t]|]; simplify_eq.
  by rewrite lookup_delete_eq in Hnd.
Qed.

(** A file written where the path names a regular file, or nothing, is
    the file the path then leads to. *)
Lemma realpath_after_write (s : gmap path node) (p k : path) content :
  p <> [] ->
  locate s p = Some k ->
  match s !! k with None | Some (File _) => True | _ => False end ->
  realpath (<[k := File content]> s) p = Some k.
Proof.
  intros Hp Hloc Hk. pose proof (removelast_last p Hp) as Hsplit.
  unfold locate in Hloc. destruct p as [|c0 p0]; [done|].
  set (q := removelast (c0 :: p0)) in *.
  set (c := List.last (c0 :: p0) "") in *.
  destruct (realpath s q) as [d|] eqn:Hd; [|done].
  destruct (node_at s d) as [[x| |t]|] eqn:Hnode; simplify_eq.
  unfold realpath in *. rewrite Hsplit.
  assert (d ++ [c] <> d) as Hne.
  { intros E. apply (f_equal length) in E. rewrite length_app in E. simpl in E. lia. }
  apply (walk_snoc_file _ _ content).
  - destruct (s !! (d ++ [c])) as [[x| |t]|] eqn:Hl.
    + rewrite (walk_file_content _ _ x); [exact Hd|exact Hl].
    + destruct Hk.
    + destruct Hk.
    + apply walk_insert_fresh; [exact Hl|exact Hd].
  - apply lookup_insert_eq.
  - destruct d as [|c1 d]; [done|]. simpl in *. by rewrite lookup_insert_ne.
Qed.

Lemma locate_not_root (s : gmap path node) (p k : path) :
  p <> [] -> locate s p = Some k -> k <> [].
Proof.
  unfold locate. destruct p as [|c p]; [done|]. intros _.
  destruct (realpath s _) as [d|]; [|done].
  destruct (node_at s d) as [[x| |t]|]; try done.
  intros [= <-]. by destruct d.
Qed.

Lemma node_at_not_root (s : gmap path node) (k : path) :
  k <> [] -> node_at s k = s !! k.
Proof. by destruct k. Qed.

(** A write that succeeds replaces the whole content of one file; when
    the path named a regular file or nothing, that file is the one the
    path then reads. *)
Lemma writeFile_ok (s s' : gmap path node) (p : path) content :
  p <> [] ->
  writeFile p content s = (Ok tt, s') ->
  exists k,
    write_target MAXSYMLINKS s p = Some k
    /\ s' = <[k := File content]> s
    /\ (match lstat s p with None | Some (File _) => True | _ => False end ->
        readFile p s' = (Ok content, s')).
Proof.
  intros Hp. unfold writeFile.
  destruct (write_target MAXSYMLINKS s p) as [k|] eqn:Hk; [|done].
  intros [= <-]. exists k. split; [done|]. split; [done|].
  unfold lstat. intros Hplain.
  destruct (locate s p) as [k'|] eqn:Hloc.
  2:{ simpl in Hk. by rewrite Hloc in Hk. }
  pose proof (locate_not_root _ _ _ Hp Hloc) as Hk'.
  simpl in Hplain, Hk. rewrite Hloc in Hk.
  rewrite node_at_not_root in Hplain, Hk by done.
  assert (k = k') as -> by (by destruct (s !! k') as [[x| |t]|]; simplify_eq).
  unfold readFile. rewrite (realpath_after_write _ _ k') by done.
  simpl. by rewrite node_at_not_root, lookup_insert_eq.
Qed.

Section Local_paths.
Local Arguments walk : simpl never.

Lemma locate_child (s : gmap path node) (d x : string) :
  s !! [d] = Some Dir -> locate s [d; x] = Some [d; x].
Proof.
  intros Hdir. unfold locate, realpath, MAXSYMLINKS. simpl removelast.
  cbv match. rewrite walk_step. simpl. rewrite Hdir.
  rewrite walk_nil. simpl. by rewrite Hdir.
Qed.

Lemma locate_top (s : gmap path node) (c : string) :
  locate s [c] = Some [c].
Proof. reflexivity. Qed.

Lemma writeFile_frame (p : path) (content : string) (s s' : gmap path node)
    (r : result unit) :
  writeFile p content s = (r, s') ->
  forall k, write_target MAXSYMLINKS s p <> Some k -> s' !! k = s !! k.
Proof.
  unfold writeFile.
  destruct (write_target MAXSYMLINKS s p) as [k0|]; intros [= <- <-] k Hk;
    [|done].
  rewrite lookup_insert_ne; [done|congruence].
Qed.

End Local_paths.

Lemma pair_eq {A B} (p : A * B) a b : fst p = a -> snd p = b -> p = (a, b).
Proof. destruct p; simpl; congruence. Qed.

(** Evaluation of a run on a concrete state: the result by computation,
    the state by the decision procedure of map equality. *)
Ltac same_state := apply (bool_decide_unpack _); vm_compute; exact I.
Ltac run_fs := apply pair_eq; [vm_compute; reflexivity | same_state].

End FsFacts.

(** ** Joining simple segments *)

Module PathFacts.
Import JsString Path Validation LinkSpec Types Paths.

Lemma segments_no_slash x :
  all_chars no_slash x = true -> segments x = [x].
Proof.
  induction x as [|c x IH]; simpl; [done|].
  intros [Hc Hx]%andb_prop. unfold no_slash in Hc.
  destruct (code c =? 47)%nat; [done|]. by rewrite IH.
Qed.

Lemma join_simple (base : path) x :
  simple x = true -> join base x = base ++ [x].
Proof.
  unfold simple, join, push.
  intros [[[Hs H0]%andb_prop H1]%andb_prop H2]%andb_prop.
  rewrite (segments_no_slash _ Hs). simpl.
  by destruct (String.eqb x ""), (String.eqb x "."), (String.eqb x "..").
Qed.

Lemma all_chars_impl (p q : ascii -> bool) x :
  (forall c, p c = true -> q c = true) ->
  all_chars p x = true -> all_chars q x = true.
Proof.
  intros Hpq. induction x as [|c x IH]; simpl; [done|].
  intros [Hc Hx]%andb_prop. by rewrite (Hpq _ Hc), IH.
Qed.

Lemma name_char_no_slash c : is_name_char c = true -> no_slash c = true.
Proof.
  unfold is_name_char, is_lower, is_digit, between, no_slash.
  destruct (code c =? 47)%nat eqn:E; [|done].
  apply Nat.eqb_eq in E. by rewrite E.
Qed.

Lemma valid_no_slash name :
  isValidProfileName name = true -> all_chars no_slash name = true.
Proof.
  unfold isValidProfileName.
  destruct (is_blank name); [done|].
  destruct (_ <? _)%nat; [done|].
  destruct (PROFILE_NAME_PATTERN name) eqn:Hp; [intros _|done].
  destruct name as [|c name]; [done|]. simpl in *.
  apply andb_prop in Hp as [Hc Hn].
  rewrite (all_chars_impl _ _ _ name_char_no_slash Hn), andb_true_r.
  apply name_char_no_slash. unfold is_name_char. by rewrite Hc.
Qed.

Lemma all_chars_append p x y :
  all_chars p (x +:+ y) = all_chars p x && all_chars p y.
Proof. induction x as [|c x IH]; simpl; [done|]. by rewrite IH, andb_assoc. Qed.

(** The directory of a valid profile is one component of the home
    directory, and so is its credentials file. *)
Lemma profile_dir_simple name :
  all_chars no_slash name = true -> simple (".claude-" +:+ name) = true.
Proof.
  intros H. unfold simple. rewrite all_chars_append, H. reflexivity.
Qed.

Lemma getProfilePath_valid name :
  isValidProfileName name = true ->
  getProfilePath name = [".claude-" +:+ name].
Proof.
  intros H%valid_no_slash. unfold getProfilePath.
  by rewrite join_simple by by apply profile_dir_simple.
Qed.

Lemma credentials_simple name :
  all_chars no_slash name = true ->
  simple (".claude-" +:+ name +:+ ".json") = true.
Proof.
  intros H. unfold simple. rewrite !all_chars_append, H. reflexivity.
Qed.

Lemma getProfileCredentialsPath_valid name :
  isValidProfileName name = true ->
  getProfileCredentialsPath name = [".claude-" +:+ name +:+ ".json"].
Proof.
  intros H%valid_no_slash. unfold getProfileCredentialsPath.
  by rewrite join_simple by by apply credentials_simple.
Qed.

Lemma sharedItems_simple item :
  item ∈ CLAUDE_PATHS.sharedItems -> simple (SharedItem.name item) = true.
Proof.
  intros H. unfold CLAUDE_PATHS.sharedItems in H.
  repeat (apply elem_of_cons in H as [->|H]; [reflexivity|]).
  by apply elem_of_nil in H.
Qed.

Lemma profile_dir_not_shared name : ".claude-" +:+ name <> ".claude".
Proof. intros H. apply (f_equal String.length) in H. simpl in H. lia. Qed.

Lemma length_append (a b : string) :
  String.length (a +:+ b) = (String.length a + String.length b)%nat.
Proof.
  induction a as [|c a IH]; [done|].
  change (S (String.length (a +:+ b)) = S (String.length a + String.length b)).
  by rewrite IH.
Qed.

Lemma credentials_not_profile_dir (prefix name : string) :
  prefix +:+ name <> prefix +:+ name +:+ ".json".
Proof.
  intros E. apply (f_equal String.length) in E.
  rewrite !length_append in E. simpl in E. lia.
Qed.

Lemma profile_dir_not_config name : ".claude-" +:+ name <> ".cc-profiles.json".
Proof. intros E. apply (f_equal (String.get 2)) in E. cbv in E. discriminate. Qed.

Lemma credentials_not_config name :
  ".claude-" +:+ name +:+ ".json" <> ".cc-profiles.json".
Proof. intros E. apply (f_equal (String.get 2)) in E. cbv in E. discriminate. Qed.

Lemma credentials_not_shared name : ".claude-" +:+ name +:+ ".json" <> ".claude".
Proof. intros E. apply (f_equal (String.get 7)) in E. cbv in E. discriminate. Qed.

End PathFacts.

Module SymlinksFacts.
Import Path Fs Types Paths Symlinks FsFacts PathFacts LinkSpec Examples.

Lemma getSymlinkStatus_loop_spec profilePath s : forall items status,
    getSymlinkStatus_loop profilePath items status s
    = (Ok (status ++ map (status_of s profilePath) items), s).
Proof.
  induction items as [|item items IH]; intros status; simpl.
  - by rewrite app_nil_r.
  - unfold bind at 1, existsSync at 1.
    set (target := join profilePath (SharedItem.name item)).
    assert (Hflags :
      (if exists_ s target
       then st <- lstatSync target;;
            if isSymbolicLink st
            then targetExists <- try_catch (stat target;; ret true) (ret false);;
                 ret (isSymbolicLink st, targetExists)
            else ret (isSymbolicLink st, false)
       else ret (false, false)) s
      = (Ok (LinkStatus.isSymlink (status_of s profilePath item),
             LinkStatus.targetExists (status_of s profilePath item)), s)).
    { unfold status_of. fold target. simpl.
      destruct (exists_ s target) eqn:He; [|done].
      destruct (exists_lstat _ _ He) as [n Hn].
      unfold bind, lstatSync. rewrite Hn.
      destruct n as [content| |t]; simpl; [done|done|].
      unfold try_catch, bind, stat, ret.
      unfold exists_ in He.
      destruct (realpath s target) as [r|] eqn:Hr; [|done].
      apply walk_node in Hr as [n' Hn']; [|by eexists].
      simpl. by rewrite Hn'. }
    unfold bind at 1. rewrite Hflags, IH. simpl.
    by rewrite <- app_assoc.
Qed.

Lemma lookup_prune (k : path) (s : gmap path node) (j : path) :
  prune k s !! j = if decide (k `prefix_of` j) then None else s !! j.
Proof.
  unfold prune. rewrite map_lookup_filter.
  destruct (s !! j) as [n|]; simpl; [|by case_decide].
  case_decide; by case_guard.
Qed.

Local Arguments walk : simpl never.

Lemma mainConfig_eq : CLAUDE_PATHS.mainConfig = [".claude"].
Proof. reflexivity. Qed.

(** In a private directory that is a directory of the home directory,
    [createSymlinks] touches nothing outside that directory. *)
Lemma createSymlinks_loop_frame (d : string) :
  forall items (s s' : gmap path node) created r,
    s !! [d] = Some Dir ->
    (forall item, item ∈ items -> simple (SharedItem.name item) = true) ->
    createSymlinks_loop [d] items created s = (r, s') ->
    forall k, ¬ ([d] `prefix_of` k) -> s' !! k = s !! k.
Proof.
  induction items as [|item items IH]; intros s s' created r Hdir Hsimple.
  - by intros [= <- <-].
  - assert (simple (SharedItem.name item) = true) as Hitem
        by (apply Hsimple; by left).
    assert (forall item', item' ∈ items ->
              simple (SharedItem.name item') = true) as Hrest
        by (intros item' Hin; apply Hsimple; by right).
    cbn [createSymlinks_loop]. rewrite (join_simple [d]) by done.
    change ([d] ++ [SharedItem.name item]) with [d; SharedItem.name item].
    pose (target := [d; SharedItem.name item]).
    change [d; SharedItem.name item] with target.
    assert (forall k, ¬ ([d] `prefix_of` k) -> ¬ (target `prefix_of` k)) as Hbelow.
    { intros k Hk [rest ->]. apply Hk. by exists (SharedItem.name item :: rest). }
    assert (forall k, ¬ ([d] `prefix_of` k) -> target <> k) as Hother.
    { intros k Hk <-. apply Hk. by exists [SharedItem.name item]. }
    assert (forall s0 : gmap path node,
              s0 !! [d] = Some Dir -> locate s0 target = Some target) as Hloc
        by (intros; by apply locate_child).
    assert (prune target s !! [d] = Some Dir) as Hdir'.
    { rewrite lookup_prune, decide_False; [done|].
      intros [rest E]. unfold target in E. by simplify_eq/=. }
    assert (forall (s0 : gmap path node) created0,
              s0 !! [d] = Some Dir ->
              (forall k, ¬ ([d] `prefix_of` k) -> s0 !! k = s !! k) ->
              (symlink (join CLAUDE_PATHS.mainConfig (SharedItem.name item)) target;;
               createSymlinks_loop [d] items created0) s0 = (r, s') ->
              forall k, ¬ ([d] `prefix_of` k) -> s' !! k = s !! k) as Hlink.
    { intros s0 created0 Hdir0 Hsame. unfold bind at 1, symlink at 1.
      rewrite Hloc by done.
      destruct (node_at s0 target).
      - intros [= <- <-]. exact Hsame.
      - intros Hrun k Hk.
        assert (<[target := Link (join CLAUDE_PATHS.mainConfig
                                    (SharedItem.name item))]> s0 !! [d]
                = Some Dir) as Hdir1.
        { rewrite lookup_insert_ne; [done|]. unfold target. by intros [=]. }
        rewrite (IH _ _ _ _ Hdir1 Hrest Hrun k Hk).
        rewrite lookup_insert_ne by by apply Hother. by apply Hsame. }
    unfold bind at 1, existsSync at 1.
    destruct (exists_ s _); cbn [negb].
    2:{ destruct (SharedItem.required item); [by intros [= <- <-]|].
        by apply IH. }
    unfold bind at 1, existsSync at 1.
    destruct (exists_ s target).
    + unfold bind at 1. unfold bind at 1, lstatSync at 1.
      destruct (lstat s target) as [[content| |t]|];
        cbn [isSymbolicLink negb ret]; [| | |by intros [= <- <-]].
      * unfold bind at 1, rm_rf at 1. rewrite Hloc by done.
        apply Hlink; [done|]. intros k Hk.
        rewrite lookup_prune, decide_False; [done|by apply Hbelow].
      * unfold bind at 1, rm_rf at 1. rewrite Hloc by done.
        apply Hlink; [done|]. intros k Hk.
        rewrite lookup_prune, decide_False; [done|by apply Hbelow].
      * by apply IH.
    + unfold bind at 1. cbn [ret]. by apply Hlink.
Qed.

Section Managed.
Context (d : string) (Hd : d <> ".claude").

Lemma target_not_below_source item item' k :
  source_of item' = target_of d item ++ k -> False.
Proof. unfold source_of, target_of. intros H. by simplify_eq/=. Qed.

Lemma lookup_linked_target s item :
  linked d s item !! target_of d item = Some (Link (source_of item)).
Proof.
  unfold linked. destruct (s !! target_of d item); apply lookup_insert_eq.
Qed.

Lemma lookup_linked_other s item k :
  ¬ (target_of d item `prefix_of` k) ->
  linked d s item !! k = s !! k.
Proof.
  intros Hk. unfold linked.
  assert (target_of d item <> k) by (intros E; apply Hk; by rewrite E).
  destruct (s !! target_of d item);
    rewrite lookup_insert_ne by done; [|done].
  rewrite lookup_prune. by case_decide.
Qed.

Lemma lookup_linked_source s item item' :
  linked d s item !! source_of item' = s !! source_of item'.
Proof.
  apply lookup_linked_other. intros [k Hk].
  by apply target_not_below_source in Hk.
Qed.

Lemma managed_linked s item :
  managed d s -> managed d (linked d s item).
Proof.
  intros [Hsh Hpr Hsrc Htgt]. split.
  - rewrite lookup_linked_other; [done|].
    intros [k Hk]. unfold target_of in Hk. by simplify_eq/=.
  - rewrite lookup_linked_other; [done|].
    intros [k Hk]. unfold target_of in Hk. by simplify_eq/=.
  - intros item' Hin. rewrite lookup_linked_source. by apply Hsrc.
  - intros item' t Hin.
    destruct (decide (SharedItem.name item' = SharedItem.name item)) as [E|E].
    + assert (target_of d item' = target_of d item) as ->
        by (unfold target_of; by rewrite E).
      rewrite lookup_linked_target. intros [= <-].
      unfold source_of. by rewrite E.
    + rewrite lookup_linked_other; [by apply Htgt|].
      intros [k Hk]. unfold target_of in Hk. by simplify_eq/=.
Qed.

Lemma locate_in_dir (s : gmap path node) item :
  s !! [d] = Some Dir ->
  locate s (target_of d item) = Some (target_of d item).
Proof.
  intros Hdir.
  unfold locate, realpath, MAXSYMLINKS, target_of. simpl removelast.
  cbv match. rewrite walk_step. simpl. rewrite Hdir.
  rewrite walk_nil. simpl. by rewrite Hdir.
Qed.

Section Eval.
Context (s : gmap path node) (Hm : managed d s).
Context (item : SharedItem.t) (Hin : item ∈ CLAUDE_PATHS.sharedItems).

Lemma exists_source :
  exists_ s (source_of item)
  = match s !! source_of item with Some _ => true | None => false end.
Proof.
  pose proof (managed_sources _ _ Hm item Hin) as Hp.
  unfold exists_, realpath, MAXSYMLINKS, source_of in *.
  rewrite !walk_step, ?walk_nil. simpl. rewrite (managed_shared _ _ Hm).
  destruct (s !! [".claude"; SharedItem.name item]) as [[c| |t]|];
    try done.
Qed.

Lemma locate_target :
  locate s (target_of d item) = Some (target_of d item).
Proof. apply locate_in_dir, Hm. Qed.

Lemma lstat_target :
  lstat s (target_of d item) = s !! target_of d item.
Proof. unfold lstat. by rewrite locate_target. Qed.

Lemma exists_target :
  exists_ s (target_of d item)
  = match s !! target_of d item with
    | None => false
    | Some (Link _) =>
        match s !! source_of item with
        | Some _ => true
        | None => false
        end
    | Some _ => true
    end.
Proof.
  pose proof (managed_sources _ _ Hm item Hin) as Hp.
  pose proof (managed_targets _ _ Hm item) as Ht.
  unfold exists_, realpath, MAXSYMLINKS, target_of, source_of in *.
  rewrite !walk_step, ?walk_nil. simpl. rewrite (managed_profile _ _ Hm).
  destruct (s !! [d; SharedItem.name item]) as [[c| |t]|]; try done.
  rewrite (Ht t Hin eq_refl). simpl.
  rewrite !walk_step, ?walk_nil. simpl. rewrite (managed_shared _ _ Hm).
  by destruct (s !! [".claude"; SharedItem.name item]) as [[c| |t']|].
Qed.

(** One turn of the loop of [createSymlinks] on a managed state. *)
Lemma createSymlinks_loop_cons rest created :
  createSymlinks_loop [d] (item :: rest) created s
  = match s !! source_of item with
    | None =>
        if SharedItem.required item
        then (Throw (MissingRequiredSharedResource (source_of item)), s)
        else createSymlinks_loop [d] rest created s
    | Some _ =>
        if needs_link d s item
        then createSymlinks_loop [d] rest
               (created ++ [descriptor d item]) (linked d s item)
        else createSymlinks_loop [d] rest created s
    end.
Proof.
  cbn [createSymlinks_loop].
  rewrite mainConfig_eq, !join_simple by by apply sharedItems_simple.
  change ([".claude"] ++ [SharedItem.name item]) with (source_of item).
  change ([d] ++ [SharedItem.name item]) with (target_of d item).
  unfold bind at 1, existsSync at 1. rewrite exists_source.
  unfold needs_link, linked.
  destruct (s !! source_of item) as [n|] eqn:Hs; cbn [negb].
  2:{ by destruct (SharedItem.required item). }
  unfold bind at 1, existsSync at 1. rewrite exists_target, Hs.
  destruct (s !! target_of d item) as [[c| |t]|] eqn:Ht.
  - unfold bind at 1. unfold bind at 1, lstatSync at 1.
    rewrite lstat_target, Ht. cbn [isSymbolicLink negb].
    unfold bind at 1, rm_rf at 1. rewrite locate_target. cbn [ret].
    unfold bind at 1, symlink at 1.
    rewrite locate_in_dir.
    2:{ rewrite lookup_prune. rewrite decide_False; [apply Hm|].
        intros [k Hk]. unfold target_of in Hk. by simplify_eq/=. }
    cbn [node_at target_of]. rewrite lookup_prune, decide_True by done.
    done.
  - unfold bind at 1. unfold bind at 1, lstatSync at 1.
    rewrite lstat_target, Ht. cbn [isSymbolicLink negb].
    unfold bind at 1, rm_rf at 1. rewrite locate_target. cbn [ret].
    unfold bind at 1, symlink at 1.
    rewrite locate_in_dir.
    2:{ rewrite lookup_prune. rewrite decide_False; [apply Hm|].
        intros [k Hk]. unfold target_of in Hk. by simplify_eq/=. }
    cbn [node_at target_of]. rewrite lookup_prune, decide_True by done.
    done.
  - unfold bind at 1. unfold bind at 1, lstatSync at 1.
    rewrite lstat_target, Ht. by cbn [isSymbolicLink negb].
  - unfold bind at 1. cbn [ret].
    unfold bind at 1, symlink at 1. rewrite locate_target.
    cbn [node_at target_of]. by rewrite Ht.
Qed.

End Eval.

Lemma needs_link_linked s item item' :
  SharedItem.name item' <> SharedItem.name item ->
  needs_link d (linked d s item) item' = needs_link d s item'.
Proof.
  intros Hne. unfold needs_link.
  rewrite lookup_linked_source, lookup_linked_other; [done|].
  intros [k Hk]. unfold target_of in Hk. by simplify_eq/=.
Qed.

(** A loop over settled items changes nothing and creates nothing. *)
Lemma createSymlinks_loop_settled s :
  managed d s ->
  forall items created,
    items ⊆ CLAUDE_PATHS.sharedItems ->
    Forall (settled d s) items ->
    createSymlinks_loop [d] items created s = (Ok created, s).
Proof.
  intros Hm. induction items as [|item items IH]; intros created Hsub Hall.
  - done.
  - apply Forall_cons in Hall as [Hitem Hall].
    assert (item ∈ CLAUDE_PATHS.sharedItems) as Hin
        by (apply Hsub; by left).
    assert (items ⊆ CLAUDE_PATHS.sharedItems) as Hsub'
        by (intros x Hx; apply Hsub; by right).
    rewrite createSymlinks_loop_cons by done. unfold needs_link.
    destruct Hitem as [[-> ->]|[[n ->] ->]]; by apply IH.
Qed.

(** A loop that succeeds leaves every item settled, touches nothing
    outside the targets it visits, and returns the descriptors of
    the links it made. *)
Lemma createSymlinks_loop_settles :
  forall items s created r s1,
    managed d s ->
    NoDup (map SharedItem.name items) ->
    items ⊆ CLAUDE_PATHS.sharedItems ->
    createSymlinks_loop [d] items created s = (Ok r, s1) ->
    managed d s1
    /\ Forall (settled d s1) items
    /\ (forall k, (forall item, item ∈ items ->
                            ¬ (target_of d item `prefix_of` k)) ->
                  s1 !! k = s !! k)
    /\ r = created ++ map (descriptor d) (List.filter (needs_link d s) items).
Proof.
  induction items as [|item items IH]; intros s created r s1 Hm Hnd Hsub Hrun.
  - simpl in Hrun. unfold ret in Hrun. simplify_eq.
    rewrite app_nil_r. split; [done|]. split; [constructor|]. by split.
  - assert (item ∈ CLAUDE_PATHS.sharedItems) as Hin
        by (apply Hsub; by left).
    assert (items ⊆ CLAUDE_PATHS.sharedItems) as Hsub'
        by (intros x Hx; apply Hsub; by right).
    simpl in Hnd. apply NoDup_cons in Hnd as [Hfresh Hnd].
    assert (forall item', item' ∈ items ->
              SharedItem.name item' <> SharedItem.name item) as Hne.
    { intros item' Hin' E. apply Hfresh. rewrite <- E.
      apply list_elem_of_fmap. by exists item'. }
    assert (forall k, source_of item <> target_of d item ++ k) as Hsrc.
    { intros k Hk. by apply target_not_below_source in Hk. }
    rewrite createSymlinks_loop_cons in Hrun by done.
    cbn [List.filter].
    destruct (s !! source_of item) as [n|] eqn:Hs.
    + destruct (needs_link d s item) eqn:Hneed.
      * apply IH in Hrun as (Hm1 & Hall & Hframe & ->);
          [|by apply managed_linked|done|done].
        assert (s1 !! source_of item = Some n) as Hs1.
        { rewrite Hframe, lookup_linked_source; [done|].
          intros item' _ [k Hk]. by apply target_not_below_source in Hk. }
        assert (s1 !! target_of d item = Some (Link (source_of item))) as Ht1.
        { rewrite Hframe, lookup_linked_target; [done|].
          intros item' Hin' [k Hk]. apply (Hne item' Hin').
          unfold target_of in Hk. by simplify_eq/=. }
        split; [done|]. split; [|split].
        -- apply Forall_cons. split; [|done]. right. by rewrite Hs1.
        -- intros k Hk. rewrite Hframe.
           ++ apply lookup_linked_other, Hk. by left.
           ++ intros item' Hin'. apply Hk. by right.
        -- rewrite <- app_assoc. cbn [map app]. do 3 f_equal.
           apply filter_ext_in. intros item' Hin'%list_elem_of_In.
           apply needs_link_linked. by apply Hne.
      * apply IH in Hrun as (Hm1 & Hall & Hframe & ->); [|done..].
        assert (s1 !! source_of item = Some n) as Hs1.
        { rewrite Hframe; [done|].
          intros item' _ [k Hk]. by apply target_not_below_source in Hk. }
        assert (s1 !! target_of d item = s !! target_of d item) as Ht1.
        { apply Hframe.
          intros item' Hin' [k Hk]. apply (Hne item' Hin').
          unfold target_of in Hk. by simplify_eq/=. }
        split; [done|]. split; [|split].
        -- apply Forall_cons. split; [|done]. right. rewrite Hs1, Ht1.
           split; [done|]. unfold needs_link in Hneed. rewrite Hs in Hneed.
           destruct (s !! target_of d item) as [[c| |t]|] eqn:Ht; try done.
           by rewrite (managed_targets _ _ Hm item t Hin Ht).
        -- intros k Hk. apply Hframe. intros item' Hin'. apply Hk. by right.
        -- done.
    + destruct (SharedItem.required item) eqn:Hreq; [done|].
      apply IH in Hrun as (Hm1 & Hall & Hframe & ->); [|done..].
      split; [done|]. split; [|split].
      * apply Forall_cons. split; [|done]. left. split; [|done].
        rewrite Hframe; [done|].
        intros item' _ [k Hk]. by apply target_not_below_source in Hk.
      * intros k Hk. apply Hframe. intros item' Hin'. apply Hk. by right.
      * assert (needs_link d s item = false) as ->; [|done].
        unfold needs_link. by rewrite Hs.
Qed.

End Managed.

Lemma sharedItems_NoDup : NoDup (map SharedItem.name CLAUDE_PATHS.sharedItems).
Proof. by apply (bool_decide_unpack _). Qed.


Lemma fresh_profile_state_managed : managed ".claude-work" fresh_profile_state.
Proof.
  split; [reflexivity|reflexivity| |].
  - intros item H. unfold CLAUDE_PATHS.sharedItems in H.
    repeat (apply elem_of_cons in H as [->|H]; [by vm_compute|]).
    by apply elem_of_nil in H.
  - intros item t H. unfold CLAUDE_PATHS.sharedItems in H.
    repeat (apply elem_of_cons in H as [->|H]; [by vm_compute|]).
    by apply elem_of_nil in H.
Qed.

Lemma first_run_on_fresh_profile :
  createSymlinks "work" fresh_profile_state
  = (Ok [ SymlinkTarget.mk [".claude"; "settings.json"]
            [".claude-work"; "settings.json"] file true;
          SymlinkTarget.mk [".claude"; "agents"]
            [".claude-work"; "agents"] directory false ],
     linked_profile_state).
Proof. run_fs. Qed.

Lemma second_run_on_fresh_profile :
  createSymlinks "work" linked_profile_state = (Ok [], linked_profile_state).
Proof. run_fs. Qed.



(** C10. A shared item whose entry in the profile directory is a link
    that does not resolve is reported by [getSymlinkStatus] as
    [exists = false], [isSymlink = false], [targetExists = false]: the
    existence check follows the link. *)
Theorem broken_link_reported_absent
    (profileName : string) (s : gmap path node)
    (i : nat) (item : SharedItem.t) (t : path) :
  CLAUDE_PATHS.sharedItems !! i = Some item ->
  lstat s (join (getProfilePath profileName) (SharedItem.name item))
    = Some (Link t) ->
  realpath s (join (getProfilePath profileName) (SharedItem.name item))
    = None ->
  exists statuses,
    getSymlinkStatus profileName s = (Ok statuses, s)
    /\ length statuses = length CLAUDE_PATHS.sharedItems
    /\ statuses !! i
       = Some (LinkStatus.mk (SharedItem.name item) false false false).
Proof.
  intros Hi Hlink Hbroken. eexists. split; [|split].
  - apply getSymlinkStatus_loop_spec.
  - by rewrite app_nil_l, length_map.
  - rewrite app_nil_l, list_lookup_fmap, Hi. simpl. f_equal.
    unfold status_of, exists_. by rewrite Hbroken.
Qed.

Lemma broken_link_reported_absent_witness :
  exists statuses,
    getSymlinkStatus "work" broken_link_state = (Ok statuses, broken_link_state)
    /\ length statuses = length CLAUDE_PATHS.sharedItems
    /\ statuses !! 0%nat
       = Some (LinkStatus.mk "settings.json" false false false).
Proof.
  apply (broken_link_reported_absent "work" broken_link_state 0
           (SharedItem.mk "settings.json" file true)
           [".claude"; "settings.json"]).
  - reflexivity.
  - by vm_compute.
  - by vm_compute.
Defined.

End SymlinksFacts.

(** ** The registry *)

Module RegistryFacts.
Import Path Fs Json Runtime Types Paths FsUtils ProfileOps Symlinks.
Import FsFacts PathFacts LinkSpec SymlinksFacts RegistrySpec Examples.

Section WithRuntime.
Context `{Runtime.t}.

Lemma readJson_spec (p : path) (s : gmap path node) :
  readJson p s
  = (Ok match fst (readFile p s) with
        | Ok content => default JNull (JSON_parse content)
        | Throw _ => JNull
        end, s).
Proof.
  unfold readJson, try_catch, bind, readFile.
  destruct (realpath s p ≫= node_at s) as [[content| |t]|]; try done.
  simpl. by destruct (JSON_parse content).
Qed.

Lemma loadProfilesConfig_spec (s : gmap path node) :
  loadProfilesConfig s
  = (Ok (let config :=
           match fst (readFile CLAUDE_PATHS.profilesConfig s) with
           | Ok content => default JNull (JSON_parse content)
           | Throw _ => JNull
           end in
         if truthy config then config else emptyConfig), s).
Proof. unfold loadProfilesConfig, bind. by rewrite readJson_spec. Qed.

(** C6. Whatever the state of the metadata file, [loadProfilesConfig]
    returns a document, throws nothing and writes nothing; when the file
    cannot be read or its text is not JSON, the document returned is the
    empty one, with an empty profiles mapping and version "1.0.0".  A
    text that is JSON is returned as parsed, unless its value is falsy,
    which gives the empty document too. *)
Theorem loadProfilesConfig_total (s : gmap path node) :
  (exists config, loadProfilesConfig s = (Ok config, s))
  /\ (read_fails s -> loadProfilesConfig s = (Ok emptyConfig, s))
  /\ (forall content v,
         fst (readFile CLAUDE_PATHS.profilesConfig s) = Ok content ->
         JSON_parse content = Some v ->
         loadProfilesConfig s
         = (Ok (if truthy v then v else emptyConfig), s))
  /\ get_prop emptyConfig "profiles" = Some (JObject [])
  /\ get_prop emptyConfig "version" = Some (JString "1.0.0").
Proof.
  split; [|split; [|split; [|done]]].
  - eexists. apply loadProfilesConfig_spec.
  - unfold read_fails. rewrite loadProfilesConfig_spec.
    destruct (fst (readFile _ s)) as [content|e]; [|done].
    by intros ->.
  - intros content v Hread Hparse.
    by rewrite loadProfilesConfig_spec, Hread, Hparse.
Qed.

End WithRuntime.

(** *** Sorting by creation date *)

Lemma sort_insert_perm {A} (compare : A -> A -> option Z) x l :
  sort_insert compare x l ≡ₚ x :: l.
Proof.
  induction l as [|y l IH]; simpl; [done|].
  destruct (_ <=? _)%Z; [done|]. by rewrite IH, Permutation_swap.
Qed.

Lemma sort_perm {A} (compare : A -> A -> option Z) l :
  sort compare l ≡ₚ l.
Proof.
  induction l as [|x l IH]; simpl; [done|].
  by rewrite sort_insert_perm, IH.
Qed.

Lemma newer_or_same_trans a b c :
  newer_or_same a b -> newer_or_same b c -> newer_or_same a c.
Proof.
  intros (ta & tb & Ha & Hb & Hab) (tb' & tc & Hb' & Hc & Hbc).
  exists ta, tc. rewrite Hb in Hb'. simplify_eq. repeat split; [done..|lia].
Qed.

Lemma sort_insert_sorted x l :
  has_time x -> Forall has_time l ->
  StronglySorted newer_or_same l ->
  StronglySorted newer_or_same (sort_insert newest_first x l).
Proof.
  intros [tx Hx] Hall Hsorted.
  induction Hsorted as [|y l Hl IH Hy]; simpl.
  - repeat constructor.
  - apply Forall_cons in Hall as [[ty Hty] Hall].
    unfold newest_first at 1. rewrite Hx, Hty. simpl.
    destruct (Z.leb_spec (ty - tx) 0).
    + assert (newer_or_same x y) as Hxy
          by (exists tx, ty; repeat split; [done..|lia]).
      constructor; [by constructor|].
      constructor; [done|].
      eapply Forall_impl; [exact Hy|]. intros z. by apply newer_or_same_trans.
    + constructor; [by apply IH|].
      rewrite sort_insert_perm. constructor; [|done].
      exists ty, tx. repeat split; [done..|lia].
Qed.

Lemma sort_sorted l :
  Forall has_time l -> newest_first_order (sort newest_first l).
Proof.
  unfold newest_first_order.
  induction l as [|x l IH]; intros Hall; simpl; [constructor|].
  apply Forall_cons in Hall as [Hx Hall].
  apply sort_insert_sorted; [done| |by apply IH].
  by rewrite sort_perm.
Qed.

(** *** Listing *)

Section Listing.
Context `{Runtime.t}.

Lemma listProfiles_loop_spec (s : gmap path node) :
  forall es profiles,
    Forall dated (on_disk s es) ->
    listProfiles_loop es profiles s
    = (Ok (profiles ++ map (view s) (on_disk s es)), s).
Proof.
  induction es as [|[name metadata] es IH]; intros profiles Hdated; simpl.
  - by rewrite app_nil_r.
  - unfold bind at 1, existsSync at 1. unfold on_disk in *. simpl in *.
    destruct (exists_ s (getProfilePath name)); [|by apply IH].
    apply Forall_cons in Hdated as [[Hnn _] Hdated].
    unfold bind at 1, existsSync at 1. simpl in Hnn.
    destruct metadata; try done;
      rewrite IH by done; by rewrite <- app_assoc.
Qed.

(** Whatever the entries hold, the loop leaves the file system as it
    is, and what it returns, when it returns, is the views of the
    entries on disk. *)
Lemma listProfiles_loop_run (s : gmap path node) :
  forall es profiles,
    snd (listProfiles_loop es profiles s) = s
    /\ forall result,
        fst (listProfiles_loop es profiles s) = Ok result ->
        result = profiles ++ map (view s) (on_disk s es).
Proof.
  induction es as [|[name metadata] es IH]; intros profiles; simpl.
  - split; [done|]. intros result [= <-]. by rewrite app_nil_r.
  - unfold bind at 1 3, existsSync at 1 3. unfold on_disk in *. simpl.
    destruct (exists_ s (getProfilePath name)); [|by apply IH].
    unfold bind at 1 2, existsSync at 1 2. simpl.
    destruct metadata; try done;
      lazymatch goal with
      | |- context [listProfiles_loop es ?acc s] =>
          destruct (IH acc) as [Hs Hr];
          split; [exact Hs|]; intros result Hres;
          rewrite (Hr _ Hres); by rewrite <- app_assoc
      end.
Qed.


End Listing.

(** *** Creation *)

Section Creation.
Context `{Runtime.t}.

Local Arguments walk : simpl never.


(** What a successful [createProfile] returns. *)
Lemma createProfile_ok (name : string) (s s' : gmap path node)
    (p : Profile.t) :
  createProfile name s = (Ok p, s') ->
  p = Profile.mk name (getProfilePath name) (getProfilePath name)
        (getProfileCredentialsPath name)
        (exists_ s' (getProfileCredentialsPath name)) (Time Date_now)
  /\ Validation.isValidProfileName name = true
  /\ exists_ s (getProfilePath name) = false
  /\ exists_ s CLAUDE_PATHS.mainConfig = true.
Proof.
  unfold createProfile.
  destruct (Validation.isValidProfileName name); [|done]. cbn [negb].
  unfold bind at 1, existsSync at 1.
  destruct (exists_ s (getProfilePath name)); [done|].
  unfold bind at 1, existsSync at 1.
  destruct (exists_ s CLAUDE_PATHS.mainConfig); [|done]. cbn [negb].
  unfold bind at 1.
  destruct (mkdir_p _ s) as [[[]|e] s1]; [|done].
  unfold bind at 1.
  destruct (createSymlinks name s1) as [[created|e] s2]; [|done].
  unfold bind at 1.
  destruct (saveProfileMetadata name s2) as [[[]|e] s3]; [|done].
  unfold bind, existsSync, ret. intros [= <- <-]. done.
Qed.

Lemma saveProfileMetadata_frame (name : string) (s s' : gmap path node)
    (r : result unit) :
  saveProfileMetadata name s = (r, s') ->
  forall k,
    write_target MAXSYMLINKS s CLAUDE_PATHS.profilesConfig <> Some k ->
    s' !! k = s !! k.
Proof.
  unfold saveProfileMetadata, bind. rewrite loadProfilesConfig_spec.
  cbv zeta. unfold writeJson.
  repeat match goal with
         | |- context [match ?x with _ => _ end] =>
             lazymatch x with
             | writeFile _ _ _ => fail
             | _ => destruct x
             end
         end;
    try (by intros [= <- <-]); apply writeFile_frame.
Qed.

(** A write to the metadata path lands on that very entry when it is no
    link. *)
Lemma config_write_target (s : gmap path node) (k : path) :
  (forall t, s !! [".cc-profiles.json"] <> Some (Link t)) ->
  k <> [".cc-profiles.json"] ->
  write_target MAXSYMLINKS s CLAUDE_PATHS.profilesConfig <> Some k.
Proof.
  intros Hplain Hk.
  change CLAUDE_PATHS.profilesConfig with [".cc-profiles.json"].
  unfold MAXSYMLINKS. simpl.
  destruct (s !! [".cc-profiles.json"]) as [[x| |t]|] eqn:Hcfg;
    [congruence|done|by destruct (Hplain t)|congruence].
Qed.

(** What a successful [createProfile] leaves outside the private
    directory and the metadata file. *)
Lemma createProfile_frame (name : string) (s s' : gmap path node)
    (p : Profile.t) :
  createProfile name s = (Ok p, s') ->
  (forall t, s !! [".cc-profiles.json"] <> Some (Link t)) ->
  forall k,
    ¬ ([".claude-" +:+ name] `prefix_of` k) ->
    k <> [".cc-profiles.json"] ->
    s' !! k = s !! k.
Proof.
  intros Hrun Hplain k Hk Hkc.
  pose proof (createProfile_ok _ _ _ _ Hrun) as (_ & Hvalid & Hgone & _).
  pose proof (profile_dir_not_config name) as Hdc.
  revert Hrun. unfold createProfile. rewrite Hvalid. cbn [negb].
  unfold bind at 1, existsSync at 1. rewrite Hgone.
  unfold bind at 1, existsSync at 1.
  destruct (exists_ s CLAUDE_PATHS.mainConfig); [|done]. cbn [negb].
  rewrite getProfilePath_valid in * by done.
  unfold bind at 1, mkdir_p at 1. simpl.
  destruct (s !! [".claude-" +:+ name]) as [[x| |t]|] eqn:Hentry; [done| | |].
  { unfold exists_, realpath, MAXSYMLINKS in Hgone.
    rewrite walk_step in Hgone. simpl in Hgone.
    by rewrite Hentry, walk_nil in Hgone. }
  { unfold exists_ in Hgone.
    by destruct (realpath s [".claude-" +:+ name]). }
  set (s0 := <[ [".claude-" +:+ name] := Dir ]> s).
  assert (s0 !! [".claude-" +:+ name] = Some Dir) as Hdir0
      by apply lookup_insert_eq.
  unfold bind at 1, createSymlinks at 1.
  rewrite getProfilePath_valid by done.
  destruct (createSymlinks_loop _ _ _ s0) as [[created|e] s1] eqn:Hlinks; [|done].
  pose proof (createSymlinks_loop_frame _ _ _ _ _ _ Hdir0 sharedItems_simple Hlinks)
    as Hframe1.
  unfold bind at 1.
  destruct (saveProfileMetadata name s1) as [[[]|e] s2] eqn:Hsave; [|done].
  unfold bind, existsSync, ret. intros [= _ <-].
  rewrite (saveProfileMetadata_frame _ _ _ _ Hsave).
  - rewrite Hframe1 by done. unfold s0. rewrite lookup_insert_ne; [done|].
    intros <-. by apply Hk.
  - apply config_write_target; [|done]. intros t.
    rewrite Hframe1.
    + unfold s0. rewrite lookup_insert_ne; [apply Hplain|]. by intros [=].
    + intros [rest E]. injection E as E _. by apply eq_sym in E.
Qed.


End Creation.



Lemma leftover_credentials_run :
  exists s',
    createProfile (H := Reference.runtime None) "work"
      leftover_credentials_state
    = (Ok (Profile.mk "work" [".claude-work"] [".claude-work"]
             [".claude-work.json"] true (Time 1714979289010)), s').
Proof. eexists. apply pair_eq; [vm_compute; reflexivity|reflexivity]. Qed.



(** *** Removal *)

Section Removal.
Context `{Runtime.t}.

Local Arguments walk : simpl never.

(** In a private directory that is a directory of the home directory,
    [removeSymlinks] succeeds, and all it takes away are entries of that
    directory that are links and stand at the targets of the items. *)
Lemma removeSymlinks_loop_frame (d : string) :
  forall items (s : gmap path node),
    s !! [d] = Some Dir ->
    (forall item, item ∈ items -> simple (SharedItem.name item) = true) ->
    exists s',
      removeSymlinks_loop [d] items s = (Ok tt, s')
      /\ s' !! [d] = Some Dir
      /\ forall k,
          s' !! k = s !! k
          \/ (s' !! k = None
              /\ exists item t,
                  item ∈ items /\ k = [d; SharedItem.name item]
                  /\ s !! k = Some (Link t)).
Proof.
  induction items as [|item items IH]; intros s Hdir Hsimple.
  - exists s. split; [done|]. split; [done|]. by left.
  - assert (simple (SharedItem.name item) = true) as Hitem
        by (apply Hsimple; by left).
    assert (forall item', item' ∈ items ->
              simple (SharedItem.name item') = true) as Hrest
        by (intros item' Hin; apply Hsimple; by right).
    cbn [removeSymlinks_loop]. rewrite join_simple by done.
    change ([d] ++ [SharedItem.name item]) with [d; SharedItem.name item].
    unfold bind at 1. unfold bind at 1, existsSync at 1.
    destruct (exists_ s [d; SharedItem.name item]) eqn:Hthere.
    + destruct (exists_lstat _ _ Hthere) as [n Hn].
      unfold bind at 1, lstatSync at 1. rewrite Hn.
      unfold lstat in Hn. rewrite locate_child in Hn by done. simpl in Hn.
      destruct n as [content| |t]; cbn [isSymbolicLink ret].
      * destruct (IH s Hdir Hrest) as (s' & -> & Hdir' & Hframe).
        exists s'. split; [done|]. split; [done|].
        intros k. destruct (Hframe k) as [?|(? & item' & t & ? & ? & ?)];
          [by left|right]. split; [done|]. exists item', t.
        split; [by right|done].
      * destruct (IH s Hdir Hrest) as (s' & -> & Hdir' & Hframe).
        exists s'. split; [done|]. split; [done|].
        intros k. destruct (Hframe k) as [?|(? & item' & t & ? & ? & ?)];
          [by left|right]. split; [done|]. exists item', t.
        split; [by right|done].
      * unfold unlink. rewrite locate_child by done. cbn [node_at]. rewrite Hn.
        destruct (IH (delete [d; SharedItem.name item] s)) as (s' & -> & Hdir' & Hframe);
          [by rewrite lookup_delete_ne|done|].
        exists s'. split; [done|]. split; [done|].
        intros k. destruct (Hframe k) as [Hk|(Hk & item' & t' & Hin & -> & Hl)].
        -- destruct (decide (k = [d; SharedItem.name item])) as [->|Hne].
           ++ right. rewrite lookup_delete_eq in Hk. split; [done|].
              exists item, t. split; [by left|done].
           ++ left. by rewrite lookup_delete_ne in Hk.
        -- right. split; [done|]. exists item', t'. split; [by right|].
           split; [done|].
           destruct (decide ([d; SharedItem.name item] = [d; SharedItem.name item'])) as [E|E].
           ++ rewrite E in Hl. by rewrite lookup_delete_eq in Hl.
           ++ by rewrite lookup_delete_ne in Hl.
    + cbn [ret]. destruct (IH s Hdir Hrest) as (s' & -> & Hdir' & Hframe).
      exists s'. split; [done|]. split; [done|].
      intros k. destruct (Hframe k) as [?|(? & item' & t & ? & ? & ?)];
        [by left|right]. split; [done|]. exists item', t.
      split; [by right|done].
Qed.

Lemma removeProfileMetadata_frame (name : string) (s s' : gmap path node)
    (r : result unit) :
  removeProfileMetadata name s = (r, s') ->
  forall k,
    write_target MAXSYMLINKS s CLAUDE_PATHS.profilesConfig <> Some k ->
    s' !! k = s !! k.
Proof.
  unfold removeProfileMetadata, bind. rewrite loadProfilesConfig_spec.
  cbv zeta. unfold writeJson.
  repeat match goal with
         | |- context [match ?x with _ => _ end] =>
             lazymatch x with
             | writeFile _ _ _ => fail
             | _ => destruct x
             end
         end;
    try (by intros [= <- <-]); apply writeFile_frame.
Qed.

(** For a valid identifier whose private directory is a directory of
    the home directory, and a metadata file that is no link,
    [removeProfile] leaves every entry of the shared root as it was. *)
Lemma removeProfile_keeps_shared_root
    (name : string) (s s' : gmap path node) (r : result unit) :
  Validation.isValidProfileName name = true ->
  s !! [".claude-" +:+ name] = Some Dir ->
  (forall t, s !! CLAUDE_PATHS.profilesConfig <> Some (Link t)) ->
  removeProfile name s = (r, s') ->
  forall k, [".claude"] `prefix_of` k -> s' !! k = s !! k.
Proof.
  intros Hvalid Hdir Hconfig Hrun k [rest ->].
  pose proof (profile_dir_not_shared name) as Hd.
  pose proof (profile_dir_not_config name) as Hdc.
  pose proof (credentials_not_config name) as Hcc.
  pose proof (credentials_not_shared name) as Hcs.
  change CLAUDE_PATHS.profilesConfig with [".cc-profiles.json"] in *.
  revert Hrun. unfold removeProfile.
  rewrite getProfilePath_valid, getProfileCredentialsPath_valid by done.
  unfold bind at 1, existsSync at 1.
  assert (exists_ s [".claude-" +:+ name] = true) as ->.
  { unfold exists_, realpath, MAXSYMLINKS. rewrite walk_step. simpl.
    by rewrite Hdir, walk_nil. }
  cbn [negb]. unfold bind at 1, removeSymlinks.
  rewrite getProfilePath_valid by done.
  destruct (removeSymlinks_loop_frame _ CLAUDE_PATHS.sharedItems s Hdir
              sharedItems_simple) as (s1 & -> & Hdir1 & Hframe1).
  assert (s1 !! ([".claude"] ++ rest) = s !! ([".claude"] ++ rest)) as H1.
  { destruct (Hframe1 ([".claude"] ++ rest)) as [?|(_ & item & t & _ & E & _)];
      [done|]. by simplify_eq/=. }
  assert (s1 !! [".cc-profiles.json"] = s !! [".cc-profiles.json"]) as Hc1.
  { destruct (Hframe1 [".cc-profiles.json"]) as [?|(_ & item & t & _ & E & _)];
      [done|]. by simplify_eq/=. }
  unfold bind at 1, rm_rf at 1. rewrite locate_top.
  assert (prune [".claude-" +:+ name] s1 !! ([".claude"] ++ rest)
          = s !! ([".claude"] ++ rest)) as H2.
  { rewrite lookup_prune, decide_False; [done|].
    intros [k Hk]. by simplify_eq/=. }
  assert (prune [".claude-" +:+ name] s1 !! [".cc-profiles.json"]
          = s !! [".cc-profiles.json"]) as Hc2.
  { rewrite lookup_prune, decide_False; [done|].
    intros [k Hk]. by simplify_eq/=. }
  set (s2 := prune [".claude-" +:+ name] s1) in *.
  unfold bind at 1. unfold bind at 1, existsSync at 1.
  assert (exists s3 r3,
            (if exists_ s2 [".claude-" +:+ name +:+ ".json"]
             then rm [".claude-" +:+ name +:+ ".json"] else ret tt) s2
            = (r3, s3)
            /\ s3 !! ([".claude"] ++ rest) = s !! ([".claude"] ++ rest)
            /\ s3 !! [".cc-profiles.json"] = s !! [".cc-profiles.json"])
    as (s3 & r3 & -> & H3 & Hc3).
  { destruct (exists_ s2 _); [|by exists s2, (Ok tt)].
    unfold rm. rewrite locate_top.
    destruct (node_at s2 _) as [[x| |t]|]; try (by eexists s2, _);
      (exists (delete [".claude-" +:+ name +:+ ".json"] s2), (Ok tt);
       split; [done|]; rewrite !lookup_delete_ne; [done| |];
       intros E; by simplify_eq/=). }
  destruct r3 as [[]|e]; [|by intros [= <- <-]].
  intros Hmeta. rewrite <- H3.
  apply (removeProfileMetadata_frame _ _ _ _ Hmeta).
  change CLAUDE_PATHS.profilesConfig with [".cc-profiles.json"].
  unfold MAXSYMLINKS. simpl. rewrite Hc3.
  destruct (s !! [".cc-profiles.json"]) as [[x| |t]|] eqn:Hcfg; try done.
  by destruct (Hconfig t).
Qed.

End Removal.

(** C4 fails on the code.  [removeProfile] does not validate its
    argument: for the name "/../.claude" the private directory it
    computes is the shared root, which it deletes with everything
    below it, together with the main credentials file.  And
    [removeSymlinks], for a private directory that is a link to the
    shared root, unlinks the entries of the shared root that are
    links. *)
Theorem removal_reaches_shared_root :
  (getProfilePath "/../.claude" = CLAUDE_PATHS.mainConfig
   /\ getProfileCredentialsPath "/../.claude" = CLAUDE_PATHS.mainCredentials
   /\ installed_state !! [".claude"; "settings.json"] = Some (File "{}")
   /\ removeProfile (H := Reference.runtime None) "/../.claude" installed_state
      = (Ok tt, after_traversal_state)
   /\ exists_ after_traversal_state CLAUDE_PATHS.mainConfig = false
   /\ after_traversal_state !! [".claude"; "settings.json"] = None
   /\ after_traversal_state !! [".claude"; "agents"; "planner.md"] = None
   /\ after_traversal_state !! CLAUDE_PATHS.mainCredentials = None)
  /\ (Validation.isValidProfileName "work" = true
      /\ aliased_state !! [".claude"; "settings.json"]
         = Some (Link ["dotfiles"; "settings.json"])
      /\ removeSymlinks "work" aliased_state = (Ok tt, after_aliased_state)
      /\ after_aliased_state !! [".claude"; "settings.json"] = None).
Proof.
  split.
  - split; [reflexivity|]. split; [reflexivity|]. split; [by vm_compute|].
    split; [run_fs|]. by vm_compute.
  - split; [by vm_compute|]. split; [by vm_compute|].
    split; [run_fs|]. by vm_compute.
Qed.


Lemma loadProfilesConfig_total_witness :
  loadProfilesConfig (H := Reference.runtime None) fresh_profile_state
  = (Ok emptyConfig, fresh_profile_state).
Proof.
  apply (loadProfilesConfig_total (H := Reference.runtime None)).
  by vm_compute.
Defined.

End RegistryFacts.

(** ** The launcher file and the startup file *)

Module ShellFacts.
Import JsString Path Fs Json Runtime Types Paths Shell.
Import FsFacts LauncherSpec Examples.

Lemma append_assoc (a b c : string) : (a +:+ b) +:+ c = a +:+ (b +:+ c).
Proof.
  induction a as [|x a IH]; [reflexivity|].
  change (String x ((a +:+ b) +:+ c) = String x (a +:+ (b +:+ c))).
  by rewrite IH.
Qed.

Lemma trimEnd_spec (s : string) :
  exists trailing,
    s = trimEnd s +:+ trailing /\ all_chars is_space trailing = true.
Proof.
  induction s as [|c rest (w & Hw & Hspace)]; [by exists ""|].
  simpl. destruct (trimEnd rest) as [|c' kept] eqn:Hrest.
  - change (rest = w) in Hw. subst w. destruct (is_space c) eqn:Hc.
    + exists (String c rest). simpl. by rewrite Hc.
    + by exists rest.
  - exists w. split; [|done].
    change (String c rest = String c (String c' kept +:+ w)). by rewrite <- Hw.
Qed.

Section WithRuntime.
Context `{Runtime.t}.

Lemma detectShell_spec (s : gmap path node) :
  detectShell s = (Ok (ShellConfig.mk shell_family (rc_path s) "function"), s).
Proof.
  unfold detectShell, rc_path, shell_family.
  destruct (contains "zsh" _); [reflexivity|].
  destruct (contains "bash" _).
  { unfold bind, existsSync.
    change (join HOME ".bash_profile") with [".bash_profile"].
    by destruct (exists_ s _). }
  destruct (contains "fish" _); reflexivity.
Qed.

Lemma getAliasesFilePath_spec (s : gmap path node) :
  getAliasesFilePath s = (Ok aliases_path, s).
Proof.
  unfold getAliasesFilePath, bind, aliases_path.
  rewrite detectShell_spec. simpl. by destruct (is_fish shell_family).
Qed.

Lemma aliases_content_layout (names : list string) :
  aliases_content shell_family names = layout (rendered names).
Proof.
  unfold aliases_content, layout, rendered, invocation_block, listing_block.
  by destruct (is_fish shell_family).
Qed.

Lemma aliases_path_not_root : aliases_path <> [].
Proof. unfold aliases_path. by destruct (is_fish shell_family). Qed.


Lemma readFile_state (p : path) (s s1 : gmap path node) (r : result string) :
  readFile p s = (r, s1) -> s1 = s.
Proof.
  unfold readFile.
  by destruct (realpath s p ≫= node_at s) as [[x| |t]|]; intros [= <- <-].
Qed.

(** [setupShellIntegration] in one expression. *)
Lemma setupShellIntegration_eq (s : gmap path node) :
  setupShellIntegration s
  = let done := (Ok (SetupResult.mk true (rc_path s)), s) in
    let write content :=
      match writeFile (rc_path s)
              (trimEnd content +:+ nl +:+ nl +:+ integration_block) s with
      | (Ok _, s') => (Ok (SetupResult.mk true (rc_path s)), s')
      | (Throw e, s') => (Throw e, s')
      end in
    if is_fish shell_family then done
    else if exists_ s (rc_path s) then
      match fst (readFile (rc_path s) s) with
      | Ok content =>
          if contains INTEGRATION_MARKER content then done
          else write content
      | Throw e => (Throw e, s)
      end
    else write "".
Proof.
  unfold setupShellIntegration.
  unfold bind at 1. rewrite detectShell_spec.
  cbn [ShellConfig.type ShellConfig.rcFile].
  destruct (is_fish shell_family) eqn:Hfish; [done|].
  unfold bind at 1, isShellIntegrated. unfold bind at 1.
  rewrite detectShell_spec. cbn [ShellConfig.type ShellConfig.rcFile].
  rewrite Hfish.
  unfold bind at 1, existsSync at 1.
  destruct (exists_ s (rc_path s)) eqn:Hthere; cbn [negb ret].
  - unfold bind at 1.
    destruct (readFile (rc_path s) s) as [[content|e] s1] eqn:Hread;
      pose proof (readFile_state _ _ _ _ Hread) as ->; [|done].
    cbn [fst]. destruct (contains INTEGRATION_MARKER content); [done|].
    unfold ret at 1. cbv beta iota.
    unfold bind at 1, existsSync at 1. cbv beta iota. rewrite Hthere.
    unfold bind at 1. rewrite Hread. cbv beta iota.
    unfold bind at 1, integration_block, ret.
    by rewrite !append_assoc.
  - unfold ret at 1. cbv beta iota.
    unfold bind at 1, existsSync at 1. cbv beta iota. rewrite Hthere.
    unfold bind at 1. unfold ret at 1. cbv beta iota.
    unfold bind at 1, integration_block, ret.
    by rewrite !append_assoc.
Qed.

(** C8, as the code has it.  For the family that loads its function
    files by itself, and whenever the startup file already holds the
    marker, [setupShellIntegration] changes nothing.  When it acts,
    it writes the startup file once: the previous content with its
    trailing white space trimmed, a blank line, and the marked block.
    The previous content is a prefix of the new one only up to that
    trailing white space. *)
Theorem setupShellIntegration_spec
    (s s' : gmap path node) (r : SetupResult.t) :
  setupShellIntegration s = (Ok r, s') ->
  r = SetupResult.mk true (rc_path s)
  /\ (if is_fish shell_family
         || (exists_ s (rc_path s)
             && contains INTEGRATION_MARKER (previous_content s))
      then s' = s
      else exists k,
          write_target MAXSYMLINKS s (rc_path s) = Some k
          /\ s' = <[k := File (trimEnd (previous_content s) +:+ nl +:+ nl
                                 +:+ integration_block)]> s)
  /\ exists trailing,
      previous_content s = trimEnd (previous_content s) +:+ trailing
      /\ all_chars is_space trailing = true.
Proof.
  rewrite setupShellIntegration_eq. unfold previous_content. cbv zeta.
  intros Hrun. split; [|split; [|apply trimEnd_spec]]; revert Hrun.
  - destruct (is_fish shell_family); [by intros [= <- <-]|].
    destruct (exists_ s (rc_path s)).
    + destruct (fst (readFile (rc_path s) s)) as [content|e]; [|done].
      destruct (contains INTEGRATION_MARKER content); [by intros [= <- <-]|].
      destruct (writeFile _ _ s) as [[[]|e] s2]; [|done]. by intros [= <- <-].
    + destruct (writeFile _ _ s) as [[[]|e] s2]; [|done]. by intros [= <- <-].
  - destruct (is_fish shell_family); cbn [orb]; [by intros [= <- <-]|].
    destruct (exists_ s (rc_path s)); cbn [andb].
    + destruct (fst (readFile (rc_path s) s)) as [content|e]; [|done].
      destruct (contains INTEGRATION_MARKER content); [by intros [= <- <-]|].
      unfold writeFile.
      destruct (write_target MAXSYMLINKS s (rc_path s)) as [k|]; [|done].
      intros [= <- <-]. by exists k.
    + unfold writeFile.
      destruct (write_target MAXSYMLINKS s (rc_path s)) as [k|]; [|done].
      intros [= <- <-]. by exists k.
Qed.

End WithRuntime.


Lemma setup_on_zshrc :
  setupShellIntegration (H := zsh_runtime) zshrc_state
  = (Ok (SetupResult.mk true [".zshrc"]),
     <[ [".zshrc"] := File ("export EDITOR=vi" +:+ nl +:+ nl
                              +:+ integration_block) ]> zshrc_state).
Proof. reflexivity. Qed.

Lemma setupShellIntegration_spec_witness :
  SetupResult.mk true [".zshrc"]
  = SetupResult.mk true (rc_path (H := zsh_runtime) zshrc_state)
  /\ (if is_fish (shell_family (H := zsh_runtime))
         || (exists_ zshrc_state (rc_path (H := zsh_runtime) zshrc_state)
             && contains INTEGRATION_MARKER
                  (previous_content (H := zsh_runtime) zshrc_state))
      then <[ [".zshrc"] := File ("export EDITOR=vi" +:+ nl +:+ nl
                                    +:+ integration_block) ]> zshrc_state
           = zshrc_state
      else exists k,
          write_target MAXSYMLINKS zshrc_state
            (rc_path (H := zsh_runtime) zshrc_state) = Some k
          /\ <[ [".zshrc"] := File ("export EDITOR=vi" +:+ nl +:+ nl
                                      +:+ integration_block) ]> zshrc_state
             = <[k := File (trimEnd (previous_content (H := zsh_runtime)
                                       zshrc_state)
                            +:+ nl +:+ nl +:+ integration_block)]> zshrc_state)
  /\ exists trailing,
      previous_content (H := zsh_runtime) zshrc_state
      = trimEnd (previous_content (H := zsh_runtime) zshrc_state) +:+ trailing
      /\ all_chars is_space trailing = true.
Proof.
  exact (setupShellIntegration_spec (H := zsh_runtime) zshrc_state _ _
           setup_on_zshrc).
Defined.

(** The sentence as worded fails on a startup file that ends with blank
    lines: the new content starts with the trimmed text, of which the
    previous content is no prefix. *)
Lemma setup_keeps_previous_content_fails :
  ¬ AsWorded.setup_keeps_previous_content (H := zsh_runtime) zshrc_state.
Proof.
  intros Hworded.
  destruct (Hworded _ _ _ eq_refl setup_on_zshrc) as [Hsame|[block Hread]].
  - apply (f_equal (fun m => m !! [".zshrc"])) in Hsame.
    rewrite lookup_insert_eq in Hsame. vm_compute in Hsame. discriminate.
  - apply (f_equal fst) in Hread. vm_compute in Hread.
    injection Hread as Hread. discriminate.
Qed.

End ShellFacts.

(** ** The names the validator accepts *)

Module NameFacts.
Import JsString Validation Path Paths LinkSpec PathFacts.

Lemma lower_char_name_char (c : ascii) :
  is_name_char c = true -> lower_char c = c.
Proof.
  unfold is_name_char, is_lower, is_digit, lower_char, between.
  intros Hc.
  destruct (65 <=? code c)%nat eqn:E1, (code c <=? 90)%nat eqn:E2;
    cbn [andb]; try (destruct (192 <=? code c)%nat eqn:E3,
                              (code c <=? 222)%nat eqn:E4; cbn [andb]);
    try done; exfalso;
    repeat match goal with
           | H : (_ <=? _)%nat = true |- _ => apply Nat.leb_le in H
           | H : (_ <=? _)%nat = false |- _ => apply Nat.leb_gt in H
           end;
    repeat (apply orb_prop in Hc as [Hc|Hc]);
    try (apply andb_prop in Hc as [H1 H2];
         apply Nat.leb_le in H1; apply Nat.leb_le in H2; lia);
    try (apply Nat.eqb_eq in Hc; lia).
Qed.

Lemma toLowerCase_name_chars (x : string) :
  all_chars is_name_char x = true -> toLowerCase x = x.
Proof.
  induction x as [|c x IH]; [done|]. simpl.
  intros [Hc Hx]%andb_prop. unfold toLowerCase in *. simpl.
  by rewrite lower_char_name_char, IH.
Qed.

Lemma pattern_name_chars (name : string) :
  PROFILE_NAME_PATTERN name = true
  <-> starts_lower name = true /\ all_chars is_name_char name = true.
Proof.
  destruct name as [|c rest]; simpl; [by split; [|intros []]|].
  split.
  - intros [Hc Hrest]%andb_prop. split; [done|].
    assert (is_name_char c = true) as -> by (unfold is_name_char; by rewrite Hc).
    done.
  - intros [Hc [_ Hrest]%andb_prop]. by rewrite Hc, Hrest.
Qed.

Lemma includes_elem_of (l : list string) (x : string) :
  includes l x = true <-> x ∈ l.
Proof.
  unfold includes. rewrite existsb_exists. split.
  - intros (y & Hy%list_elem_of_In & ->%String.eqb_eq). done.
  - intros Hx. exists x. split; [by apply list_elem_of_In|apply String.eqb_refl].
Qed.

(** X1. The names [isValidProfileName] accepts are the strings of 1
    to 32 characters among a-z, 0-9 and the hyphen that start with a
    letter and are none of the reserved words.  Such a name is its own
    lowercasing, so the comparison with the reserved words is an exact
    one. *)
Theorem isValidProfileName_shape (name : string) :
  (isValidProfileName name = true
   <-> (1 <= String.length name <= MAX_PROFILE_NAME_LENGTH)%nat
       /\ starts_lower name = true
       /\ all_chars is_name_char name = true
       /\ name ∉ RESERVED_NAMES)
  /\ (isValidProfileName name = true -> toLowerCase name = name).
Proof.
  assert (isValidProfileName name = true -> toLowerCase name = name) as Hlower.
  { unfold isValidProfileName.
    destruct (is_blank name); [done|]. destruct (_ <? _)%nat; [done|].
    destruct (PROFILE_NAME_PATTERN name) eqn:Hp; [intros _|done].
    apply pattern_name_chars in Hp as [_ Hp]. by apply toLowerCase_name_chars. }
  split; [|done]. split.
  - intros Hvalid. pose proof (Hlower Hvalid) as Hsame.
    revert Hvalid. unfold isValidProfileName. rewrite Hsame.
    destruct name as [|c rest] eqn:Hname; [done|]. rewrite <- Hname.
    assert (is_blank name = false) as -> by by rewrite Hname.
    destruct (Nat.ltb_spec MAX_PROFILE_NAME_LENGTH (String.length name)); [done|].
    destruct (PROFILE_NAME_PATTERN name) eqn:Hp; [|done]. cbn [negb].
    apply pattern_name_chars in Hp as [Hs Hp].
    destruct (includes RESERVED_NAMES name) eqn:Hr; [done|]. intros _.
    split; [|split; [done|split; [done|]]].
    + split; [|done]. rewrite Hname. simpl. lia.
    + intros Hin%includes_elem_of. congruence.
  - intros ([Hlo Hhi] & Hs & Hp & Hr). unfold isValidProfileName.
    rewrite (toLowerCase_name_chars _ Hp).
    destruct name as [|c rest] eqn:Hname; [simpl in Hlo; lia|].
    rewrite <- Hname in *.
    assert (is_blank name = false) as -> by by rewrite Hname.
    destruct (Nat.ltb_spec MAX_PROFILE_NAME_LENGTH (String.length name)); [lia|].
    assert (PROFILE_NAME_PATTERN name = true) as ->
        by by apply pattern_name_chars.
    cbn [negb].
    destruct (includes RESERVED_NAMES name) eqn:Hi; [|done].
    by apply includes_elem_of in Hi.
Qed.

Lemma isValidProfileName_shape_witness :
  (isValidProfileName "work-2" = true
   <-> (1 <= String.length "work-2" <= MAX_PROFILE_NAME_LENGTH)%nat
       /\ starts_lower "work-2" = true
       /\ all_chars is_name_char "work-2" = true
       /\ "work-2" ∉ RESERVED_NAMES)
  /\ (isValidProfileName "work-2" = true -> toLowerCase "work-2" = "work-2").
Proof. exact (isValidProfileName_shape "work-2"). Defined.

Lemma append_inv_tail (a b c : string) : a +:+ c = b +:+ c -> a = b.
Proof.
  revert b. induction a as [|x a IH]; intros [|y b] E.
  - done.
  - apply (f_equal String.length) in E.
    rewrite !length_append in E. simpl in E. lia.
  - apply (f_equal String.length) in E.
    rewrite !length_append in E. simpl in E. lia.
  - change (String x (a +:+ c) = String y (b +:+ c)) in E.
    injection E as -> E. by rewrite (IH _ E).
Qed.

Lemma valid_name_chars (name : string) :
  isValidProfileName name = true -> all_chars is_name_char name = true.
Proof.
  unfold isValidProfileName.
  destruct (is_blank name); [done|]. destruct (_ <? _)%nat; [done|].
  destruct (PROFILE_NAME_PATTERN name) eqn:Hp; [intros _|done].
  by apply pattern_name_chars in Hp as [_ Hp].
Qed.

(** X2. For valid names the two paths of a profile are single entries
    of the home directory, .claude-NAME and .claude-NAME.json: no
    valid name leads out of the home directory or onto the shared
    root, the main credentials, the metadata file or the launcher file,
    and two profiles never share a path. *)
Theorem valid_names_paths (n1 n2 : string) :
  isValidProfileName n1 = true ->
  isValidProfileName n2 = true ->
  getProfilePath n1 = [".claude-" +:+ n1]
  /\ getProfileCredentialsPath n1 = [".claude-" +:+ n1 +:+ ".json"]
  /\ (getProfilePath n1
        ∉ [CLAUDE_PATHS.mainConfig; CLAUDE_PATHS.mainCredentials;
           CLAUDE_PATHS.profilesConfig; Shell.ALIASES_FILE])
  /\ (getProfileCredentialsPath n1
        ∉ [CLAUDE_PATHS.mainConfig; CLAUDE_PATHS.mainCredentials;
           CLAUDE_PATHS.profilesConfig; Shell.ALIASES_FILE])
  /\ (getProfilePath n1 = getProfilePath n2 -> n1 = n2)
  /\ (getProfileCredentialsPath n1 = getProfileCredentialsPath n2 -> n1 = n2)
  /\ getProfilePath n1 <> getProfileCredentialsPath n2.
Proof.
  intros H1 H2.
  rewrite !getProfilePath_valid, !getProfileCredentialsPath_valid by done.
  split; [done|]. split; [done|].
  split; [|split; [|split; [|split]]].
  - intros Hin.
    repeat (apply elem_of_cons in Hin as [E|Hin]; [by revert E; intros [=]|]).
    by apply elem_of_nil in Hin.
  - intros Hin.
    repeat (apply elem_of_cons in Hin as [E|Hin]; [by revert E; intros [=]|]).
    by apply elem_of_nil in Hin.
  - intros E. injection E as E. exact E.
  - intros E. injection E as E.
    change (n1 +:+ ".json" = n2 +:+ ".json") in E.
    by apply append_inv_tail in E.
  - intros E. injection E as E. change (n1 = n2 +:+ ".json") in E.
    apply valid_name_chars in H1. rewrite E, all_chars_append in H1.
    apply andb_prop in H1 as [_ H1]. by vm_compute in H1.
Qed.

Lemma valid_names_paths_witness :
  getProfilePath "work" = [".claude-" +:+ "work"]
  /\ getProfileCredentialsPath "work" = [".claude-" +:+ "work" +:+ ".json"]
  /\ (getProfilePath "work"
        ∉ [CLAUDE_PATHS.mainConfig; CLAUDE_PATHS.mainCredentials;
           CLAUDE_PATHS.profilesConfig; Shell.ALIASES_FILE])
  /\ (getProfileCredentialsPath "work"
        ∉ [CLAUDE_PATHS.mainConfig; CLAUDE_PATHS.mainCredentials;
           CLAUDE_PATHS.profilesConfig; Shell.ALIASES_FILE])
  /\ (getProfilePath "work" = getProfilePath "home" -> "work" = "home")
  /\ (getProfileCredentialsPath "work" = getProfileCredentialsPath "home"
      -> "work" = "home")
  /\ getProfilePath "work" <> getProfileCredentialsPath "home".
Proof.
  apply (valid_names_paths "work" "home"); reflexivity.
Defined.

End NameFacts.

(** ** The path helpers of utils/fs.ts *)

Module FsHelperFacts.
Import Path Fs FsHelpers FsFacts SymlinksFacts.

Local Arguments walk : simpl never.

(** A resolution that ends in a directory goes on to an entry of that
    directory that is no link. *)
Lemma walk_snoc_plain (s : gmap path node) c n :
  isSymbolicLink n = false ->
  forall fuel (p cur d : path),
    walk fuel s cur p = Some d ->
    s !! (d ++ [c]) = Some n ->
    node_at s d = Some Dir ->
    walk fuel s cur (p ++ [c]) = Some (d ++ [c]).
Proof.
  intros Hn fuel. induction fuel as [fuel IHfuel] using lt_wf_ind.
  induction p as [|c0 p IHp]; intros cur d Hw Hentry Hdir.
  - rewrite walk_nil in Hw. simplify_eq. simpl. rewrite walk_step, Hentry.
    destruct n as [x| |t]; [done|apply walk_nil|done].
  - rewrite <- app_comm_cons, walk_step. rewrite walk_step in Hw.
    destruct (s !! (cur ++ [c0])) as [[content| |t]|] eqn:Hl; [| | |done].
    + destruct p; [|done]. simplify_eq.
      rewrite node_at_snoc in Hdir. congruence.
    + by apply IHp.
    + destruct fuel as [|fuel']; [done|].
      rewrite app_assoc.
      by apply (IHfuel fuel' (Nat.lt_succ_diag_r _)).
Qed.

(** An entry that [lstat] sees and that is no link exists. *)
Lemma lstat_plain_exists (s : gmap path node) (p : path) n :
  lstat s p = Some n -> isSymbolicLink n = false -> exists_ s p = true.
Proof.
  unfold lstat, locate, exists_, realpath.
  destruct p as [|c0 p0]; [by rewrite walk_nil|].
  pose proof (removelast_last (c0 :: p0)) as Hsplit.
  set (q := removelast (c0 :: p0)) in *.
  set (c := List.last (c0 :: p0) "") in *.
  destruct (walk MAXSYMLINKS s [] q) as [d|] eqn:Hd; [|done].
  destruct (node_at s d) as [[x| |t]|] eqn:Hnode; try done.
  simpl. rewrite node_at_snoc. intros Hentry Hn.
  rewrite Hsplit by done.
  by rewrite (walk_snoc_plain _ _ _ Hn _ _ _ _ Hd Hentry Hnode).
Qed.

(** X3. The three tests of utils/fs.ts never throw and never write.
    [isDirectory] and [isSymlink] look at the entry itself, and
    [pathExists] follows links: what [isDirectory] accepts exists and
    is no link, what [isSymlink] accepts is a link, and a path that
    fails both [pathExists] and [isSymlink] has no entry at all. *)
Theorem path_helpers_consistent (p : path) (s : gmap path node) :
  exists e l d : bool,
    pathExists p s = (Ok e, s)
    /\ isSymlink p s = (Ok l, s)
    /\ isDirectory p s = (Ok d, s)
    /\ (d = true -> e = true /\ l = false)
    /\ (l = true -> exists t, lstat s p = Some (Link t))
    /\ (e = false -> l = false -> lstat s p = None).
Proof.
  unfold pathExists, isSymlink, isDirectory, existsSync, try_catch, bind,
    lstatSync, ret.
  destruct (lstat s p) as [n|] eqn:Hl.
  - exists (exists_ s p), (isSymbolicLink n), (Stats_isDirectory n).
    repeat (split; [done|]).
    split; [|split].
    + destruct n as [x| |t]; try done. intros _.
      by rewrite (lstat_plain_exists _ _ _ Hl).
    + destruct n as [x| |t]; try done. intros _. by exists t.
    + intros He Hn. by rewrite (lstat_plain_exists _ _ _ Hl Hn) in He.
  - exists (exists_ s p), false, false. by repeat split.
Qed.

Lemma prune_subseteq (k : path) (s : gmap path node) : prune k s ⊆ s.
Proof. apply map_filter_subseteq. Qed.

(** Once the entry a path names is removed with everything below it,
    the path does not resolve. *)
Lemma exists_after_prune (s : gmap path node) (p k : path) :
  p <> [] ->
  locate s p = Some k ->
  exists_ (prune k s) p = false.
Proof.
  intros Hp Hloc. unfold exists_, realpath.
  destruct (walk MAXSYMLINKS (prune k s) [] p) as [r|] eqn:Hw; [|done].
  rewrite (removelast_last p Hp) in Hw.
  apply walk_snoc in Hw as (d & Hd & _ & [nd Hnd]); [|done].
  apply (walk_subseteq _ s) in Hd; [|apply prune_subseteq].
  unfold locate, realpath in Hloc. destruct p as [|c p]; [done|].
  rewrite Hd in Hloc.
  destruct (node_at s d) as [[content| |t]|]; simplify_eq.
  by rewrite lookup_prune, decide_True in Hnd.
Qed.



End FsHelperFacts.

(** ** Links: verification, removal, status *)

Module LinkFacts.
Import Path Fs Types Paths Symlinks FsFacts PathFacts LinkSpec.
Import SymlinksFacts FsHelperFacts Examples Scenarios LinkTests.

Local Arguments walk : simpl never.

(** A path that exists can be examined by [stat]. *)
Lemma stat_exists (s : gmap path node) (p : path) :
  exists_ s p = true ->
  try_catch (stat p;; ret true) (ret false) s = (Ok true, s).
Proof.
  unfold exists_, try_catch, bind, stat, ret.
  destruct (realpath s p) as [r|] eqn:Hr; [intros _|done].
  apply walk_node in Hr as [n Hn]; [|by eexists].
  simpl. by rewrite Hn.
Qed.

Lemma verifySymlinks_value (profileName : string) (s : gmap path node) :
  verifySymlinks profileName s
  = (Ok (exists_ s (join (getProfilePath profileName) "settings.json")
         && is_link (lstat s (join (getProfilePath profileName)
                                "settings.json"))), s).
Proof.
  unfold verifySymlinks, CLAUDE_PATHS.sharedItems.
  cbn [verifySymlinks_loop SharedItem.required SharedItem.name negb].
  set (target := join (getProfilePath profileName) "settings.json").
  unfold bind at 1, existsSync at 1.
  destruct (exists_ s target) eqn:He; cbn [negb andb]; [|done].
  destruct (exists_lstat _ _ He) as [n Hn].
  unfold bind at 1, lstatSync at 1. rewrite Hn.
  destruct n as [content| |t]; cbn [isSymbolicLink negb is_link]; [done|done|].
  unfold bind at 1. by rewrite (stat_exists _ _ He).
Qed.

(** X5. [verifySymlinks] never throws and never writes.  Its answer
    depends on one entry only, settings.json in the profile directory:
    it is true exactly when that entry is a symbolic link that
    resolves, wherever the link leads and whatever the six optional
    items are. *)
Theorem verifySymlinks_spec (profileName : string) (s : gmap path node) :
  exists ok : bool,
    verifySymlinks profileName s = (Ok ok, s)
    /\ (ok = true
        <-> exists t r,
            lstat s (join (getProfilePath profileName) "settings.json")
              = Some (Link t)
            /\ realpath s (join (getProfilePath profileName) "settings.json")
               = Some r).
Proof.
  eexists. split; [apply verifySymlinks_value|].
  unfold exists_.
  destruct (realpath s _) as [r|], (lstat s _) as [[x| |t]|]; simpl;
    split; try done; try (by intros (t' & r' & ? & ?)).
  intros _. by exists t, r.
Qed.

(** X6. [getSymlinkStatus] never throws and never writes; it reports
    the seven shared items in their order, and in every report
    [targetExists] equals [isSymlink], which implies [exists]: since
    existence is tested through the link, no report shows a link whose
    target is missing. *)
Theorem getSymlinkStatus_shape (profileName : string) (s : gmap path node) :
  exists statuses,
    getSymlinkStatus profileName s = (Ok statuses, s)
    /\ map LinkStatus.name statuses
       = map SharedItem.name CLAUDE_PATHS.sharedItems
    /\ Forall (fun st =>
                 LinkStatus.targetExists st = LinkStatus.isSymlink st
                 /\ (LinkStatus.isSymlink st = true ->
                     LinkStatus.exists_ st = true)) statuses.
Proof.
  eexists. split; [apply getSymlinkStatus_loop_spec|]. rewrite app_nil_l.
  split.
  - rewrite <- list_fmap_compose. by apply list_fmap_ext.
  - apply Forall_fmap, Forall_forall. intros item _. simpl.
    split; [done|]. by intros [? _]%andb_prop.
Qed.

(** *** One turn of the loops in a directory of the home directory *)

Section In_dir.
Context (d : string) (s : gmap path node) (Hdir : s !! [d] = Some Dir).
Context (item : SharedItem.t) (Hsimple : simple (SharedItem.name item) = true).

Lemma lstat_in_dir :
  lstat s [d; SharedItem.name item] = s !! [d; SharedItem.name item].
Proof. unfold lstat. by rewrite locate_child. Qed.

Lemma removeSymlinks_loop_cons rest :
  removeSymlinks_loop [d] (item :: rest) s
  = removeSymlinks_loop [d] rest
      (if exists_ s [d; SharedItem.name item]
          && is_link (s !! [d; SharedItem.name item])
       then delete [d; SharedItem.name item] s
       else s).
Proof.
  cbn [removeSymlinks_loop]. rewrite join_simple by done.
  change ([d] ++ [SharedItem.name item]) with [d; SharedItem.name item].
  unfold bind at 1. unfold bind at 1, existsSync at 1.
  destruct (exists_ s [d; SharedItem.name item]) eqn:Hthere; cbn [andb]; [|done].
  destruct (exists_lstat _ _ Hthere) as [n Hn].
  unfold bind at 1, lstatSync at 1. rewrite Hn.
  rewrite lstat_in_dir in Hn. rewrite Hn.
  destruct n as [content| |t]; cbn [isSymbolicLink is_link ret]; [done|done|].
  unfold unlink. rewrite locate_child by done. cbn [node_at]. by rewrite Hn.
Qed.

End In_dir.

(** Removing entries cannot make a path resolve. *)
Lemma exists_subseteq (s1 s2 : gmap path node) (p : path) :
  s1 ⊆ s2 -> exists_ s1 p = true -> exists_ s2 p = true.
Proof.
  intros Hsub. unfold exists_, realpath.
  destruct (walk MAXSYMLINKS s1 [] p) as [r|] eqn:Hw; [intros _|done].
  by rewrite (walk_subseteq _ _ Hsub _ _ _ _ Hw).
Qed.

(** After the loop of [removeSymlinks], no target of an item is a link
    that resolves; the loop only deletes. *)
Lemma removeSymlinks_loop_clears (d : string) :
  forall items (s : gmap path node),
    s !! [d] = Some Dir ->
    (forall item, item ∈ items -> simple (SharedItem.name item) = true) ->
    exists s',
      removeSymlinks_loop [d] items s = (Ok tt, s')
      /\ s' ⊆ s
      /\ s' !! [d] = Some Dir
      /\ forall item,
          item ∈ items ->
          exists_ s' [d; SharedItem.name item]
          && is_link (s' !! [d; SharedItem.name item]) = false.
Proof.
  induction items as [|item items IH]; intros s Hdir Hsimple.
  - exists s. split; [done|]. split; [done|]. split; [done|].
    intros item Hin. by apply elem_of_nil in Hin.
  - assert (simple (SharedItem.name item) = true) as Hitem
        by (apply Hsimple; by left).
    assert (forall item', item' ∈ items ->
              simple (SharedItem.name item') = true) as Hrest
        by (intros item' Hin; apply Hsimple; by right).
    rewrite removeSymlinks_loop_cons by done.
    set (target := [d; SharedItem.name item]).
    set (s1 := if exists_ s target && is_link (s !! target)
               then delete target s else s).
    assert (s1 ⊆ s) as Hsub1.
    { unfold s1. destruct (_ && _); [apply delete_subseteq|done]. }
    assert (s1 !! [d] = Some Dir) as Hdir1.
    { unfold s1. destruct (_ && _); [|done].
      rewrite lookup_delete_ne; [done|]. unfold target. by intros [=]. }
    destruct (IH s1 Hdir1 Hrest) as (s' & Hrun & Hsub & Hdir' & Hclear).
    exists s'. split; [done|]. split; [by transitivity s1|]. split; [done|].
    intros item' [->|Hin]%elem_of_cons; [|by apply Hclear].
    fold target.
    destruct (exists_ s' target) eqn:He; [|done].
    destruct (s' !! target) as [[x| |t]|] eqn:Hl; try done. exfalso.
    pose proof (lookup_weaken _ _ _ _ Hl Hsub) as Hl1.
    pose proof (lookup_weaken _ _ _ _ Hl1 Hsub1) as Hl0.
    pose proof (exists_subseteq _ _ _ (transitivity Hsub Hsub1) He) as He0.
    unfold s1 in Hl1. rewrite He0, Hl0 in Hl1. simpl in Hl1.
    by rewrite lookup_delete_eq in Hl1.
Qed.

(** X7. In a profile directory that is a directory of the home
    directory, [removeSymlinks] succeeds and only deletes: each entry
    it takes away was a symbolic link at the place of a shared item,
    and files and directories kept in the profile stay.  Afterwards
    [verifySymlinks] answers false and [getSymlinkStatus] reports no
    item as a symbolic link. *)
Theorem removeSymlinks_clears_links
    (profileName : string) (s : gmap path node) :
  Validation.isValidProfileName profileName = true ->
  s !! [".claude-" +:+ profileName] = Some Dir ->
  exists s',
    removeSymlinks profileName s = (Ok tt, s')
    /\ (forall k,
           s' !! k = s !! k
           \/ (s' !! k = None
               /\ exists item t,
                   item ∈ CLAUDE_PATHS.sharedItems
                   /\ k = [".claude-" +:+ profileName; SharedItem.name item]
                   /\ s !! k = Some (Link t)))
    /\ verifySymlinks profileName s' = (Ok false, s')
    /\ exists statuses,
        getSymlinkStatus profileName s' = (Ok statuses, s')
        /\ Forall (fun st => LinkStatus.isSymlink st = false) statuses.
Proof.
  intros Hvalid Hdir.
  destruct (removeSymlinks_loop_clears _ CLAUDE_PATHS.sharedItems s Hdir
              sharedItems_simple) as (s' & Hrun & Hsub & Hdir' & Hclear).
  destruct (RegistryFacts.removeSymlinks_loop_frame _ CLAUDE_PATHS.sharedItems
              s Hdir sharedItems_simple) as (s'' & Hrun' & _ & Hframe).
  assert (s'' = s') as -> by congruence.
  exists s'. unfold removeSymlinks, getSymlinkStatus.
  rewrite getProfilePath_valid by done.
  split; [done|]. split; [done|]. split.
  - rewrite verifySymlinks_value, getProfilePath_valid by done.
    change (join [".claude-" +:+ profileName] "settings.json")
      with [".claude-" +:+ profileName; "settings.json"].
    pose proof (Hclear (SharedItem.mk "settings.json" file true)) as Hc.
    pose proof (lstat_in_dir _ _ Hdir' (SharedItem.mk "settings.json" file true))
      as Hls.
    simpl in Hc, Hls. rewrite Hls, Hc; [done|]. by left.
  - eexists. split; [apply getSymlinkStatus_loop_spec|]. rewrite app_nil_l.
    apply Forall_fmap, Forall_forall. intros item Hin. simpl.
    rewrite join_simple by by apply sharedItems_simple.
    change ([".claude-" +:+ profileName] ++ [SharedItem.name item])
      with [".claude-" +:+ profileName; SharedItem.name item].
    rewrite (lstat_in_dir _ _ Hdir').
    pose proof (Hclear item Hin) as Hc. unfold is_link in Hc.
    destruct (exists_ s' _); [|done].
    by destruct (s' !! _) as [[x| |t]|].
Qed.

Lemma removeSymlinks_clears_links_witness :
  exists s',
    removeSymlinks "work" installed_state = (Ok tt, s')
    /\ (forall k,
           s' !! k = installed_state !! k
           \/ (s' !! k = None
               /\ exists item t,
                   item ∈ CLAUDE_PATHS.sharedItems
                   /\ k = [".claude-" +:+ "work"; SharedItem.name item]
                   /\ installed_state !! k = Some (Link t)))
    /\ verifySymlinks "work" s' = (Ok false, s')
    /\ exists statuses,
        getSymlinkStatus "work" s' = (Ok statuses, s')
        /\ Forall (fun st => LinkStatus.isSymlink st = false) statuses.
Proof.
  apply (removeSymlinks_clears_links "work" installed_state); reflexivity.
Defined.





End LinkFacts.

(** ** The metadata document *)

Module DocFacts.
Import Json.

Lemma assoc_set_eq k v l : assoc k (assoc_set k v l) = Some v.
Proof.
  induction l as [|[k' v'] l IH]; simpl; [by rewrite String.eqb_refl|].
  destruct (String.eqb k k') eqn:E; simpl; by rewrite ?String.eqb_refl, ?E.
Qed.

Lemma assoc_set_ne k k' v l :
  k' <> k -> assoc k' (assoc_set k v l) = assoc k' l.
Proof.
  intros Hne. induction l as [|[k0 v0] l IH]; simpl.
  - by apply String.eqb_neq in Hne as ->.
  - destruct (String.eqb k k0) eqn:E; simpl.
    + apply String.eqb_eq in E as ->.
      by apply String.eqb_neq in Hne as ->.
    + by rewrite IH.
Qed.

Lemma assoc_delete_eq k l : assoc k (assoc_delete k l) = None.
Proof.
  induction l as [|[k' v'] l IH]; simpl; [done|].
  destruct (String.eqb k k') eqn:E; simpl; by rewrite ?E.
Qed.

Lemma assoc_delete_ne k k' l :
  k' <> k -> assoc k' (assoc_delete k l) = assoc k' l.
Proof.
  intros Hne. induction l as [|[k0 v0] l IH]; simpl; [done|].
  destruct (String.eqb k k0) eqn:E; simpl.
  - apply String.eqb_eq in E as <-.
    by apply String.eqb_neq in Hne as ->.
  - by rewrite IH.
Qed.

(** Registering a new name and taking it out again gives the list back. *)
Lemma assoc_delete_set_fresh k v l :
  assoc k l = None -> assoc_delete k (assoc_set k v l) = l.
Proof.
  induction l as [|[k' v'] l IH]; simpl.
  - by rewrite String.eqb_refl.
  - destruct (String.eqb k k') eqn:E; [done|]. simpl. rewrite E.
    intros Hl. by rewrite IH.
Qed.

Lemma assoc_set_same k v l : assoc k l = Some v -> assoc_set k v l = l.
Proof.
  induction l as [|[k' v'] l IH]; simpl; [done|].
  destruct (String.eqb k k') eqn:E.
  - apply String.eqb_eq in E as ->. by intros [= ->].
  - intros Hl. by rewrite IH.
Qed.

Lemma assoc_set_set k v w l :
  assoc_set k v (assoc_set k w l) = assoc_set k v l.
Proof.
  induction l as [|[k' v'] l IH]; simpl; [by rewrite String.eqb_refl|].
  destruct (String.eqb k k') eqn:E; simpl.
  - by rewrite String.eqb_refl.
  - by rewrite E, IH.
Qed.

Lemma keys_assoc_set k v l : k ∈ map fst (assoc_set k v l).
Proof.
  induction l as [|[k' v'] l IH]; simpl; [by left|].
  destruct (String.eqb k k'); simpl; [by left|by right].
Qed.

End DocFacts.

(** ** The registry: creation, lookup, removal *)

Module RegistryMoreFacts.
Import Path Fs Json Runtime Types Paths FsUtils ProfileOps Symlinks Shell.
Import FsFacts PathFacts LinkSpec SymlinksFacts RegistrySpec RegistryFacts.
Import FsHelperFacts LinkFacts LinkTests DocFacts RegistryDocs.
Import Examples Scenarios.

Local Arguments walk : simpl never.

(** *** Entries of the home directory that are no links *)

Lemma exists_top (s : gmap path node) (c : string) :
  not_link (s !! [c]) ->
  exists_ s [c] = match s !! [c] with Some _ => true | None => false end.
Proof.
  intros Hn. unfold exists_, realpath, MAXSYMLINKS. rewrite walk_step. simpl.
  destruct (s !! [c]) as [[x| |t]|]; rewrite ?walk_nil; try done.
  by destruct (Hn t).
Qed.

Lemma readFile_top (s : gmap path node) (c : string) :
  not_link (s !! [c]) ->
  readFile [c] s
  = (match s !! [c] with
     | Some (File x) => Ok x
     | Some _ => Throw (IOError EISDIR)
     | None => Throw (IOError ENOENT)
     end, s).
Proof.
  intros Hn. unfold readFile, realpath, MAXSYMLINKS. rewrite walk_step. simpl.
  destruct (s !! [c]) as [[x| |t]|] eqn:Hl; rewrite ?walk_nil; simpl;
    rewrite ?Hl; try done.
  by destruct (Hn t).
Qed.

Lemma write_target_top (s : gmap path node) (c : string) :
  not_link (s !! [c]) ->
  write_target MAXSYMLINKS s [c]
  = match s !! [c] with Some Dir => None | _ => Some [c] end.
Proof.
  intros Hn. unfold MAXSYMLINKS. simpl.
  destruct (s !! [c]) as [[x| |t]|]; try done. by destruct (Hn t).
Qed.

(** A write never lands on a directory. *)
Lemma write_target_not_dir (s : gmap path node) :
  forall fuel (p k : path),
    write_target fuel s p = Some k -> node_at s k <> Some Dir.
Proof.
  induction fuel as [|fuel IH]; intros p k; simpl;
    destruct (locate s p) as [k0|]; try done;
    destruct (node_at s k0) as [[x| |t]|] eqn:Hn; try done;
    try (intros [= <-]; congruence).
  apply IH.
Qed.

(** *** The loop of [createSymlinks], whatever it finds *)

(** One turn of the loop in a directory of the home directory either
    throws and leaves the state as it is, or goes on in a state that
    differs only at and below the target of the item. *)
Lemma createSymlinks_loop_turn (d : string) (s : gmap path node)
    (item : SharedItem.t) rest created :
  s !! [d] = Some Dir ->
  simple (SharedItem.name item) = true ->
  (exists e, createSymlinks_loop [d] (item :: rest) created s = (Throw e, s))
  \/ exists s1 created1,
      createSymlinks_loop [d] (item :: rest) created s
      = createSymlinks_loop [d] rest created1 s1
      /\ s1 !! [d] = Some Dir
      /\ forall k, ¬ ([d; SharedItem.name item] `prefix_of` k) ->
                   s1 !! k = s !! k.
Proof.
  intros Hdir Hitem.
  remember (createSymlinks_loop [d] (item :: rest) created s) as res eqn:Hres.
  revert Hres. cbn [createSymlinks_loop].
  rewrite (join_simple [d]) by done.
  change ([d] ++ [SharedItem.name item]) with [d; SharedItem.name item].
  set (target := [d; SharedItem.name item]).
  set (source := join CLAUDE_PATHS.mainConfig (SharedItem.name item)).
  assert (¬ (target `prefix_of` [d])) as Hnd.
  { intros [k E]. unfold target in E. by simplify_eq/=. }
  assert (forall s0 : gmap path node,
            s0 !! [d] = Some Dir -> locate s0 target = Some target) as Hloc
      by (intros; by apply locate_child).
  assert (forall s0 : gmap path node,
            s0 !! [d] = Some Dir ->
            (forall k, ¬ (target `prefix_of` k) -> s0 !! k = s !! k) ->
            s0 = s \/ s0 !! target = None ->
            forall created0,
              res = (symlink source target;;
                     createSymlinks_loop [d] rest created0) s0 ->
              (exists e, res = (Throw e, s))
              \/ exists s1 created1,
                  res = createSymlinks_loop [d] rest created1 s1
                  /\ s1 !! [d] = Some Dir
                  /\ forall k, ¬ (target `prefix_of` k) -> s1 !! k = s !! k)
    as Hlink.
  { intros s0 Hdir0 Hsame Hcase created0. unfold bind at 1, symlink at 1.
    rewrite (Hloc _ Hdir0). unfold node_at, target at 1. fold target.
    destruct (s0 !! target) eqn:Ht.
    - destruct Hcase as [->|Hcase]; [|congruence]. intros ->. left. by eexists.
    - intros ->. right.
      exists (<[target := Link source]> s0), created0. split; [done|]. split.
      + rewrite lookup_insert_ne; [done|]. unfold target. by intros [=].
      + intros k Hk. rewrite lookup_insert_ne; [by apply Hsame|].
        intros <-. by apply Hk. }
  unfold bind at 1, existsSync at 1.
  destruct (exists_ s source); cbn [negb].
  2:{ destruct (SharedItem.required item); intros ->; [left; by eexists|].
      right. by exists s, created. }
  unfold bind at 1, existsSync at 1.
  destruct (exists_ s target) eqn:He.
  - destruct (exists_lstat _ _ He) as [n Hn].
    unfold bind at 1. unfold bind at 1, lstatSync at 1. rewrite Hn.
    destruct n as [content| |t]; cbn [isSymbolicLink negb ret].
    + unfold bind at 1, rm_rf at 1. rewrite (Hloc _ Hdir). apply Hlink.
      * by rewrite lookup_prune, decide_False.
      * intros k Hk. by rewrite lookup_prune, decide_False.
      * right. by rewrite lookup_prune, decide_True.
    + unfold bind at 1, rm_rf at 1. rewrite (Hloc _ Hdir). apply Hlink.
      * by rewrite lookup_prune, decide_False.
      * intros k Hk. by rewrite lookup_prune, decide_False.
      * right. by rewrite lookup_prune, decide_True.
    + intros ->. right. by exists s, created.
  - unfold bind at 1. cbn [ret]. apply Hlink; [done|done|by left].
Qed.

(** The loop changes entries at and below the targets of its items
    only, whether it returns or throws. *)
Lemma createSymlinks_loop_footprint (d : string) :
  forall items (s s' : gmap path node) created r,
    s !! [d] = Some Dir ->
    (forall item, item ∈ items -> simple (SharedItem.name item) = true) ->
    createSymlinks_loop [d] items created s = (r, s') ->
    forall k,
      (forall item, item ∈ items ->
                    ¬ ([d; SharedItem.name item] `prefix_of` k)) ->
      s' !! k = s !! k.
Proof.
  induction items as [|item items IH]; intros s s' created r Hdir Hsimple.
  - by intros [= <- <-].
  - assert (simple (SharedItem.name item) = true) as Hitem
        by (apply Hsimple; by left).
    destruct (createSymlinks_loop_turn d s item items created Hdir Hitem)
      as [[e ->]|(s1 & created1 & -> & Hdir1 & Hsame)].
    + by intros [= <- <-].
    + intros Hrun k Hk.
      rewrite (IH _ _ _ _ Hdir1 (fun i Hi => Hsimple i (list_elem_of_further _ _ _ Hi))
                 Hrun k (fun i Hi => Hk i (list_elem_of_further _ _ _ Hi))).
      apply Hsame, Hk. by left.
Qed.

(** *** Writing the document *)

Section WithRuntime.
Context `{Runtime.t}.

Lemma loadProfilesConfig_stored (s : gmap path node) :
  loadProfilesConfig s = (Ok (stored_config s), s).
Proof. apply loadProfilesConfig_spec. Qed.

Lemma saveProfileMetadata_run (name : string) (s : gmap path node) :
  saveProfileMetadata name s
  = match with_profile (stored_config s) name with
    | Some doc => writeFile CLAUDE_PATHS.profilesConfig (JSON_stringify doc) s
    | None => (Throw TypeError, s)
    end.
Proof.
  unfold saveProfileMetadata, bind. rewrite loadProfilesConfig_stored.
  unfold with_profile, writeJson, metadata_of, throw.
  destruct (stored_config s) as [| | | | |props]; try done.
  by destruct (get_prop (JObject props) "profiles") as [[| | | | |]|].
Qed.

Lemma removeProfileMetadata_run (name : string) (s : gmap path node) :
  removeProfileMetadata name s
  = match without_profile (stored_config s) name with
    | Some doc => writeFile CLAUDE_PATHS.profilesConfig (JSON_stringify doc) s
    | None => (Throw TypeError, s)
    end.
Proof.
  unfold removeProfileMetadata, bind. rewrite loadProfilesConfig_stored.
  unfold without_profile, writeJson, throw.
  destruct (stored_config s) as [| | | | |props];
    by destruct (get_prop _ "profiles") as [[| | | | |]|].
Qed.

(** The stored document depends on the metadata entry alone, when that
    entry is no link. *)
Lemma stored_config_same (s1 s2 : gmap path node) :
  not_link (s1 !! [".cc-profiles.json"]) ->
  s2 !! [".cc-profiles.json"] = s1 !! [".cc-profiles.json"] ->
  stored_config s2 = stored_config s1.
Proof.
  intros Hn Hsame. unfold stored_config.
  change CLAUDE_PATHS.profilesConfig with [".cc-profiles.json"].
  rewrite !readFile_top by (by rewrite ?Hsame). by rewrite Hsame.
Qed.

(** The document a state holds once [doc] is written to the metadata
    file, for a runtime that reads back what it wrote. *)
Lemma stored_config_written (s : gmap path node) (doc : value) :
  s !! [".cc-profiles.json"] = Some (File (JSON_stringify doc)) ->
  JSON_parse (JSON_stringify doc) = Some doc ->
  truthy doc = true ->
  stored_config s = doc.
Proof.
  intros Hfile Hparse Htruthy. unfold stored_config.
  change CLAUDE_PATHS.profilesConfig with [".cc-profiles.json"].
  rewrite readFile_top by (intros t; by rewrite Hfile).
  rewrite Hfile. cbn [fst]. rewrite Hparse.
  change (default JNull (Some doc)) with doc. by rewrite Htruthy.
Qed.

(** *** [createProfile] past its guards *)

Lemma createProfile_past_guards (name : string) (s : gmap path node) :
  Validation.isValidProfileName name = true ->
  s !! [".claude-" +:+ name] = None ->
  exists_ s CLAUDE_PATHS.mainConfig = true ->
  createProfile name s
  = match createSymlinks_loop [".claude-" +:+ name] CLAUDE_PATHS.sharedItems []
            (<[ [".claude-" +:+ name] := Dir ]> s) with
    | (Ok _, s1) =>
        match saveProfileMetadata name s1 with
        | (Ok _, s2) =>
            (Ok (Profile.mk name [".claude-" +:+ name] [".claude-" +:+ name]
                   [".claude-" +:+ name +:+ ".json"]
                   (exists_ s2 [".claude-" +:+ name +:+ ".json"])
                   (Time Date_now)), s2)
        | (Throw e, s2) => (Throw e, s2)
        end
    | (Throw e, s1) => (Throw e, s1)
    end.
Proof.
  intros Hvalid Hfresh Hmain. unfold createProfile. rewrite Hvalid. cbn [negb].
  rewrite getProfilePath_valid, getProfileCredentialsPath_valid by done.
  unfold bind at 1, existsSync at 1.
  assert (exists_ s [".claude-" +:+ name] = false) as ->.
  { rewrite exists_top; [by rewrite Hfresh|]. intros t. by rewrite Hfresh. }
  unfold bind at 1, existsSync at 1. rewrite Hmain. cbn [negb].
  unfold bind at 1, mkdir_p at 1. cbn [mkdir_from app]. rewrite Hfresh.
  unfold bind at 1, createSymlinks at 1.
  rewrite getProfilePath_valid by done.
  destruct (createSymlinks_loop _ _ _ _) as [[created|e] s1]; [|done].
  unfold bind at 1.
  by destruct (saveProfileMetadata name s1) as [[[]|e] s2].
Qed.

Lemma fresh_dir_after_links (name : string) (s s1 : gmap path node)
    (r : result (list SymlinkTarget.t)) :
  createSymlinks_loop [".claude-" +:+ name] CLAUDE_PATHS.sharedItems []
    (<[ [".claude-" +:+ name] := Dir ]> s) = (r, s1) ->
  s1 !! [".claude-" +:+ name] = Some Dir
  /\ forall k, ¬ ([".claude-" +:+ name] `prefix_of` k) -> s1 !! k = s !! k.
Proof.
  intros Hrun.
  pose proof (createSymlinks_loop_footprint _ _ _ _ _ _
                (lookup_insert_eq _ _ _) sharedItems_simple Hrun) as Hfoot.
  split.
  - rewrite Hfoot; [apply lookup_insert_eq|].
    intros item _ [k E]. clear -E. by injection E.
  - intros k Hk. rewrite Hfoot.
    + rewrite lookup_insert_ne; [done|]. intros <-. by apply Hk.
    + intros item _ [rest ->]. apply Hk.
      by exists (SharedItem.name item :: rest).
Qed.

(** X10. A call of [createProfile] that one of its three guards
    refuses changes nothing.  A call that fails later is not rolled
    back: the new private directory stays, so that the same call, made
    again, is refused because the profile already exists. *)
Theorem createProfile_failure
    (name : string) (s s' : gmap path node) (e : error) :
  createProfile name s = (Throw e, s') ->
  if negb (Validation.isValidProfileName name)
  then e = InvalidName /\ s' = s
  else if exists_ s (getProfilePath name)
  then e = AlreadyExists name /\ s' = s
  else if negb (exists_ s CLAUDE_PATHS.mainConfig)
  then e = BaseNotConfigured /\ s' = s
  else s !! getProfilePath name = None ->
       s' !! getProfilePath name = Some Dir
       /\ createProfile name s' = (Throw (AlreadyExists name), s').
Proof.
  destruct (Validation.isValidProfileName name) eqn:Hvalid; cbn [negb].
  2:{ unfold createProfile. rewrite Hvalid. by intros [= <- <-]. }
  destruct (exists_ s (getProfilePath name)) eqn:Hthere.
  { unfold createProfile. rewrite Hvalid. cbn [negb].
    unfold bind, existsSync. rewrite Hthere. by intros [= <- <-]. }
  destruct (exists_ s CLAUDE_PATHS.mainConfig) eqn:Hmain; cbn [negb].
  2:{ unfold createProfile. rewrite Hvalid. cbn [negb].
      unfold bind, existsSync. rewrite Hthere, Hmain. by intros [= <- <-]. }
  rewrite getProfilePath_valid by done. intros Hrun Hfresh.
  assert (s' !! [".claude-" +:+ name] = Some Dir) as Hdir.
  { rewrite createProfile_past_guards in Hrun by done.
    destruct (createSymlinks_loop _ _ _ _) as [[created|e1] s1] eqn:Hlinks;
      apply fresh_dir_after_links in Hlinks as [Hdir1 _].
    - destruct (saveProfileMetadata name s1) as [[[]|e2] s2] eqn:Hsave; [done|].
      injection Hrun as _ <-.
      rewrite (saveProfileMetadata_frame _ _ _ _ Hsave); [done|].
      intros Hw%write_target_not_dir. by rewrite node_at_not_root in Hw.
    - by injection Hrun as _ <-. }
  split; [done|].
  unfold createProfile. rewrite Hvalid. cbn [negb].
  rewrite getProfilePath_valid by done.
  unfold bind, existsSync.
  rewrite exists_top; [by rewrite Hdir|]. intros t. by rewrite Hdir.
Qed.

(** A successful [createProfile] found no entry at the place of the
    private directory. *)
Lemma createProfile_ok_fresh (name : string) (s s' : gmap path node)
    (p : Profile.t) :
  createProfile name s = (Ok p, s') ->
  Validation.isValidProfileName name = true
  /\ s !! [".claude-" +:+ name] = None
  /\ exists_ s CLAUDE_PATHS.mainConfig = true.
Proof.
  intros Hrun.
  pose proof (createProfile_ok _ _ _ _ Hrun) as (_ & Hvalid & Hgone & Hmain).
  split; [done|]. split; [|done].
  revert Hrun. unfold createProfile. rewrite Hvalid. cbn [negb].
  unfold bind at 1, existsSync at 1. rewrite Hgone.
  unfold bind at 1, existsSync at 1. rewrite Hmain. cbn [negb].
  rewrite getProfilePath_valid in * by done.
  unfold bind at 1, mkdir_p at 1. cbn [mkdir_from app].
  destruct (s !! [".claude-" +:+ name]) as [[x| |t]|] eqn:Hentry; try done.
  - unfold exists_, realpath, MAXSYMLINKS in Hgone.
    rewrite walk_step in Hgone. simpl in Hgone.
    by rewrite Hentry, walk_nil in Hgone.
  - unfold exists_ in Hgone.
    by destruct (realpath s [".claude-" +:+ name]).
Qed.

Lemma getProfileNamesFromConfig_written (s : gmap path node)
    (props profiles : list (string * value)) :
  s !! [".cc-profiles.json"] = Some (File (JSON_stringify (JObject props))) ->
  JSON_parse (JSON_stringify (JObject props)) = Some (JObject props) ->
  assoc "profiles" props = Some (JObject profiles) ->
  getProfileNamesFromConfig s = (Ok (map fst profiles), s).
Proof.
  intros Hfile Hparse Hprofiles. unfold getProfileNamesFromConfig, try_catch, bind.
  change (join HOME ".cc-profiles.json") with [".cc-profiles.json"].
  rewrite readFile_top by (intros t; by rewrite Hfile).
  rewrite Hfile, Hparse. cbn [get_prop]. by rewrite Hprofiles.
Qed.

(** X11. A successful [createProfile] registers the profile.  With a
    metadata file that is no link and a document whose profiles are
    an object, the file then holds the document with one entry more or
    replaced, under the name of the profile: its name, the creation
    time as an ISO text and its alias; the other entries and the other
    properties of the document are kept, and the private directory is
    there.  On a runtime that reads this document back as written,
    [loadProfilesConfig] returns it and [getProfileNamesFromConfig]
    returns its names, the new one among them. *)
Theorem createProfile_registers
    (name : string) (s s' : gmap path node) (p : Profile.t)
    (config : value) (profiles : list (string * value)) :
  createProfile name s = (Ok p, s') ->
  not_link (s !! [".cc-profiles.json"]) ->
  loadProfilesConfig s = (Ok config, s) ->
  get_prop config "profiles" = Some (JObject profiles) ->
  exists doc,
    s' !! [".cc-profiles.json"] = Some (File (JSON_stringify doc))
    /\ get_prop doc "profiles"
       = Some (JObject (assoc_set name (metadata_of name) profiles))
    /\ (forall key, key <> "profiles" -> get_prop doc key = get_prop config key)
    /\ assoc name (assoc_set name (metadata_of name) profiles)
       = Some (metadata_of name)
    /\ (forall other, other <> name ->
          assoc other (assoc_set name (metadata_of name) profiles)
          = assoc other profiles)
    /\ s' !! [".claude-" +:+ name] = Some Dir
    /\ (JSON_parse (JSON_stringify doc) = Some doc ->
        loadProfilesConfig s' = (Ok doc, s')
        /\ getProfileNamesFromConfig s'
           = (Ok (map fst (assoc_set name (metadata_of name) profiles)), s')
        /\ name ∈ map fst (assoc_set name (metadata_of name) profiles)).
Proof.
  intros Hrun Hplain Hload Hprofiles.
  rewrite loadProfilesConfig_stored in Hload. injection Hload as Hconfig.
  destruct (createProfile_ok_fresh _ _ _ _ Hrun) as (Hvalid & Hfresh & Hmain).
  rewrite createProfile_past_guards in Hrun by done.
  destruct (createSymlinks_loop _ _ _ _) as [[created|e1] s1] eqn:Hlinks; [|done].
  apply fresh_dir_after_links in Hlinks as [Hdir1 Hframe1].
  destruct (saveProfileMetadata name s1) as [[[]|e2] s2] eqn:Hsave; [|done].
  injection Hrun as _ <-.
  assert (s1 !! [".cc-profiles.json"] = s !! [".cc-profiles.json"]) as Hcfg1.
  { apply Hframe1. intros [rest E]. injection E as E _. discriminate E. }
  rewrite saveProfileMetadata_run in Hsave.
  rewrite (stored_config_same s s1), Hconfig in Hsave by done.
  destruct config as [| | | | |props]; try done.
  unfold with_profile in Hsave. rewrite Hprofiles in Hsave.
  set (profiles' := assoc_set name (metadata_of name) profiles) in *.
  set (doc := JObject (assoc_set "profiles" (JObject profiles') props)) in *.
  unfold writeFile in Hsave.
  change CLAUDE_PATHS.profilesConfig with [".cc-profiles.json"] in Hsave.
  rewrite write_target_top in Hsave by by rewrite Hcfg1.
  assert (s2 = <[ [".cc-profiles.json"] := File (JSON_stringify doc) ]> s1) as ->.
  { by destruct (s1 !! [".cc-profiles.json"]) as [[x| |t]|]; simplify_eq. }
  exists doc.
  assert (assoc "profiles" (assoc_set "profiles" (JObject profiles') props)
          = Some (JObject profiles')) as Hdoc by apply assoc_set_eq.
  split; [apply lookup_insert_eq|]. split; [exact Hdoc|].
  split; [intros key Hkey; by apply assoc_set_ne|].
  split; [apply assoc_set_eq|].
  split; [intros other Hother; by apply assoc_set_ne|].
  split.
  { rewrite lookup_insert_ne; [done|]. intros E. injection E as E.
    discriminate E. }
  intros Hparse. split; [|split].
  - rewrite loadProfilesConfig_stored. f_equal. f_equal.
    apply stored_config_written; [apply lookup_insert_eq|done|done].
  - apply (getProfileNamesFromConfig_written _ _ _ (lookup_insert_eq _ _ _)
             Hparse Hdoc).
  - apply keys_assoc_set.
Qed.

(** *** Names listed and names registered *)

Lemma keys_entries (v : value) (es : list (string * value)) :
  entries (Some v) = Some es ->
  (if truthy v then keys v else []) = map fst es.
Proof.
  destruct v as [|b|lit|str|items|props]; simpl; try done.
  - intros [= <-]. by destruct b.
  - intros [= <-]. by destruct (negb _).
  - intros [= <-]. destruct str as [|c str]; [done|].
    cbn [negb String.eqb]. by rewrite fmap_imap.
  - intros [= <-]. by rewrite fmap_imap.
  - by intros [= <-].
Qed.

Lemma getProfileNamesFromConfig_entries (s : gmap path node)
    (es : list (string * value)) :
  entries (get_prop (stored_config s) "profiles") = Some es ->
  getProfileNamesFromConfig s = (Ok (map fst es), s).
Proof.
  unfold getProfileNamesFromConfig, try_catch, bind, stored_config.
  change (join HOME ".cc-profiles.json") with CLAUDE_PATHS.profilesConfig.
  destruct (readFile CLAUDE_PATHS.profilesConfig s) as [[content|e] s1] eqn:Hread;
    pose proof (ShellFacts.readFile_state _ _ _ _ Hread) as ->; cbn [fst].
  2:{ by intros [= <-]. }
  destruct (JSON_parse content) as [v|]; [|by intros [= <-]].
  change (default JNull (Some v)) with v.
  destruct v as [|b|lit|str|items|props]; cbn [get_prop];
    try (destruct (truthy _); by intros [= <-]).
  cbn [truthy get_prop].
  destruct (assoc "profiles" props) as [pv|]; [|done].
  intros Hes. unfold ret. by rewrite (keys_entries _ _ Hes).
Qed.

(** What [getProfileNames] returns, when it returns. *)
Lemma getProfileNames_run (s s1 : gmap path node) (names : list string) :
  getProfileNames s = (Ok names, s1) ->
  s1 = s
  /\ exists es,
      entries (get_prop (stored_config s) "profiles") = Some es
      /\ names ≡ₚ map fst (on_disk s es).
Proof.
  unfold getProfileNames, listProfiles. unfold bind at 1 2.
  rewrite loadProfilesConfig_stored.
  destruct (entries _) as [es|]; [|done].
  destruct (listProfiles_loop_run s es []) as [Hstate Hresult].
  unfold bind.
  destruct (listProfiles_loop es [] s) as [[ps|e] s2]; [|done].
  simpl in Hstate. subst s2. intros [= <- <-]. split; [done|].
  exists es. split; [done|].
  rewrite sort_perm, (Hresult ps eq_refl). simpl.
  by rewrite <- list_fmap_compose.
Qed.

(** X12. The names [getProfileNames] lists are among the names
    [getProfileNamesFromConfig] reads from the metadata file, which
    are all the registered ones: a registered name is listed exactly
    when its private directory exists.  The launcher file, made from
    the second list, thus keeps a function for a profile whose
    directory is gone. *)
Theorem listed_names_are_registered
    (s s1 : gmap path node) (names : list string) :
  getProfileNames s = (Ok names, s1) ->
  s1 = s
  /\ exists registered,
      getProfileNamesFromConfig s = (Ok registered, s)
      /\ forall name,
          name ∈ names
          <-> name ∈ registered /\ exists_ s (getProfilePath name) = true.
Proof.
  intros (-> & es & Hes & Hnames)%getProfileNames_run. split; [done|].
  exists (map fst es). split; [by apply getProfileNamesFromConfig_entries|].
  intros name. rewrite Hnames. unfold on_disk. split.
  - intros ([n m] & -> & Hin)%list_elem_of_fmap.
    apply list_elem_of_In, filter_In in Hin as [Hin Hthere].
    split; [|done]. apply list_elem_of_fmap. exists (n, m).
    split; [done|by apply list_elem_of_In].
  - intros [([n m] & -> & Hin)%list_elem_of_fmap Hthere].
    apply list_elem_of_fmap. exists (n, m). split; [done|].
    apply list_elem_of_In, filter_In. split; [by apply list_elem_of_In|done].
Qed.

(** X13. When [getProfile] returns a profile, the file system is as
    it was, the profile bears the name asked for, its private
    directory exists, its authenticated flag is the existence of its
    credentials file, and the name is registered in the metadata
    file. *)
Theorem getProfile_found
    (name : string) (s s1 : gmap path node) (p : Profile.t) :
  getProfile name s = (Ok (Some p), s1) ->
  s1 = s
  /\ Profile.name p = name
  /\ Profile.path p = getProfilePath name
  /\ Profile.credentialsPath p = getProfileCredentialsPath name
  /\ exists_ s (getProfilePath name) = true
  /\ Profile.isAuthenticated p = exists_ s (getProfileCredentialsPath name)
  /\ exists registered,
      getProfileNamesFromConfig s = (Ok registered, s) /\ name ∈ registered.
Proof.
  unfold getProfile, listProfiles. unfold bind at 1 2.
  rewrite loadProfilesConfig_stored.
  destruct (entries _) as [es|] eqn:Hes; [|done].
  destruct (listProfiles_loop_run s es []) as [Hstate Hresult].
  unfold bind.
  destruct (listProfiles_loop es [] s) as [[ps|e] s2]; [|done].
  simpl in Hstate. subst s2. intros [= Hfind <-]. split; [done|].
  apply find_some in Hfind as [Hin Hname%String.eqb_eq].
  apply list_elem_of_In in Hin. rewrite sort_perm, (Hresult ps eq_refl) in Hin.
  simpl in Hin. apply list_elem_of_fmap in Hin as ([n m] & -> & Hin).
  apply list_elem_of_In, filter_In in Hin as [Hin Hthere]. simpl in *.
  subst n. do 5 (split; [done|]).
  exists (map fst es). split; [by apply getProfileNamesFromConfig_entries|].
  apply list_elem_of_fmap. exists (name, m).
  split; [done|by apply list_elem_of_In].
Qed.

(** X14. When the metadata file is missing or does not hold JSON, no
    profile is listed and none is found, whatever directories the
    home directory holds; the calls succeed and write nothing. *)
Theorem listProfiles_without_metadata (s : gmap path node) :
  read_fails s ->
  listProfiles s = (Ok [], s)
  /\ getProfileNames s = (Ok [], s)
  /\ (forall name, getProfile name s = (Ok None, s))
  /\ getProfileNamesFromConfig s = (Ok [], s).
Proof.
  intros Hfails.
  assert (stored_config s = emptyConfig) as Hstored.
  { unfold stored_config. unfold read_fails in Hfails.
    destruct (fst (readFile _ s)) as [content|e]; [|done]. by rewrite Hfails. }
  assert (listProfiles s = (Ok [], s)) as Hlist.
  { unfold listProfiles, bind. by rewrite loadProfilesConfig_stored, Hstored. }
  split; [done|]. unfold getProfileNames, getProfile, bind. rewrite Hlist.
  split; [done|]. split; [done|].
  apply (getProfileNamesFromConfig_entries s []). by rewrite Hstored.
Qed.

(** *** Removal *)

Section Removal_run.
Context (name d cred : string).
Context (Hdc : d <> ".cc-profiles.json") (Hcc : cred <> ".cc-profiles.json").
Context (Hcd : d <> cred).

Local Ltac apart :=
  let E := fresh in intros E; cbn [app] in E; congruence.

(** The steps of [removeProfile] after its guard, for a private
    directory [d] and a credentials file [cred] of the home
    directory. *)
Lemma removal_steps (s s' : gmap path node) :
  s !! [d] = Some Dir ->
  not_link (s !! [".cc-profiles.json"]) ->
  not_link (s !! [cred]) ->
  (removeSymlinks_loop [d] CLAUDE_PATHS.sharedItems;;
   rm_rf [d];;
   credentialsThere <- existsSync [cred];;
   (if (credentialsThere : bool) then rm [cred] else ret tt);;
   removeProfileMetadata name) s = (Ok tt, s') ->
  (forall k, [d] `prefix_of` k -> s' !! k = None)
  /\ s' !! [cred] = None
  /\ (exists doc,
        without_profile (stored_config s) name = Some doc
        /\ s' !! [".cc-profiles.json"] = Some (File (JSON_stringify doc)))
  /\ (forall k,
        ¬ ([d] `prefix_of` k) -> k <> [cred] -> k <> [".cc-profiles.json"] ->
        s' !! k = s !! k).
Proof.
  intros Hdir Hcfg Hcred.
  unfold bind at 1.
  destruct (removeSymlinks_loop_frame d CLAUDE_PATHS.sharedItems s Hdir
              sharedItems_simple) as (s1 & -> & Hdir1 & Hframe1).
  assert (forall k, ¬ ([d] `prefix_of` k) -> s1 !! k = s !! k) as Hout1.
  { intros k Hk.
    destruct (Hframe1 k) as [?|(_ & item & t & _ & -> & _)]; [done|].
    destruct Hk. by exists [SharedItem.name item]. }
  unfold bind at 1, rm_rf at 1. rewrite locate_top.
  set (s2 := prune [d] s1).
  assert (forall k, s2 !! k = if decide ([d] `prefix_of` k) then None
                              else s !! k) as Hs2.
  { intros k. unfold s2. rewrite lookup_prune. case_decide; [done|].
    by apply Hout1. }
  assert (forall c : string, c <> d -> s2 !! [c] = s !! [c]) as Htop2.
  { intros c Hc. rewrite Hs2, decide_False; [done|].
    intros [rest E]. cbn [app] in E. congruence. }
  unfold bind at 1. unfold bind at 1, existsSync at 1.
  rewrite exists_top by (rewrite Htop2; [done|congruence]).
  rewrite Htop2 by congruence.
  assert (exists s3,
            (if match s !! [cred] with Some _ => true | None => false end
             then rm [cred] else ret tt) s2
            = (match s !! [cred] with Some Dir => Throw (IOError EISDIR)
                                    | _ => Ok tt end, s3)
            /\ s3 !! [cred] = (match s !! [cred] with Some Dir => Some Dir
                                                     | _ => None end)
            /\ forall k, k <> [cred] -> s3 !! k = s2 !! k)
    as (s3 & -> & Hc3 & Hsame3).
  { destruct (s !! [cred]) as [[x| |t]|] eqn:Hc.
    - exists (delete [cred] s2). unfold rm. rewrite locate_top. cbn [node_at].
      rewrite Htop2, Hc by congruence. split; [done|].
      split; [apply lookup_delete_eq|]. intros k Hk. by rewrite lookup_delete_ne.
    - exists s2. unfold rm. rewrite locate_top. cbn [node_at].
      rewrite Htop2, Hc by congruence. by repeat split.
    - by destruct (Hcred t).
    - exists s2. split; [done|].
      split; [rewrite Htop2; [done|congruence]|done]. }
  destruct (s !! [cred]) as [[x| |t]|] eqn:Hc; try done;
    (assert (s3 !! [".cc-profiles.json"] = s !! [".cc-profiles.json"]) as Hcfg3
       by (rewrite Hsame3 by congruence; apply Htop2; congruence);
     rewrite removeProfileMetadata_run, (stored_config_same s s3) by done;
     destruct (without_profile (stored_config s) name) as [doc|]; [|done];
     unfold writeFile;
     change CLAUDE_PATHS.profilesConfig with [".cc-profiles.json"];
     rewrite write_target_top by (by rewrite Hcfg3);
     rewrite Hcfg3; intros Hrun;
     assert (s' = <[ [".cc-profiles.json"] := File (JSON_stringify doc) ]> s3)
       as -> by (by destruct (s !! [".cc-profiles.json"]) as [[y| |t']|];
                 simplify_eq);
     split; [|split; [|split]];
     [ intros k [rest ->];
       rewrite lookup_insert_ne by apart;
       rewrite Hsame3 by apart;
       rewrite Hs2, decide_True; [done|by exists rest]
     | rewrite lookup_insert_ne by congruence; exact Hc3
     | exists doc; split; [done|apply lookup_insert_eq]
     | intros k Hk Hkc Hkf;
       rewrite lookup_insert_ne by done;
       rewrite Hsame3 by done;
       by rewrite Hs2, decide_False ]).
Qed.

End Removal_run.

(** X15. For a valid name whose private directory is a directory of
    the home directory, with a metadata file and a credentials entry
    that are no links, a successful [removeProfile] leaves nothing at
    or below the private directory, no credentials file, and a
    metadata file that holds the document without the entry of the
    profile; [profileExists] then answers false, and every other
    entry of the file system is as it was. *)
Theorem removeProfile_removes
    (name : string) (s s' : gmap path node) :
  Validation.isValidProfileName name = true ->
  s !! [".claude-" +:+ name] = Some Dir ->
  not_link (s !! [".cc-profiles.json"]) ->
  not_link (s !! [".claude-" +:+ name +:+ ".json"]) ->
  removeProfile name s = (Ok tt, s') ->
  (forall k, [".claude-" +:+ name] `prefix_of` k -> s' !! k = None)
  /\ s' !! [".claude-" +:+ name +:+ ".json"] = None
  /\ profileExists name s' = (Ok false, s')
  /\ (exists doc,
        without_profile (stored_config s) name = Some doc
        /\ s' !! [".cc-profiles.json"] = Some (File (JSON_stringify doc)))
  /\ (forall k,
        ¬ ([".claude-" +:+ name] `prefix_of` k) ->
        k <> [".claude-" +:+ name +:+ ".json"] ->
        k <> [".cc-profiles.json"] ->
        s' !! k = s !! k).
Proof.
  intros Hvalid Hdir Hcfg Hcred Hrun.
  unfold removeProfile, removeSymlinks in Hrun.
  rewrite getProfilePath_valid, getProfileCredentialsPath_valid in Hrun by done.
  unfold bind at 1, existsSync at 1 in Hrun.
  rewrite exists_top in Hrun by (intros t; by rewrite Hdir).
  rewrite Hdir in Hrun. cbn [negb] in Hrun.
  unfold profileExists, existsSync. rewrite getProfilePath_valid by done.
  apply (removal_steps name _ _ (profile_dir_not_config name)
           (credentials_not_config name)
           (credentials_not_profile_dir ".claude-" name) _ _ Hdir Hcfg Hcred)
    in Hrun as (Hgone & Hnocred & Hdoc & Hrest).
  split; [done|]. split; [done|]. split; [|by split].
  rewrite exists_top; rewrite (Hgone [".claude-" +:+ name]); done.
Qed.

(** X16. Registering a name that is not in the document and taking it
    out again gives the document back: on a runtime that reads the
    intermediate document as written, [saveProfileMetadata] followed
    by [removeProfileMetadata] succeeds and leaves the metadata file
    with the serialised original document, and everything else as it
    was. *)
Theorem register_then_unregister
    (name : string) (s : gmap path node)
    (props profiles : list (string * value)) :
  not_link (s !! [".cc-profiles.json"]) ->
  s !! [".cc-profiles.json"] <> Some Dir ->
  loadProfilesConfig s = (Ok (JObject props), s) ->
  assoc "profiles" props = Some (JObject profiles) ->
  assoc name profiles = None ->
  JSON_parse
    (JSON_stringify
       (JObject (assoc_set "profiles"
                   (JObject (assoc_set name (metadata_of name) profiles))
                   props)))
  = Some (JObject (assoc_set "profiles"
                     (JObject (assoc_set name (metadata_of name) profiles))
                     props)) ->
  exists s1,
    saveProfileMetadata name s = (Ok tt, s1)
    /\ loadProfilesConfig s1
       = (Ok (JObject (assoc_set "profiles"
                         (JObject (assoc_set name (metadata_of name) profiles))
                         props)), s1)
    /\ removeProfileMetadata name s1
       = (Ok tt,
          <[ [".cc-profiles.json"] := File (JSON_stringify (JObject props)) ]> s).
Proof.
  intros Hplain Hnodir Hload Hprofiles Hfresh Hparse.
  rewrite loadProfilesConfig_stored in Hload. injection Hload as Hconfig.
  set (doc1 := JObject (assoc_set "profiles"
                          (JObject (assoc_set name (metadata_of name) profiles))
                          props)) in *.
  exists (<[ [".cc-profiles.json"] := File (JSON_stringify doc1) ]> s).
  assert (stored_config
            (<[ [".cc-profiles.json"] := File (JSON_stringify doc1) ]> s)
          = doc1) as Hstored1
      by (apply stored_config_written; [apply lookup_insert_eq|done|done]).
  split; [|split].
  - rewrite saveProfileMetadata_run, Hconfig. unfold with_profile.
    cbn [get_prop]. rewrite Hprofiles. fold doc1. unfold writeFile.
    change CLAUDE_PATHS.profilesConfig with [".cc-profiles.json"].
    rewrite write_target_top by done.
    by destruct (s !! [".cc-profiles.json"]) as [[x| |t]|].
  - by rewrite loadProfilesConfig_stored, Hstored1.
  - rewrite removeProfileMetadata_run, Hstored1. unfold without_profile, doc1.
    cbn [get_prop]. rewrite assoc_set_eq, assoc_set_set.
    rewrite assoc_delete_set_fresh by done.
    rewrite (assoc_set_same _ _ _ Hprofiles).
    unfold writeFile.
    change CLAUDE_PATHS.profilesConfig with [".cc-profiles.json"].
    rewrite write_target_top by (intros t; by rewrite lookup_insert_eq).
    rewrite lookup_insert_eq. by rewrite insert_insert_eq.
Qed.

End WithRuntime.

Lemma createProfile_failure_witness :
  if negb (Validation.isValidProfileName "work")
  then MissingRequiredSharedResource [".claude"; "settings.json"] = InvalidName
       /\ orphan_state = unconfigured_state
  else if exists_ unconfigured_state (getProfilePath "work")
  then MissingRequiredSharedResource [".claude"; "settings.json"]
       = AlreadyExists "work"
       /\ orphan_state = unconfigured_state
  else if negb (exists_ unconfigured_state CLAUDE_PATHS.mainConfig)
  then MissingRequiredSharedResource [".claude"; "settings.json"]
       = BaseNotConfigured
       /\ orphan_state = unconfigured_state
  else unconfigured_state !! getProfilePath "work" = None ->
       orphan_state !! getProfilePath "work" = Some Dir
       /\ createProfile (H := Reference.runtime None) "work" orphan_state
          = (Throw (AlreadyExists "work"), orphan_state).
Proof.
  apply (createProfile_failure (H := Reference.runtime None) "work"
           unconfigured_state orphan_state).
  apply pair_eq; [vm_compute; reflexivity|same_state].
Defined.

Lemma createProfile_registers_witness :
  exists doc,
    registered_state !! [".cc-profiles.json"]
    = Some (File (JSON_stringify (t := Reference.runtime None) doc))
    /\ get_prop doc "profiles"
       = Some (JObject (assoc_set "work"
                          (metadata_of (H := Reference.runtime None) "work") []))
    /\ (forall key, key <> "profiles" ->
          get_prop doc key
          = get_prop emptyConfig key)
    /\ assoc "work"
         (assoc_set "work" (metadata_of (H := Reference.runtime None) "work") [])
       = Some (metadata_of (H := Reference.runtime None) "work")
    /\ (forall other, other <> "work" ->
          assoc other
            (assoc_set "work" (metadata_of (H := Reference.runtime None) "work") [])
          = assoc other [])
    /\ registered_state !! [".claude-" +:+ "work"] = Some Dir
    /\ (JSON_parse (t := Reference.runtime None)
          (JSON_stringify (t := Reference.runtime None) doc) = Some doc ->
        loadProfilesConfig (H := Reference.runtime None) registered_state
        = (Ok doc, registered_state)
        /\ getProfileNamesFromConfig (H := Reference.runtime None) registered_state
           = (Ok (map fst
                    (assoc_set "work"
                       (metadata_of (H := Reference.runtime None) "work") [])),
              registered_state)
        /\ "work"
             ∈ map fst
                 (assoc_set "work"
                    (metadata_of (H := Reference.runtime None) "work") [])).
Proof.
  apply (createProfile_registers (H := Reference.runtime None) "work"
           configured_state registered_state
           (Profile.mk "work" [".claude-work"] [".claude-work"]
              [".claude-work.json"] false (Time 1714979289010))
           emptyConfig []).
  - apply pair_eq; [vm_compute; reflexivity|same_state].
  - intros t. vm_compute. discriminate.
  - reflexivity.
  - reflexivity.
Defined.

Lemma listed_names_are_registered_witness :
  stale_entry_state = stale_entry_state
  /\ exists registered,
      getProfileNamesFromConfig (H := Reference.runtime None) stale_entry_state
      = (Ok registered, stale_entry_state)
      /\ forall name,
          name ∈ ["work"]
          <-> name ∈ registered
              /\ exists_ stale_entry_state (getProfilePath name) = true.
Proof.
  apply (listed_names_are_registered (H := Reference.runtime None)
           stale_entry_state stale_entry_state ["work"]).
  apply pair_eq; [vm_compute; reflexivity|same_state].
Defined.

Lemma getProfile_found_witness :
  stale_entry_state = stale_entry_state
  /\ "work" = "work"
  /\ [".claude-work"] = getProfilePath "work"
  /\ [".claude-work.json"] = getProfileCredentialsPath "work"
  /\ exists_ stale_entry_state (getProfilePath "work") = true
  /\ false = exists_ stale_entry_state (getProfileCredentialsPath "work")
  /\ exists registered,
      getProfileNamesFromConfig (H := Reference.runtime None) stale_entry_state
      = (Ok registered, stale_entry_state)
      /\ "work" ∈ registered.
Proof.
  apply (getProfile_found (H := Reference.runtime None) "work"
           stale_entry_state stale_entry_state
           (Profile.mk "work" [".claude-work"] [".claude-work"]
              [".claude-work.json"] false
              (Reference.date_new (Some (JString "2024-03-04T05:06:07.008Z"))))).
  apply pair_eq; [vm_compute; reflexivity|same_state].
Defined.

Lemma listProfiles_without_metadata_witness :
  listProfiles (H := Reference.runtime None) fresh_profile_state
  = (Ok [], fresh_profile_state)
  /\ getProfileNames (H := Reference.runtime None) fresh_profile_state
     = (Ok [], fresh_profile_state)
  /\ (forall name,
        getProfile (H := Reference.runtime None) name fresh_profile_state
        = (Ok None, fresh_profile_state))
  /\ getProfileNamesFromConfig (H := Reference.runtime None) fresh_profile_state
     = (Ok [], fresh_profile_state).
Proof.
  apply (listProfiles_without_metadata (H := Reference.runtime None)
           fresh_profile_state).
  by vm_compute.
Defined.

Lemma removeProfile_removes_witness :
  (forall k, [".claude-" +:+ "work"] `prefix_of` k ->
             unregistered_state !! k = None)
  /\ unregistered_state !! [".claude-" +:+ "work" +:+ ".json"] = None
  /\ profileExists "work" unregistered_state = (Ok false, unregistered_state)
  /\ (exists doc,
        without_profile
          (stored_config (H := Reference.runtime None) registered_state) "work"
        = Some doc
        /\ unregistered_state !! [".cc-profiles.json"]
           = Some (File (JSON_stringify (t := Reference.runtime None) doc)))
  /\ (forall k,
        ¬ ([".claude-" +:+ "work"] `prefix_of` k) ->
        k <> [".claude-" +:+ "work" +:+ ".json"] ->
        k <> [".cc-profiles.json"] ->
        unregistered_state !! k = registered_state !! k).
Proof.
  apply (removeProfile_removes (H := Reference.runtime None) "work"
           registered_state unregistered_state).
  - reflexivity.
  - reflexivity.
  - intros t. vm_compute. discriminate.
  - intros t. vm_compute. discriminate.
  - apply pair_eq; [vm_compute; reflexivity|same_state].
Defined.

Lemma register_then_unregister_witness :
  exists s1,
    saveProfileMetadata (H := Reference.runtime None) "work" configured_state
    = (Ok tt, s1)
    /\ loadProfilesConfig (H := Reference.runtime None) s1
       = (Ok (JObject
                (assoc_set "profiles"
                   (JObject
                      (assoc_set "work"
                         (metadata_of (H := Reference.runtime None) "work") []))
                   [("profiles", JObject []); ("version", JString "1.0.0")])),
          s1)
    /\ removeProfileMetadata (H := Reference.runtime None) "work" s1
       = (Ok tt,
          <[ [".cc-profiles.json"]
             := File (JSON_stringify (t := Reference.runtime None)
                        (JObject [("profiles", JObject []);
                                  ("version", JString "1.0.0")])) ]>
            configured_state).
Proof.
  apply (register_then_unregister (H := Reference.runtime None) "work"
           configured_state
           [("profiles", JObject []); ("version", JString "1.0.0")] []).
  - intros t. vm_compute. discriminate.
  - vm_compute. discriminate.
  - reflexivity.
  - reflexivity.
  - reflexivity.
  - vm_compute. reflexivity.
Defined.

End RegistryMoreFacts.

(** ** Searching and splitting strings *)

Module TextFacts.
Import JsString JsText.

Lemma append_cons c (x y : string) : String c x +:+ y = String c (x +:+ y).
Proof. reflexivity. Qed.

Lemma append_nil_l (x : string) : "" +:+ x = x.
Proof. reflexivity. Qed.

Lemma append_nil_r (x : string) : x +:+ "" = x.
Proof.
  induction x as [|c x IH]; [done|]. by rewrite append_cons, IH.
Qed.

Lemma prefix_append (n b : string) : String.prefix n (n +:+ b) = true.
Proof.
  induction n as [|c n IH]; [by destruct b|].
  rewrite append_cons. simpl. by destruct (ascii_dec c c).
Qed.

Lemma prefix_extend (n y b : string) :
  String.prefix n y = true -> String.prefix n (y +:+ b) = true.
Proof.
  revert n. induction y as [|c y IH]; intros [|a n]; try done.
  - by destruct b.
  - rewrite append_cons. simpl. destruct (ascii_dec a c); [apply IH|done].
Qed.

Lemma contains_cons n c y :
  contains n (String c y) = String.prefix n (String c y) || contains n y.
Proof. reflexivity. Qed.

Lemma contains_here (n b : string) : contains n (n +:+ b) = true.
Proof.
  destruct (n +:+ b) as [|c y] eqn:E.
  - destruct n; [done|]. by rewrite append_cons in E.
  - rewrite contains_cons, <- E. by rewrite prefix_append.
Qed.

Lemma contains_skip (n a y : string) :
  contains n y = true -> contains n (a +:+ y) = true.
Proof.
  intros Hy. induction a as [|c a IH]; [done|].
  rewrite append_cons, contains_cons, IH. apply orb_true_r.
Qed.

Lemma contains_extend (n y b : string) :
  contains n y = true -> contains n (y +:+ b) = true.
Proof.
  induction y as [|c y IH].
  - simpl. rewrite orb_false_r. destruct n; [|done]. intros _.
    rewrite append_nil_l. by destruct b.
  - rewrite append_cons, !contains_cons.
    intros [Hp|Hc]%orb_prop.
    + by rewrite <- append_cons, (prefix_extend _ _ _ Hp).
    + rewrite (IH Hc). apply orb_true_r.
Qed.

(** A text holds what one of the pieces joined into it holds. *)
Lemma contains_concat (n sep : string) (ls : list string) (l : string) :
  l ∈ ls -> contains n l = true -> contains n (String.concat sep ls) = true.
Proof.
  intros Hin Hl. induction ls as [|x ls IH]; [by apply elem_of_nil in Hin|].
  destruct ls as [|y ls].
  - apply elem_of_cons in Hin as [->|Hin]; [done|by apply elem_of_nil in Hin].
  - change (String.concat sep (x :: y :: ls))
      with (x +:+ sep +:+ String.concat sep (y :: ls)).
    apply elem_of_cons in Hin as [->|Hin].
    + by apply contains_extend.
    + by apply contains_skip, contains_skip, IH.
Qed.

(** *** Lines *)

Lemma lines_nonempty x : lines x <> [].
Proof.
  unfold lines. destruct x as [|c x]; simpl; [done|].
  destruct (code c =? 10)%nat; [done|]. by destruct (split 10 x).
Qed.

Lemma lines_cons c x :
  lines (String c x)
  = if (code c =? 10)%nat then "" :: lines x
    else match lines x with
         | [] => [String c ""]
         | piece :: more => String c piece :: more
         end.
Proof. reflexivity. Qed.

Lemma concat_cons2 sep (x y : string) ls :
  String.concat sep (x :: y :: ls) = x +:+ sep +:+ String.concat sep (y :: ls).
Proof. reflexivity. Qed.

(** Joining the lines of a text gives the text back. *)
Lemma concat_lines x : String.concat nl (lines x) = x.
Proof.
  induction x as [|c x IH]; [done|]. rewrite lines_cons.
  pose proof (lines_nonempty x) as Hne.
  destruct (lines x) as [|y ys] eqn:Hs; [done|].
  destruct (code c =? 10)%nat eqn:E.
  - apply Nat.eqb_eq in E.
    rewrite concat_cons2, IH, append_nil_l. unfold nl.
    rewrite append_cons, append_nil_l.
    f_equal. rewrite <- E. unfold code. by rewrite ascii_nat_embedding.
  - destruct ys as [|z ys].
    + simpl in *. by rewrite IH.
    + rewrite concat_cons2, append_cons. f_equal. exact IH.
Qed.

Lemma lines_append (a b : string) :
  lines (a +:+ nl +:+ b) = lines a ++ lines b.
Proof.
  induction a as [|c a IH].
  - by rewrite append_nil_l.
  - rewrite append_cons, !lines_cons, IH.
    destruct (code c =? 10)%nat; [done|].
    pose proof (lines_nonempty a) as Hne.
    by destruct (lines a) as [|y ys].
Qed.

Lemma concat_app sep (l1 l2 : list string) :
  l1 <> [] -> l2 <> [] ->
  String.concat sep (l1 ++ l2)
  = String.concat sep l1 +:+ sep +:+ String.concat sep l2.
Proof.
  intros H1 H2. induction l1 as [|x l1 IH]; [done|].
  destruct l1 as [|y l1].
  - destruct l2 as [|z l2]; [done|]. reflexivity.
  - change ((x :: y :: l1) ++ l2) with (x :: y :: (l1 ++ l2)).
    rewrite !concat_cons2.
    change (y :: l1 ++ l2) with ((y :: l1) ++ l2). rewrite IH by done.
    by rewrite !ShellFacts.append_assoc.
Qed.

(** A text holds what one of its lines holds. *)
Lemma contains_line (n x l : string) :
  l ∈ lines x -> contains n l = true -> contains n x = true.
Proof.
  intros Hin Hl. rewrite <- (concat_lines x). by apply (contains_concat _ _ _ l).
Qed.

(** *** A needle of one line *)

Lemma prefix_before_newline (n a b : string) :
  one_line n = true ->
  String.prefix n (a +:+ nl +:+ b) = true -> String.prefix n a = true.
Proof.
  unfold one_line. revert a. induction n as [|c n IH]; intros a; [by destruct a|].
  simpl. intros [Hc Hn]%andb_prop. destruct a as [|x a].
  - rewrite append_nil_l. unfold nl. rewrite append_cons. simpl.
    destruct (ascii_dec c _) as [->|]; [|done]. by vm_compute in Hc.
  - rewrite append_cons. simpl. destruct (ascii_dec c x); [|done]. by apply IH.
Qed.

Lemma contains_across_newline (n a b : string) :
  one_line n = true ->
  contains n (a +:+ nl +:+ b) = true ->
  contains n a = true \/ contains n b = true.
Proof.
  intros Hn. induction a as [|x a IH].
  - rewrite append_nil_l. unfold nl at 1. rewrite append_cons, append_nil_l.
    rewrite contains_cons. intros [Hp|Hc]%orb_prop; [|by right].
    left. destruct n as [|c n]; [done|]. simpl in Hp, Hn.
    destruct (ascii_dec c _) as [->|]; [|done].
    apply andb_prop in Hn as [Hc _]. by vm_compute in Hc.
  - rewrite append_cons, !contains_cons.
    intros [Hp|Hc]%orb_prop.
    + left. rewrite <- append_cons in Hp.
      by rewrite (prefix_before_newline _ _ _ Hn Hp).
    + destruct (IH Hc) as [Ha|Hb]; [left|by right].
      rewrite Ha. apply orb_true_r.
Qed.

(** A needle of one line that is in none of the lines is not in the
    text they make. *)
Lemma contains_joined_lines (n : string) (ls : list string) :
  one_line n = true ->
  n <> "" ->
  Forall (fun l => contains n l = false) ls ->
  contains n (String.concat nl ls) = false.
Proof.
  intros Hn Hne Hall. induction Hall as [|x ls Hx Hall IH].
  - simpl. rewrite orb_false_r. by destruct n.
  - destruct ls as [|y ls]; [done|]. rewrite concat_cons2.
    destruct (contains n (x +:+ nl +:+ String.concat nl (y :: ls))) eqn:E;
      [|done].
    apply contains_across_newline in E as [E|E]; congruence.
Qed.

End TextFacts.

(** ** The startup file: putting the integration in and taking it out *)

Module ShellMoreFacts.
Import JsString JsText Path Fs Json Runtime Types Paths Shell ShellRemoval.
Import FsFacts FsHelpers LauncherSpec ShellFacts TextFacts LinkTests.
Import RegistryMoreFacts RegistrySpec Examples Scenarios.

Local Arguments walk : simpl never.

Lemma marker_in_new_content (content : string) :
  contains INTEGRATION_MARKER
    (trimEnd content +:+ nl +:+ nl +:+ integration_block) = true.
Proof.
  do 3 apply contains_skip. unfold integration_block. apply contains_here.
Qed.

Lemma lstat_top (s : gmap path node) (c : string) : lstat s [c] = s !! [c].
Proof. unfold lstat. by rewrite locate_top. Qed.

Section WithRuntime.
Context `{Runtime.t}.

Lemma rc_path_top (s : gmap path node) :
  is_fish shell_family = false -> exists c, rc_path s = [c].
Proof.
  unfold rc_path. destruct shell_family; try done; try by eexists.
  intros _. destruct (exists_ s _); by eexists.
Qed.

Lemma rc_path_bash_profile (s : gmap path node) :
  rc_path s = [".bash_profile"] -> exists_ s [".bash_profile"] = true.
Proof.
  unfold rc_path. destruct shell_family; try done.
  by destruct (exists_ s [".bash_profile"]).
Qed.

Lemma rc_path_same (s s' : gmap path node) :
  exists_ s' [".bash_profile"] = exists_ s [".bash_profile"] ->
  rc_path s' = rc_path s.
Proof. unfold rc_path. by intros ->. Qed.

Lemma aliases_path_sh :
  is_fish shell_family = false -> aliases_path = [".cc-profiles-aliases.sh"].
Proof. unfold aliases_path. by intros ->. Qed.

(** Writing the startup file, a regular file or a new one, does not
    move it. *)
Lemma rc_path_written (s : gmap path node) (c : string) (content : string) :
  rc_path s = [c] ->
  not_link (s !! [".bash_profile"]) ->
  rc_path (<[ [c] := File content ]> s) = [c].
Proof.
  intros Hc Hbp. transitivity (rc_path s); [|done]. apply rc_path_same.
  destruct (decide (c = ".bash_profile")) as [->|Hne].
  - rewrite (rc_path_bash_profile _ Hc).
    rewrite exists_top; [by rewrite lookup_insert_eq|].
    intros t. by rewrite lookup_insert_eq.
  - rewrite !exists_top; rewrite ?lookup_insert_ne by congruence; done.
Qed.

Lemma isShellIntegrated_eq (s : gmap path node) :
  isShellIntegrated s
  = if is_fish shell_family then (Ok true, s)
    else if exists_ s (rc_path s) then
      match fst (readFile (rc_path s) s) with
      | Ok content => (Ok (contains INTEGRATION_MARKER content), s)
      | Throw e => (Throw e, s)
      end
    else (Ok false, s).
Proof.
  unfold isShellIntegrated. unfold bind at 1. rewrite detectShell_spec.
  cbn [ShellConfig.type ShellConfig.rcFile].
  destruct (is_fish shell_family); [done|].
  unfold bind at 1, existsSync at 1.
  destruct (exists_ s (rc_path s)); cbn [negb]; [|done].
  unfold bind.
  destruct (readFile (rc_path s) s) as [[content|e] s1] eqn:Hread;
    by pose proof (readFile_state _ _ _ _ Hread) as ->.
Qed.

(** The state a file at the place of the startup file gives. *)
Lemma integrated_written (s : gmap path node) (c content : string) :
  is_fish shell_family = false ->
  rc_path s = [c] ->
  s !! [c] = Some (File content) ->
  isShellIntegrated s = (Ok (contains INTEGRATION_MARKER content), s).
Proof.
  intros Hfish Hc Hfile. rewrite isShellIntegrated_eq, Hfish, Hc.
  rewrite exists_top, readFile_top by (intros t; by rewrite Hfile).
  by rewrite Hfile.
Qed.

(** What a call of [setupShellIntegration] that writes leaves. *)
Lemma setupShellIntegration_writes (s s' : gmap path node)
    (r : SetupResult.t) (c : string) :
  is_fish shell_family = false ->
  rc_path s = [c] ->
  file_or_absent (s !! [c]) ->
  contains INTEGRATION_MARKER (previous_content s) = false ->
  setupShellIntegration s = (Ok r, s') ->
  r = SetupResult.mk true [c]
  /\ s' = <[ [c] := File (trimEnd (previous_content s) +:+ nl +:+ nl
                            +:+ integration_block) ]> s.
Proof.
  intros Hfish Hc Hfile Hmarker.
  assert (not_link (s !! [c])) as Hplain
      by (intros t E; by rewrite E in Hfile).
  rewrite setupShellIntegration_eq. unfold previous_content in *.
  rewrite Hfish, Hc in *. cbv zeta. unfold writeFile.
  rewrite write_target_top by done.
  rewrite exists_top, readFile_top in * by done.
  destruct (s !! [c]) as [[x| |t]|]; try done; cbn [fst] in *.
  - rewrite Hmarker. by intros [= <- <-].
  - by intros [= <- <-].
Qed.


(** *** Taking the integration out *)

Lemma kept_no_marker (l : string) :
  kept l = true -> contains INTEGRATION_MARKER l = false.
Proof. unfold kept. by intros [->%negb_true_iff _]%andb_prop. Qed.

(** [removeShellIntegration] for a shell other than fish whose startup
    file is a regular file of the home directory. *)
Lemma removeShellIntegration_run (s : gmap path node) (c content : string) :
  is_fish shell_family = false ->
  rc_path s = [c] ->
  s !! [c] = Some (File content) ->
  removeShellIntegration s
  = let s1 := <[ [c] := File (join_with nl (List.filter kept (lines content))) ]> s in
    if exists_ s1 [".cc-profiles-aliases.sh"]
    then rm [".cc-profiles-aliases.sh"] s1
    else (Ok tt, s1).
Proof.
  intros Hfish Hc Hfile.
  assert (not_link (s !! [c])) as Hplain by (intros t; by rewrite Hfile).
  unfold removeShellIntegration. unfold bind at 1. rewrite detectShell_spec.
  cbn [ShellConfig.type ShellConfig.rcFile]. rewrite Hfish, Hc.
  unfold bind at 1, existsSync at 1.
  rewrite exists_top by done. rewrite Hfile. cbn [andb negb].
  unfold bind at 1. unfold bind at 1. rewrite readFile_top by done.
  rewrite Hfile. unfold writeFile. rewrite write_target_top by done.
  rewrite Hfile. cbv zeta.
  unfold bind at 1. rewrite getAliasesFilePath_spec, aliases_path_sh by done.
  unfold bind, existsSync. by destruct (exists_ _ _).
Qed.


Lemma filter_all {A} (f : A -> bool) (l : list A) :
  Forall (fun x => f x = true) l -> List.filter f l = l.
Proof.
  induction 1 as [|x l Hx Hl IH]; [done|]. simpl. by rewrite Hx, IH.
Qed.

(** The lines of the new content that survive the removal. *)
Lemma kept_lines_of_new_content (previous : string) :
  contains INTEGRATION_MARKER previous = false ->
  contains ".cc-profiles-aliases.sh" previous = false ->
  join_with nl
    (List.filter kept
       (lines (trimEnd previous +:+ nl +:+ nl +:+ integration_block)))
  = trimEnd previous +:+ nl +:+ nl.
Proof.
  intros Hmarker Hname.
  destruct (trimEnd_spec previous) as (trailing & Hprev & _).
  rewrite lines_append, List.filter_app.
  assert (List.filter kept (lines (nl +:+ integration_block)) = [""; ""]) as ->
      by by vm_compute.
  rewrite filter_all.
  - unfold join_with. rewrite concat_app by (done || apply lines_nonempty).
    by rewrite concat_lines.
  - apply Forall_forall. intros l Hl. unfold kept.
    destruct (contains INTEGRATION_MARKER l) eqn:E1.
    { apply (contains_line _ _ _ Hl) in E1.
      apply (contains_extend _ _ trailing) in E1. congruence. }
    destruct (contains ".cc-profiles-aliases.sh" l) eqn:E2; [|done].
    apply (contains_line _ _ _ Hl) in E2.
    apply (contains_extend _ _ trailing) in E2. congruence.
Qed.


(** *** The names the launcher file is made from *)

(** X20. [getProfileNamesFromConfig] never throws and never writes,
    and [syncAliases] regenerates the launcher file from the names it
    returns.  When the metadata file is missing or does not hold
    JSON, these names are none: [syncAliases] then writes nothing, and
    when it succeeds no launcher file is left. *)
Theorem syncAliases_names (s : gmap path node) :
  exists names,
    getProfileNamesFromConfig s = (Ok names, s)
    /\ syncAliases s = regenerateAliasesFile names s
    /\ (read_fails s ->
        names = []
        /\ forall r s',
            syncAliases s = (r, s') ->
            s' ⊆ s /\ (r = Ok tt -> exists_ s' aliases_path = false)).
Proof.
  assert (exists names,
             getProfileNamesFromConfig s = (Ok names, s)
             /\ (read_fails s -> names = [])) as (names & Hnames & Hfails).
  { unfold getProfileNamesFromConfig, try_catch, bind, read_fails.
    change (join HOME ".cc-profiles.json") with CLAUDE_PATHS.profilesConfig.
    destruct (readFile CLAUDE_PATHS.profilesConfig s) as [[content|e] s1] eqn:Hread;
      pose proof (readFile_state _ _ _ _ Hread) as ->; cbn [fst];
      [|by exists []].
    destruct (JSON_parse content) as [v|]; [|by exists []].
    destruct v as [|b|lit|str|items|props]; try (by eexists).
    cbn [get_prop]. destruct (assoc "profiles" props); by eexists. }
  exists names. split; [done|]. split.
  { unfold syncAliases, bind. by rewrite Hnames. }
  intros ->%Hfails. split; [done|]. intros r s'.
  unfold syncAliases. unfold bind at 1. rewrite Hnames.
  unfold regenerateAliasesFile. unfold bind at 1. rewrite detectShell_spec.
  unfold bind at 1. rewrite getAliasesFilePath_spec. cbn [length Nat.eqb].
  unfold bind, existsSync.
  destruct (exists_ s aliases_path) eqn:Hthere.
  - unfold rm. destruct (locate s aliases_path) as [k|] eqn:Hloc.
    + destruct (node_at s k) as [[x| |t]|]; intros [= <- <-]; try done;
        (split; [apply delete_subseteq|]; intros _;
         apply exists_after_delete; [apply aliases_path_not_root|done]).
    + by intros [= <- <-].
  - by intros [= <- <-].
Qed.

End WithRuntime.




End ShellMoreFacts.

(** ** The check of the name prompt *)

Module PromptFacts.
Import JsString Validation Prompts NameFacts.

Lemma error_none_iff_valid (name : string) :
  getProfileNameError name = None <-> isValidProfileName name = true.
Proof.
  unfold getProfileNameError, isValidProfileName.
  destruct (is_blank name); [done|].
  destruct (_ <? _)%nat; [done|].
  destruct (PROFILE_NAME_PATTERN name) eqn:Hp; cbn [negb].
  - rewrite (ValidationFacts.pattern_starts_lower _ Hp). cbn [negb].
    by destruct (includes _ _).
  - by destruct (starts_lower name).
Qed.

Lemma error_not_empty (name msg : string) :
  getProfileNameError name = Some msg -> String.eqb msg "" = false.
Proof.
  unfold getProfileNameError.
  repeat match goal with
         | |- context [if ?b then _ else _] => destruct b
         end; by intros [= <-].
Qed.

(** X21. The check that [promptProfileName] hands to the text prompt
    accepts a value exactly when [isValidProfileName] accepts it and
    it is none of the existing names.  For a value that is not valid
    it shows the message of [getProfileNameError], also when the value
    is among the existing names. *)
Theorem validate_spec (existing : list string) (value : string) :
  (validate existing value = None
   <-> isValidProfileName value = true /\ value ∉ existing)
  /\ (forall msg,
        getProfileNameError value = Some msg ->
        validate existing value = Some msg)
  /\ (isValidProfileName value = true ->
      value ∈ existing ->
      validate existing value
      = Some ("Profile " +:+ dquote +:+ value +:+ dquote +:+ " already exists")).
Proof.
  unfold validate.
  destruct (getProfileNameError value) as [msg|] eqn:Herror.
  - rewrite (error_not_empty _ _ Herror). cbn [negb].
    assert (isValidProfileName value = false) as Hinvalid.
    { destruct (isValidProfileName value) eqn:Hv; [|done].
      apply error_none_iff_valid in Hv. congruence. }
    rewrite Hinvalid. split; [|split].
    + split; [done|by intros [? _]].
    + by intros msg' [= <-].
    + done.
  - apply error_none_iff_valid in Herror as ->.
    destruct (includes existing value) eqn:Hin.
    + apply includes_elem_of in Hin. split; [|split]; try done.
      split; [done|]. by intros [_ ?].
    + split; [|split]; try done.
      * split; [|done]. intros _. split; [done|].
        intros Hin'%includes_elem_of. congruence.
      * intros _ Hin'%includes_elem_of. congruence.
Qed.

End PromptFacts.

(** ** The commands *)

Module CommandFacts.
Import JsString Path Fs Json Runtime Types Paths Symlinks ProfileOps Shell.
Import Terminal Ui Claude Commands RegistryDocs ListSpec.
Import FsFacts RegistryFacts RegistryMoreFacts LinkFacts.

Section WithOutside.
Context `{Runtime.t} `{Terminal.t}.

(** Listing only reads. *)
Lemma listProfiles_state (s : gmap path node) : snd (listProfiles s) = s.
Proof.
  unfold listProfiles. unfold bind at 1.
  rewrite loadProfilesConfig_stored.
  destruct (entries _) as [es|]; [|done].
  destruct (listProfiles_loop_run s es []) as [Hstate _].
  unfold bind. by destruct (listProfiles_loop es [] s) as [[ps|e] s2].
Qed.

Lemma getProfileNames_state (s : gmap path node) :
  snd (getProfileNames s) = s.
Proof.
  unfold getProfileNames, bind. pose proof (listProfiles_state s) as Hs.
  by destruct (listProfiles s) as [[ps|e] s2].
Qed.

(** From the confirmation on, the command changes the file system only
    when the user confirmed and the directory of the profile exists. *)
Lemma runRemove_confirm_safe
    (name : string) (s : gmap path node) (shown : list event) :
  snd (fst (runRemove_confirm name s shown)) = s
  \/ (confirm_answer (confirmRemove_message name) = Some true
      /\ exists_ s (getProfilePath name) = true).
Proof.
  unfold runRemove_confirm, confirmRemove, andThen at 1 2, show at 1, pure.
  destruct (confirm_answer (confirmRemove_message name)) as [[|]|] eqn:Hanswer;
    simpl; try by left.
  destruct (exists_ s (getProfilePath name)) eqn:Hthere; [by right|left].
  unfold andThen at 1, show at 1, catch, andThen at 1, lift at 1.
  unfold removeProfile, bind at 1, existsSync at 1. by rewrite Hthere.
Qed.

(** X22. [runRemove] leaves the file system as it is unless a profile
    is listed, the name, given or selected, is the name of a directory
    on disk, and the user confirmed the removal of that name. *)
Theorem runRemove_changes_only_confirmed
    (providedName : option string) (s : gmap path node) (shown : list event) :
  snd (fst (runRemove providedName s shown)) = s
  \/ exists name profiles,
      listProfiles s = (Ok profiles, s)
      /\ profiles <> []
      /\ (providedName = Some name
          \/ (missing providedName = true
              /\ select_answer "Select a profile:"
                   (map (fun profile =>
                           SelectOption.mk (Profile.name profile)
                             (Profile.name profile)
                             (formatAuthStatus (Profile.isAuthenticated profile)))
                      profiles)
                 = Some name))
      /\ exists_ s (getProfilePath name) = true
      /\ confirm_answer (confirmRemove_message name) = Some true.
Proof.
  unfold runRemove. unfold andThen at 1, lift at 1.
  pose proof (listProfiles_state s) as Hstate.
  destruct (listProfiles s) as [[profiles|e] s1] eqn:Hlist; simpl in Hstate;
    subst s1; [|by left].
  destruct profiles as [|p ps]; [by left|].
  set (listed := p :: ps) in *.
  assert (listed <> []) as Hlisted by done.
  change (Nat.eqb (length listed) 0) with false. cbv iota.
  destruct (missing providedName) eqn:Hmissing.
  - unfold selectProfile, andThen at 1 2, show at 1, pure.
    destruct (select_answer _ _) as [selected|] eqn:Hsel; [|by left].
    simpl. destruct (String.eqb selected "") eqn:Hempty; [by left|].
    destruct (runRemove_confirm_safe selected s
                (shown ++ [select "Select a profile:"
                             (map (fun profile =>
                                     SelectOption.mk (Profile.name profile)
                                       (Profile.name profile)
                                       (formatAuthStatus
                                          (Profile.isAuthenticated profile)))
                                  listed)]))
      as [Hsame|[Hyes Hthere]]; [by left|right].
    exists selected, listed. repeat split; try done.
    by right.
  - destruct providedName as [name|]; [|done]. simpl.
    unfold andThen at 1, lift at 1, profileExists, existsSync.
    destruct (exists_ s (getProfilePath name)) eqn:Hthere; [|by left].
    simpl.
    destruct (runRemove_confirm_safe name s shown)
      as [Hsame|[Hyes _]]; [by left|right].
    exists name, listed. repeat split; try done. by left.
Qed.

Lemma runList_loop_run (s : gmap path node) :
  forall profiles shown,
    runList_loop profiles s shown
    = (Value tt, s, shown ++ flat_map (profile_lines s) profiles).
Proof.
  induction profiles as [|profile rest IH]; intros shown; simpl.
  - by rewrite app_nil_r.
  - unfold andThen at 1, lift at 1. rewrite verifySymlinks_value.
    unfold andThen at 1 2 3 4 5, show at 1 2 3 4 5. rewrite IH.
    by rewrite <- !app_assoc.
Qed.

(** X25. [runList] only reads: whatever it shows and however it ends,
    the file system is as before, and it never exits the process.
    When profiles are listed it shows, after the count, five lines for
    each profile in the order of the list, and the line of the
    configuration reads symlinks ok exactly when settings.json in the
    profile directory is a symbolic link that resolves; the six
    optional items are not looked at. *)
Theorem runList_reads (s : gmap path node) (shown : list event) :
  snd (fst (runList s shown)) = s
  /\ (forall code, fst (fst (runList s shown)) <> Exit code)
  /\ forall profiles,
      fst (listProfiles s) = Ok profiles ->
      profiles <> [] ->
      runList s shown
      = (Value tt, s,
         shown
           ++ [console_log "";
               log_info ("Found " +:+ cyan (of_nat (length profiles))
                           +:+ " profile(s):" +:+ nl)]
           ++ flat_map (profile_lines s) profiles).
Proof.
  pose proof (listProfiles_state s) as Hstate.
  destruct (listProfiles s) as [[profiles|e] s1] eqn:Hlist; simpl in Hstate;
    subst s1.
  - destruct profiles as [|p ps].
    + assert (runList s shown
              = (Value tt, s,
                 shown ++ [log_warn
                             "No profiles found. Create one with: cc-profiles create"]))
        as ->.
      { unfold runList, andThen, lift. by rewrite Hlist. }
      do 2 (split; [done|]). by intros profiles [= <-].
    + set (listed := p :: ps) in *.
      assert (runList s shown
              = (Value tt, s,
                 shown
                   ++ [console_log "";
                       log_info ("Found " +:+ cyan (of_nat (length listed))
                                   +:+ " profile(s):" +:+ nl)]
                   ++ flat_map (profile_lines s) listed)) as ->.
      { unfold runList. unfold andThen at 1, lift at 1. rewrite Hlist.
        change (Nat.eqb (length listed) 0) with false. cbv iota.
        unfold andThen, show. rewrite runList_loop_run.
        by rewrite <- !app_assoc. }
      do 2 (split; [done|]). by intros profiles [= <-] _.
  - assert (runList s shown = (Raise e, s, shown)) as ->.
    { unfold runList, andThen, lift. by rewrite Hlist. }
    by do 2 (split; [done|]).
Qed.

(** When the child processes leave the tree below the home directory
    as it is, the check of the installation only reads, never throws,
    and reports the installation configured exactly when the shared
    root and the credentials file both exist. *)
Lemma checkClaudeInstallation_run (s : gmap path node) :
  (forall command s0, snd (execSync command s0) = s0) ->
  exists status,
    checkClaudeInstallation s = (Ok status, s)
    /\ ClaudeStatus.isConfigured status
       = exists_ s CLAUDE_PATHS.mainConfig
         && exists_ s CLAUDE_PATHS.mainCredentials.
Proof.
  intros Hpure. unfold checkClaudeInstallation.
  unfold bind at 1, try_catch at 1, bind at 1.
  pose proof (Hpure "claude --version" s) as H1.
  destruct (execSync "claude --version" s) as [[o1|e1] s1];
    simpl in H1; subst s1; [by eexists|].
  unfold try_catch at 1, bind at 1.
  pose proof (Hpure "~/.local/bin/claude --version" s) as H2.
  destruct (execSync "~/.local/bin/claude --version" s) as [[o2|e2] s2];
    simpl in H2; subst s2; [by eexists|].
  unfold try_catch at 1, bind at 1.
  pose proof (Hpure "npx @anthropic-ai/claude-code --version" s) as H3.
  destruct (execSync "npx @anthropic-ai/claude-code --version" s)
    as [[o3|e3] s3]; simpl in H3; subst s3; by eexists.
Qed.

(** X23. [runCreate] refuses to start when the shared root or the
    credentials file ~/.claude.json is missing: it shows that Claude
    Code is not configured, exits with code 1 and changes nothing,
    whatever name is given; so it refuses also where [createProfile],
    which asks for the shared root only, would go on. *)
Theorem runCreate_not_configured
    (providedName : option string) (s : gmap path node) (shown : list event) :
  (forall command s0, snd (execSync command s0) = s0) ->
  exists_ s CLAUDE_PATHS.mainConfig && exists_ s CLAUDE_PATHS.mainCredentials
  = false ->
  runCreate providedName s shown
  = (Exit 1, s,
     shown ++ [log_error ("Claude Code is not configured." +:+ nl +:+ nl
                            +:+ "Run " +:+ cyan "claude"
                            +:+ " first to set up your main configuration.")]).
Proof.
  intros Hpure Hmissing.
  destruct (checkClaudeInstallation_run s Hpure) as (status & Hrun & Hconf).
  unfold runCreate, andThen at 1, lift at 1. rewrite Hrun, Hconf, Hmissing.
  done.
Qed.

(** X24. When [runCreate] is given a name that is not among the listed
    profiles and [createProfile] throws, the command stops the spinner,
    shows the message of the error in the colour of errors and exits
    with code 1; the file system is as the failed [createProfile] left
    it, and nothing else is shown or done. *)
Theorem runCreate_failure
    (name : string) (names : list string) (e : error)
    (s s1 : gmap path node) (shown : list event) :
  (forall command s0, snd (execSync command s0) = s0) ->
  exists_ s CLAUDE_PATHS.mainConfig = true ->
  exists_ s CLAUDE_PATHS.mainCredentials = true ->
  name <> "" ->
  fst (getProfileNames s) = Ok names ->
  name ∉ names ->
  createProfile name s = (Throw e, s1) ->
  runCreate (Some name) s shown
  = (Exit 1, s1,
     shown ++ [spinner_start "Creating profile..."]
       ++ [spinner_stop "Failed to create profile"]
       ++ [log_error (red (error_message e))]).
Proof.
  intros Hpure Hconfig Hcred Hname Hnames Hnew Hcreate.
  destruct (checkClaudeInstallation_run s Hpure) as (status & Hrun & Hconf).
  unfold runCreate, andThen at 1, lift at 1.
  rewrite Hrun, Hconf, Hconfig, Hcred. simpl.
  unfold andThen at 1, lift at 1.
  pose proof (getProfileNames_state s) as Hstate.
  destruct (getProfileNames s) as [[names'|e'] s2]; simpl in *; subst s2;
    [|done].
  injection Hnames as ->.
  destruct (String.eqb name "") eqn:Hempty.
  { by apply String.eqb_eq in Hempty. }
  destruct (includes names name) eqn:Hincl.
  { exfalso. apply Hnew. unfold includes in Hincl.
    apply existsb_exists in Hincl as (x & Hin & ->%String.eqb_eq).
    by apply list_elem_of_In. }
  unfold runCreate_create, andThen at 1, show at 1, catch, andThen at 1,
    lift at 1.
  rewrite Hcreate. unfold andThen, show, showError, process_exit. simpl.
  by rewrite <- !app_assoc.
Qed.

End WithOutside.

Lemma runList_reads_witness :
  exists profiles,
    fst (listProfiles (H := Reference.runtime None) Scenarios.registered_state)
    = Ok profiles
    /\ profiles <> []
    /\ runList (H := Reference.runtime None) (H0 := Quiet.terminal)
         Scenarios.registered_state []
       = (Value tt, Scenarios.registered_state,
          [] ++ [console_log "";
                 log_info ("Found " +:+ of_nat (length profiles)
                             +:+ " profile(s):" +:+ nl)]
             ++ flat_map (profile_lines (H := Quiet.terminal)
                            Scenarios.registered_state) profiles).
Proof.
  eexists. split; [vm_compute; reflexivity|]. split; [discriminate|].
  apply (proj2 (proj2 (runList_reads (H := Reference.runtime None)
                         (H0 := Quiet.terminal)
                         Scenarios.registered_state []))).
  - vm_compute. reflexivity.
  - discriminate.
Defined.

Lemma runCreate_not_configured_witness :
  runCreate (H := Reference.runtime None) (H0 := Quiet.terminal)
    (Some "work") Scenarios.configured_state []
  = (Exit 1, Scenarios.configured_state,
     [log_error ("Claude Code is not configured." +:+ nl +:+ nl
                   +:+ "Run " +:+ "claude"
                   +:+ " first to set up your main configuration.")]).
Proof.
  apply (runCreate_not_configured (H := Reference.runtime None)
           (H0 := Quiet.terminal) (Some "work") Scenarios.configured_state []).
  - done.
  - vm_compute. reflexivity.
Defined.

Lemma runCreate_failure_witness :
  runCreate (H := Reference.runtime None) (H0 := Quiet.terminal)
    (Some "work") Examples.installed_state []
  = (Exit 1, Examples.installed_state,
     [spinner_start "Creating profile...";
      spinner_stop "Failed to create profile";
      log_error ("Profile " +:+ dquote +:+ "work" +:+ dquote
                   +:+ " already exists.")]).
Proof.
  apply (runCreate_failure (H := Reference.runtime None)
           (H0 := Quiet.terminal) "work" [] (AlreadyExists "work")
           Examples.installed_state Examples.installed_state []).
  - done.
  - vm_compute. reflexivity.
  - vm_compute. reflexivity.
  - done.
  - vm_compute. reflexivity.
  - apply not_elem_of_nil.
  - run_fs.
Defined.

End CommandFacts.
